(** * Market data acquisition and live price monitoring

    A shallow embedding of the data layer of the chartist dashboard
    ([services/geminiService.ts]) and of the live price poller of
    [App.tsx], with the properties of its fallback policy, its relay
    through CORS proxies, its series normalisation and its polling loop.

    Asynchronous functions are functions in a small monad: a computation
    reads the events that happened before it, returns a value or throws a
    JavaScript error, and reports the events it produced itself: network
    requests and console lines, and the entry of each provider operation,
    recorded so that the statements can count the calls.  The network is an
    oracle that answers a request from the history so far; numbers and their
    formatting, the clock and the calendar are the host's.  Payloads are
    typed: an array holds numbers and nulls, a key may be missing.

    The poller is a transition system over what the browser can do between
    two runs of the component's code: a request starts or ends, the interval
    elapses, a pending quote settles. *)

From Stdlib Require Import String Ascii List ZArith Bool Arith Lia.
From Stdlib Require Import DecimalString Sorted Relations.
Import ListNotations.
Open Scope string_scope.

(** ** JavaScript values the code handles *)

Record JsError := mkJsError { err_name : string; err_message : string }.

Definition Error (msg : string) : JsError := mkJsError "Error" msg.
Definition TypeError (msg : string) : JsError := mkJsError "TypeError" msg.
Definition RangeError (msg : string) : JsError := mkJsError "RangeError" msg.
Definition SyntaxError (msg : string) : JsError := mkJsError "SyntaxError" msg.
Definition AbortError : JsError :=
  mkJsError "AbortError" "The user aborted a request.".

Inductive Result (A : Type) : Type :=
| Ok (a : A)
| Throw (e : JsError).
Arguments Ok {A} a.
Arguments Throw {A} e.

(** The host: JavaScript numbers with the operations the code applies to
    them, the clock and the calendar arithmetic of [Date]. *)
Class Host : Type := {
  num : Type;
  num_zero : num;                   (* the number 0 *)
  toFixed2 : num -> string;         (* x.toFixed(2) *)
  numToString : num -> string;      (* `${x}` *)
  num_ge : num -> num -> bool;      (* x >= y *)
  num_truthy : num -> bool;         (* !!x : false on 0 and NaN *)
  num_is_zero : num -> bool;        (* x === 0 *)
  isFinite : num -> bool;
  parseFloat : string -> num;
  (* new Date(ts * 1000).toISOString().split('T')[0]; toISOString raises a
     RangeError on a time outside the range of Date: None *)
  isoDate : num -> option string;
  clock_now : Z;                    (* Date.now(), in milliseconds *)
  minusDays : Z -> Z -> Z;          (* now.setDate(now.getDate() - n) *)
  minusYears : Z -> Z -> Z;         (* now.setFullYear(now.getFullYear() - n) *)
  (* `${({})[name]}` for a name that an object literal inherits from
     Object.prototype: the text of the function or object found there *)
  inherited : string -> option string
}.

(** A value read from a parsed payload: a number, null, or undefined (an
    index past the end of an array). *)
Inductive jsval `{Host} : Type :=
| VNum (n : num)
| VNull
| VUndef.

(** A price field: the code accepts numbers and strings; [PObj] is any
    other truthy value (an array, an object, true). *)
Inductive PriceVal `{Host} : Type :=
| PNum (n : num)
| PStr (s : string)
| PNull
| PUndef
| PObj.

(** ** Strings *)

Definition nl : string := String (ascii_of_nat 10) EmptyString.

Definition showZ (z : Z) : string := NilZero.string_of_int (Z.to_int z).

Fixpoint join (sep : string) (l : list string) : string :=
  match l with
  | [] => ""
  | [s] => s
  | s :: rest => s ++ sep ++ join sep rest
  end.

(** [s.endsWith(suffix)] *)
Definition endsWith (s suffix : string) : bool :=
  let n := String.length s in
  let m := String.length suffix in
  (m <=? n)%nat && (substring (n - m) m s =? suffix).

Definition hexDigit (n : nat) : ascii :=
  ascii_of_nat (if (n <? 10)%nat then 48 + n else 55 + n).

Definition isUnreserved (c : ascii) : bool :=
  let n := nat_of_ascii c in
  ((65 <=? n) && (n <=? 90) || (97 <=? n) && (n <=? 122)
   || (48 <=? n) && (n <=? 57))%nat
  || existsb (Ascii.eqb c)
       ["-"; "_"; "."; "!"; "~"; "*"; "'"; "("; ")"]%char.

(** [encodeURIComponent] on a string of bytes (UTF-8). *)
Fixpoint encodeURIComponent (s : string) : string :=
  match s with
  | EmptyString => EmptyString
  | String c rest =>
      if isUnreserved c then String c (encodeURIComponent rest)
      else let n := nat_of_ascii c in
           String "%" (String (hexDigit (n / 16)) (String (hexDigit (n mod 16))
                  (encodeURIComponent rest)))
  end.

(** ** Payloads *)

(** An array of the payload: [None] is a missing (or null) key, a cell
    [None] is a null in the array. *)
Definition column `{Host} : Type := option (list (option num)).

Record QuoteArrays `{Host} : Type := mkQuoteArrays {
  q_open : column; q_high : column; q_low : column; q_close : column;
  q_volume : column
}.
Arguments mkQuoteArrays {_} _ _ _ _ _.

Record YResult `{Host} : Type := mkYResult {
  y_timestamp : column;
  y_indicators_quote : option (option (list QuoteArrays));
      (* indicators missing; indicators.quote missing; the array *)
  y_meta_regularMarketPrice : PriceVal
}.
Arguments mkYResult {_} _ _ _.

Record Chart `{Host} : Type := mkChart {
  chart_error : option string;      (* a truthy error, with its description *)
  chart_result : option (list YResult)
}.
Arguments mkChart {_} _ _.

(** The candle payload of the fallback source. *)
Record FinnhubCandles `{Host} : Type := mkFinnhubCandles {
  f_s : option string;
  f_t : column; f_o : column; f_h : column; f_l : column; f_c : column;
  f_v : column
}.
Arguments mkFinnhubCandles {_} _ _ _ _ _ _ _.

(** What [response.json()] gives. *)
Inductive Body `{Host} : Type :=
| BodyNull                                  (* the JSON value null *)
| BodyYahoo (chart : option Chart)          (* { chart: ... } *)
| BodyCandles (d : FinnhubCandles)          (* { s, t, o, h, l, c, v } *)
| BodyQuote (c : PriceVal).                 (* { c: ... } *)

Record Response `{Host} : Type := mkResponse {
  resp_ok : bool;
  resp_status : Z;
  resp_json : option Body          (* None: the body is not JSON *)
}.
Arguments mkResponse {_} _ _ _.

Inductive FetchOutcome `{Host} : Type :=
| FetchRejected (e : JsError)
| FetchResolved (r : Response).

(** What the network does with one request: when it settles, and how. *)
Record Attempt `{Host} : Type := mkAttempt {
  latency_ms : Z;
  outcome : FetchOutcome
}.
Arguments mkAttempt {_} _ _.

(** ** Events *)

Inductive Level : Type := LLog | LWarn | LError.

Inductive ProviderOp : Type :=
| OpYahooSeries | OpFinnhubSeries | OpYahooQuote | OpFinnhubQuote.

Inductive Event : Type :=
| EvFetch (url : string) (timeout : option Z)   (* fetch(url), abort timer *)
| EvConsole (lvl : Level) (msg : string)
| EvCall (op : ProviderOp).                     (* a provider is entered *)

Definition World `{Host} : Type := list Event -> string -> Attempt.

Definition isFetch (e : Event) : bool :=
  match e with EvFetch _ _ => true | _ => false end.

Definition isCall (op : ProviderOp) (e : Event) : bool :=
  match e, op with
  | EvCall OpYahooSeries, OpYahooSeries
  | EvCall OpFinnhubSeries, OpFinnhubSeries
  | EvCall OpYahooQuote, OpYahooQuote
  | EvCall OpFinnhubQuote, OpFinnhubQuote => true
  | _, _ => false
  end.

Definition fetchedUrls (tr : list Event) : list string :=
  flat_map (fun e => match e with EvFetch u _ => [u] | _ => [] end) tr.

Definition calls (op : ProviderOp) (tr : list Event) : nat :=
  length (filter (isCall op) tr).

(** ** The monad of asynchronous code *)

Definition M (A : Type) : Type := list Event -> Result A * list Event.

Definition ret {A} (a : A) : M A := fun _ => (Ok a, []).
Definition throw {A} (e : JsError) : M A := fun _ => (Throw e, []).
Definition emit (e : Event) : M unit := fun _ => (Ok tt, [e]).

Definition bind {A B} (m : M A) (f : A -> M B) : M B := fun h =>
  match m h with
  | (Ok a, e1) => let (r, e2) := f a (h ++ e1)%list in (r, (e1 ++ e2)%list)
  | (Throw e, e1) => (Throw e, e1)
  end.

(** try { m } catch (error) { handler error } *)
Definition tryCatch {A} (m : M A) (handler : JsError -> M A) : M A := fun h =>
  match m h with
  | (Ok a, e1) => (Ok a, e1)
  | (Throw e, e1) => let (r, e2) := handler e (h ++ e1)%list in (r, (e1 ++ e2)%list)
  end.

Definition lift {A} (r : Result A) : M A := fun _ => (r, []).

Declare Scope js_scope.
Delimit Scope js_scope with js.
Notation "x <- m ;; k" := (bind m (fun x => k))
  (at level 100, m at next level, right associativity) : js_scope.
Notation "m ;;; k" := (bind m (fun _ => k))
  (at level 100, right associativity) : js_scope.
Open Scope js_scope.

Definition console (lvl : Level) (msg : string) : M unit :=
  emit (EvConsole lvl msg).

(** ** services/geminiService.ts *)

(** The credential of the fallback source, as the module declares it. *)
Definition FINNHUB_API_KEY : string :=
  "d4758fhr01qh8nnb7glgd4758fhr01qh8nnb7gm0".

Record Proxy : Type := mkProxy { prefix : string; encode : bool }.

Definition PROXIES : list Proxy :=
  [ mkProxy "https://corsproxy.io/?" false;
    mkProxy "https://cors.eu.org/" false;
    mkProxy "https://thingproxy.freeboard.io/fetch/" false;
    mkProxy "https://api.allorigins.win/raw?url=" true ].

(** setTimeout(() => controller.abort(), 30000) *)
Definition timeoutMs : Z := 30000.

Definition timedOutMessage : string :=
  "Request timed out. The data provider is not responding.".

Record CandlestickData `{Host} : Type := mkCandle {
  c_time : jsval; c_open : jsval; c_high : jsval; c_low : jsval;
  c_close : jsval
}.
Arguments mkCandle {_} _ _ _ _ _.

Record VolumeData `{Host} : Type := mkVolume {
  v_time : jsval; v_value : jsval; v_color : string
}.
Arguments mkVolume {_} _ _ _.

Record ChartData `{Host} : Type := mkChartData {
  candlestickData : list CandlestickData;
  volumeData : list VolumeData
}.
Arguments mkChartData {_} _ _.

Record MarketDataPayload `{Host} : Type := mkPayload {
  csv : string;
  chartData : ChartData
}.
Arguments mkPayload {_} _ _.

Definition header : string := "Date,Open,High,Low,Close,Volume" ++ nl.
Definition green : string := "rgba(40, 167, 69, 0.5)".
Definition red : string := "rgba(220, 53, 69, 0.5)".

Section Service.

Context `{Host}.

(** The network. *)
Variable net : World.

(** The credential in use: the module constant [FINNHUB_API_KEY], a
    parameter here so that the code can be read with and without it. *)
Variable apiKey : string.

(** [fetch(url)]; with an abort timer of [t] milliseconds the promise
    rejects with an AbortError when the network has not settled by then. *)
Definition fetch (url : string) (timeout : option Z) : M Response := fun h =>
  let a := net h url in
  let aborted :=
    match timeout with Some t => (t <=? latency_ms a)%Z | None => false end in
  (if aborted then Throw AbortError
   else match outcome a with
        | FetchRejected e => Throw e
        | FetchResolved r => Ok r
        end,
   [EvFetch url timeout]).

(** [response.json()] *)
Definition json (response : Response) : M Body :=
  match resp_json response with
  | Some data => ret data
  | None => throw (SyntaxError "Unexpected token in JSON")
  end.

(** [data.chart]: a property of null cannot be read. *)
Definition chartOf (data : Body) : Result (option Chart) :=
  match data with
  | BodyNull => Throw (TypeError "Cannot read properties of null")
  | BodyYahoo chart => Ok chart
  | BodyCandles _ | BodyQuote _ => Ok None
  end.

Definition formatPrice (value : PriceVal) : string :=
  let num := match value with PStr s => PNum (parseFloat s) | _ => value end in
  match num with
  | PNum n => if isFinite n then toFixed2 n else "N/A"
  | _ => "N/A"
  end.

Definition price_truthy (p : PriceVal) : bool :=
  match p with
  | PNum n => num_truthy n
  | PStr s => negb (s =? "")
  | PObj => true
  | PNull | PUndef => false
  end.

Definition price_is_zero (p : PriceVal) : bool :=
  match p with PNum n => num_is_zero n | _ => false end.

(** [chart?.error] and [chart?.result] *)
Definition chartError (chart : option Chart) : option string :=
  match chart with Some ch => chart_error ch | None => None end.

Definition chartResult (chart : option Chart) : option (list YResult) :=
  match chart with Some ch => chart_result ch | None => None end.

Definition proxyUrl (proxy : Proxy) (url : string) : string :=
  if encode proxy then prefix proxy ++ encodeURIComponent url
  else prefix proxy ++ url.

(** The body of the try block of one turn of the loop. *)
Definition attemptVia (proxy : Proxy) (url : string) : M Body :=
  let fetchUrl := proxyUrl proxy url in
  response <- fetch fetchUrl (Some timeoutMs) ;;
  if negb (resp_ok response) then
    throw (Error ("Yahoo Finance request via " ++ prefix proxy
                  ++ " failed with status " ++ showZ (resp_status response)))
  else
    data <- json response ;;
    chart <- lift (chartOf data) ;;
    match chartError chart with                       (* data.chart?.error *)
    | Some description =>
        throw (Error ("Yahoo Finance API error: " ++ description))
    | None =>
        match chartResult chart with                  (* data.chart?.result *)
        | None =>
            throw (Error ("Yahoo Finance response via " ++ prefix proxy
                          ++ " was empty or malformed."))
        | Some _ => ret data
        end
    end.

(** The catch block: what [lastError] becomes. *)
Definition recordFailure (error : JsError) : JsError :=
  if err_name error =? "AbortError" then Error timedOutMessage else error.

(** console.warn(`Fetch attempt via ${proxy.prefix} failed:`, error) *)
Definition warnFailed (proxy : Proxy) (error : JsError) : Event :=
  EvConsole LWarn ("Fetch attempt via " ++ prefix proxy ++ " failed: "
                   ++ err_message error).

(** for (const proxy of PROXIES) { try { ... return data } catch { ... } } *)
Fixpoint relayLoop (proxies : list Proxy) (url : string)
    (lastError : option JsError) : M Body :=
  match proxies with
  | [] =>
      throw (match lastError with
             | Some e => e
             | None => Error "All Yahoo Finance fetch attempts failed."
             end)
  | proxy :: rest =>
      tryCatch (attemptVia proxy url)
        (fun error =>
           emit (warnFailed proxy error) ;;;
           relayLoop rest url (Some (recordFailure error)))
  end.

Definition yahooFinanceFetch (url : string) : M Body :=
  relayLoop PROXIES url None.

(** *** The fallback source *)

Definition mappings : list (string * string) :=
  [ ("^GSPC", "SPY"); ("^DJI", "DIA"); ("^NDX", "QQQ"); ("^FTSE", "EWU");
    ("^GDAXI", "EWG"); ("^N225", "EWJ"); ("^HSI", "EWH"); ("^NSEI", "INDA");
    ("GC=F", "GLD"); ("SI=F", "SLV"); ("CL=F", "USO"); ("NG=F", "UNG");
    ("HG=F", "CPER") ].

Fixpoint lookup (k : string) (table : list (string * string)) : option string :=
  match table with
  | [] => None
  | (k', v) :: rest => if k =? k' then Some v else lookup k rest
  end.

(** [mappings[symbol]] reads the keys that the object literal declares and,
    for any other name, what the literal inherits from Object.prototype
    ('constructor', 'toString', '__proto__', ...): a function or an object,
    which is truthy and is returned.  The callers write the result into
    template literals only; an inherited value is given here by the text it
    has there. *)
Definition mapSymbolForFinnhub (symbol : string) : string :=
  match lookup symbol mappings with
  | Some mapped => if negb (mapped =? "") then mapped else symbol
  | None =>
      match inherited symbol with
      | Some text => text
      | None => symbol
      end
  end.

(** Synchronous code that may throw. *)
Definition andThen {A B} (r : Result A) (f : A -> Result B) : Result B :=
  match r with Ok a => f a | Throw e => Throw e end.

Notation "x <~ r ;; k" := (andThen r (fun x => k))
  (at level 100, r at next level, right associativity).

Definition cellVal (c : option num) : jsval :=
  match c with Some n => VNum n | None => VNull end.

(** [arr[i]] *)
Definition index (arr : column) (i : nat) : Result jsval :=
  match arr with
  | None => Throw (TypeError "Cannot read properties of undefined")
  | Some l =>
      Ok (match nth_error l i with Some c => cellVal c | None => VUndef end)
  end.

Definition isNull (v : jsval) : bool :=
  match v with VNull => true | _ => false end.

(** [v ?? d] *)
Definition orElse {A} (v : jsval) (some : num -> A) (d : A) : A :=
  match v with VNum n => some n | VNull | VUndef => d end.

(** ToNumber; [None] is NaN. *)
Definition toNumber (v : jsval) : option num :=
  match v with VNum n => Some n | VNull => Some num_zero | VUndef => None end.

(** [a >= b] *)
Definition js_ge (a b : jsval) : bool :=
  match toNumber a, toNumber b with
  | Some x, Some y => num_ge x y
  | _, _ => false
  end.

(** [x.toFixed(2)] *)
Definition toFixed (v : jsval) : Result string :=
  match v with
  | VNum n => Ok (toFixed2 n)
  | VNull => Throw (TypeError "Cannot read properties of null")
  | VUndef => Throw (TypeError "Cannot read properties of undefined")
  end.

(** [new Date(ts * 1000).toISOString().split('T')[0]] *)
Definition dateOf (ts : jsval) : Result string :=
  match toNumber ts with
  | Some n =>
      match isoDate n with
      | Some d => Ok d
      | None => Throw (RangeError "Invalid time value")
      end
  | None => Throw (RangeError "Invalid time value")
  end.

(** The two arrays the callbacks push to. *)
Definition Acc : Type := (list CandlestickData * list VolumeData)%type.

Definition push (acc : Acc) (c : CandlestickData) (v : VolumeData) : Acc :=
  ((fst acc ++ [c])%list, (snd acc ++ [v])%list).

(** [arr.map((ts, i) => ...)] for a callback that pushes to the two arrays. *)
Fixpoint mapRows {A} (f : Acc -> jsval -> nat -> Result (A * Acc))
    (l : list (option num)) (i : nat) (acc : Acc) : Result (list A * Acc) :=
  match l with
  | [] => Ok ([], acc)
  | ts :: rest =>
      r <~ f acc (cellVal ts) i ;;
      rs <~ mapRows f rest (S i) (snd r) ;;
      Ok (fst r :: fst rs, snd rs)
  end.

Definition colour (c o : jsval) : string :=
  if js_ge c o then green else red.

Definition finnhubRow (d : FinnhubCandles) (acc : Acc) (ts : jsval) (i : nat)
    : Result (string * Acc) :=
  date <~ dateOf ts ;;
  oi <~ index (f_o d) i ;;
  hi <~ index (f_h d) i ;;
  li <~ index (f_l d) i ;;
  ci <~ index (f_c d) i ;;
  vi <~ index (f_v d) i ;;
  let acc' :=
    push acc (mkCandle ts oi hi li ci)
      (mkVolume ts (orElse vi VNum (VNum num_zero)) (colour ci oi)) in
  o <~ toFixed oi ;;
  h <~ toFixed hi ;;
  l <~ toFixed li ;;
  c <~ toFixed ci ;;
  Ok (date ++ "," ++ o ++ "," ++ h ++ "," ++ l ++ "," ++ c ++ ","
      ++ orElse vi numToString "0", acc').

(** [data.s], [data.t], ...: a property of null cannot be read. *)
Definition candlesOf (data : Body) : Result FinnhubCandles :=
  match data with
  | BodyNull => Throw (TypeError "Cannot read properties of null")
  | BodyCandles d => Ok d
  | BodyYahoo _ | BodyQuote _ =>
      Ok (mkFinnhubCandles None None None None None None None)
  end.

(** switch (timeframe): the resolution and the start of the span. *)
Definition finnhubSpan (timeframe : string) : string * Z :=
  if timeframe =? "Intraday" then ("15", (minusDays clock_now 5 / 1000)%Z)
  else if timeframe =? "Weekly" then ("W", (minusYears clock_now 5 / 1000)%Z)
  else if timeframe =? "Monthly" then ("M", (minusYears clock_now 20 / 1000)%Z)
  else ("D", (minusYears clock_now 2 / 1000)%Z).

Definition noData (d : FinnhubCandles) : bool :=
  match f_s d with Some s => s =? "no_data" | None => false end
  || match f_t d with
     | None => true
     | Some t => (length t =? 0)%nat
     end.

Definition candleUrl (finnhubSymbol timeframe : string) : string :=
  let to := (clock_now / 1000)%Z in
  let resolution := fst (finnhubSpan timeframe) in
  let from := snd (finnhubSpan timeframe) in
  "https://finnhub.io/api/v1/stock/candle?symbol=" ++ finnhubSymbol
  ++ "&resolution=" ++ resolution ++ "&from=" ++ showZ from
  ++ "&to=" ++ showZ to ++ "&token=" ++ apiKey.

(** What [fetchMarketDataFromFinnhub] does with the payload it received. *)
Definition finnhubSeries (finnhubSymbol : string) (data : Body)
    : Result MarketDataPayload :=
  d <~ candlesOf data ;;
  if noData d then
    Throw (Error ("Could not find time series data for '" ++ finnhubSymbol
                  ++ "' in Finnhub response."))
  else
    let t := match f_t d with Some t => t | None => [] end in
    rows <~ mapRows (finnhubRow d) t 0 ([], []) ;;
    let csvRows := fst rows in
    Ok (mkPayload (header ++ join nl csvRows)
                  (mkChartData (fst (snd rows)) (snd (snd rows)))).

Definition unsupportedMessage : string :=
  "Primary data source failed for Indian stock; Finnhub fallback is not supported for this asset on the current plan.".

Definition fetchMarketDataFromFinnhub (symbol timeframe : string)
    : M MarketDataPayload :=
  emit (EvCall OpFinnhubSeries) ;;;
  if apiKey =? "" then
    throw (Error "FINNHUB_API_KEY environment variable not set. Cannot use Finnhub as a fallback.")
  else if endsWith symbol ".NS" then
    throw (Error unsupportedMessage)
  else
    let finnhubSymbol := mapSymbolForFinnhub symbol in
    let url := candleUrl finnhubSymbol timeframe in
    response <- fetch url None ;;
    if negb (resp_ok response) then
      throw (Error ("Finnhub request for " ++ finnhubSymbol
                    ++ " failed with status " ++ showZ (resp_status response)))
    else
      data <- json response ;;
      lift (finnhubSeries finnhubSymbol data).

(** [data?.c] *)
Definition quotePriceOf (data : Body) : PriceVal :=
  match data with
  | BodyQuote c => c
  | BodyCandles d => match f_c d with Some _ => PObj | None => PUndef end
  | BodyNull | BodyYahoo _ => PUndef
  end.

Definition quoteUrl (finnhubSymbol : string) : string :=
  "https://finnhub.io/api/v1/quote?symbol=" ++ finnhubSymbol
  ++ "&token=" ++ apiKey.

Definition fetchLivePriceFromFinnhub (symbol : string) : M (option string) :=
  emit (EvCall OpFinnhubQuote) ;;;
  if apiKey =? "" then
    console LWarn "FINNHUB_API_KEY not set, cannot fetch live price from Finnhub." ;;;
    ret None
  else if endsWith symbol ".NS" then
    ret None
  else
    let finnhubSymbol := mapSymbolForFinnhub symbol in
    let url := quoteUrl finnhubSymbol in
    response <- fetch url None ;;
    if negb (resp_ok response) then
      throw (Error ("Finnhub quote request failed with status "
                    ++ showZ (resp_status response)))
    else
      data <- json response ;;
      let price := quotePriceOf data in
      if negb (price_truthy price) || price_is_zero price then
        throw (Error ("No live price found for " ++ symbol
                      ++ " in Finnhub response."))
      else ret (Some (formatPrice price)).

(** *** The primary source and the orchestrators *)

Definition chartUrl (symbol range interval : string) : string :=
  "https://query1.finance.yahoo.com/v8/finance/chart/"
  ++ encodeURIComponent symbol ++ "?range=" ++ range ++ "&interval=" ++ interval.

(** [data?.chart?.result?.[0]] *)
Definition firstResult (data : Body) : option YResult :=
  match data with
  | BodyYahoo chart =>
      match chartResult chart with
      | Some (result :: _) => Some result
      | _ => None
      end
  | _ => None
  end.

Definition fetchLivePriceFromYahoo (symbol : string) : M (option string) :=
  emit (EvCall OpYahooQuote) ;;;
  let url := chartUrl symbol "1d" "1m" in
  data <- yahooFinanceFetch url ;;
  let price :=
    match firstResult data with
    | Some result => y_meta_regularMarketPrice result
    | None => PUndef
    end in
  if negb (price_truthy price) then
    throw (Error ("No live price found for " ++ symbol
                  ++ " in Yahoo Finance response."))
  else ret (Some (formatPrice price)).

Definition warnLiveYahoo (symbol : string) (yahooError : JsError) : Event :=
  EvConsole LWarn ("Failed to fetch live price for " ++ symbol
                   ++ " from Yahoo Finance. Falling back to Finnhub. "
                   ++ err_message yahooError).

Definition errorLiveFinnhub (symbol : string) (finnhubError : JsError) : Event :=
  EvConsole LError ("Failed to fetch live price for " ++ symbol
                    ++ " from Finnhub as well. " ++ err_message finnhubError).

Definition fetchLivePrice (symbol : string) : M (option string) :=
  if symbol =? "" then ret None
  else
    tryCatch (fetchLivePriceFromYahoo symbol)
      (fun yahooError =>
         emit (warnLiveYahoo symbol yahooError) ;;;
         tryCatch (fetchLivePriceFromFinnhub symbol)
           (fun finnhubError =>
              emit (errorLiveFinnhub symbol finnhubError) ;;;
              ret None)).

(** switch (timeframe): the range and the interval. *)
Definition yahooSpan (timeframe : string) : string * string :=
  if timeframe =? "Intraday" then ("5d", "15m")
  else if timeframe =? "Weekly" then ("5y", "1wk")
  else if timeframe =? "Monthly" then ("max", "1mo")
  else ("2y", "1d").

Definition noSeriesMessage : string :=
  "Could not find time series data in Yahoo Finance response.".

(** [result.indicators.quote[0]]: each step throws on undefined. *)
Definition firstQuote (result : YResult) : Result QuoteArrays :=
  match y_indicators_quote result with
  | None | Some None => Throw (TypeError "Cannot read properties of undefined")
  | Some (Some []) => Throw (TypeError "Cannot read properties of undefined")
  | Some (Some (q :: _)) => Ok q
  end.

(** The callback of [timestamp.map]: null for a row that is skipped. *)
Definition yahooRow (q : QuoteArrays) (acc : Acc) (ts : jsval) (i : nat)
    : Result (option string * Acc) :=
  if isNull ts then Ok (None, acc) else
  oi <~ index (q_open q) i ;;
  if isNull oi then Ok (None, acc) else
  hi <~ index (q_high q) i ;;
  if isNull hi then Ok (None, acc) else
  li <~ index (q_low q) i ;;
  if isNull li then Ok (None, acc) else
  ci <~ index (q_close q) i ;;
  if isNull ci then Ok (None, acc) else
  vi <~ index (q_volume q) i ;;
  let acc' :=
    push acc (mkCandle ts oi hi li ci)
      (mkVolume ts (orElse vi VNum (VNum num_zero)) (colour ci oi)) in
  date <~ dateOf ts ;;
  o <~ toFixed oi ;;
  h <~ toFixed hi ;;
  l <~ toFixed li ;;
  c <~ toFixed ci ;;
  let v := orElse vi numToString "0" in
  Ok (Some (date ++ "," ++ o ++ "," ++ h ++ "," ++ l ++ "," ++ c ++ "," ++ v),
      acc').

(** [rows.filter(Boolean)]: null and the empty string are falsy. *)
Fixpoint filterBoolean (rows : list (option string)) : list string :=
  match rows with
  | [] => []
  | Some s :: rest =>
      if s =? "" then filterBoolean rest else s :: filterBoolean rest
  | None :: rest => filterBoolean rest
  end.

(** What [fetchMarketDataFromYahoo] does with the payload of the relay. *)
Definition yahooSeries (data : Body) : Result MarketDataPayload :=
  match firstResult data with
  | None => Throw (Error noSeriesMessage)
  | Some result =>
      match y_timestamp result with
      | None => Throw (Error noSeriesMessage)
      | Some timestamp =>
          q <~ firstQuote result ;;
          match q_open q with
          | None => Throw (Error noSeriesMessage)
          | Some _ =>
              rows <~ mapRows (yahooRow q) timestamp 0 ([], []) ;;
              let csvRows := filterBoolean (fst rows) in
              Ok (mkPayload (header ++ join nl csvRows)
                            (mkChartData (fst (snd rows)) (snd (snd rows))))
          end
      end
  end.

Definition fetchMarketDataFromYahoo (symbol timeframe : string)
    : M MarketDataPayload :=
  emit (EvCall OpYahooSeries) ;;;
  let range := fst (yahooSpan timeframe) in
  let interval := snd (yahooSpan timeframe) in
  let url := chartUrl symbol range interval in
  data <- yahooFinanceFetch url ;;
  lift (yahooSeries data).

Definition unavailableMessage (symbol : string) : string :=
  "Failed to fetch market data for '" ++ symbol
  ++ "'. The symbol may be invalid or not supported by the data provider.".

Definition allFailedMessage (symbol : string) : string :=
  "Failed to fetch market data for '" ++ symbol
  ++ "' from all providers. The symbol may be invalid or providers are down.".

Definition logAttempt (symbol : string) : Event :=
  EvConsole LLog ("Attempting to fetch market data for '" ++ symbol
                  ++ "' from Yahoo Finance...").

Definition warnYahoo (symbol : string) (yahooError : JsError) : Event :=
  EvConsole LWarn ("Failed to fetch market data for '" ++ symbol
                   ++ "' from Yahoo Finance. " ++ err_message yahooError).

Definition errorNoKey : Event :=
  EvConsole LError "FINNHUB_API_KEY not set. Cannot fallback to Finnhub.".

Definition logFallback (symbol : string) : Event :=
  EvConsole LLog ("Falling back to Finnhub for '" ++ symbol ++ "'...").

Definition errorFinnhub (symbol : string) (finnhubError : JsError) : Event :=
  EvConsole LError ("Failed to fetch market data for '" ++ symbol
                    ++ "' from Finnhub as well. " ++ err_message finnhubError).

Definition fetchMarketData (symbol timeframe : string) : M MarketDataPayload :=
  tryCatch
    (emit (logAttempt symbol) ;;;
     fetchMarketDataFromYahoo symbol timeframe)
    (fun yahooError =>
       emit (warnYahoo symbol yahooError) ;;;
       if apiKey =? "" then
         emit errorNoKey ;;;
         throw (Error (unavailableMessage symbol))
       else
         emit (logFallback symbol) ;;;
         tryCatch (fetchMarketDataFromFinnhub symbol timeframe)
           (fun finnhubError =>
              emit (errorFinnhub symbol finnhubError) ;;;
              throw (Error (allFailedMessage symbol)))).

End Service.

(** ** services/geminiService.ts: the relative strength of an asset *)

Record Benchmark : Type := mkBenchmark { bench_symbol : string; bench_name : string }.

Definition getBenchmarkForSymbol (symbol : string) : Benchmark :=
  if endsWith symbol ".NS" then mkBenchmark "^NSEI" "NIFTY 50"
  else mkBenchmark "^GSPC" "S&P 500".

(** The arithmetic of the host's numbers. *)
Class Arith `{Host} : Type := {
  num_sub : num -> num -> num;      (* x - y *)
  num_div : num -> num -> num;      (* x / y *)
  num_mul : num -> num -> num;      (* x * y *)
  num_hundred : num                 (* the number 100 *)
}.

Section Performance.

Context `{Arith}.

(** [close.filter(p => p !== null && isFinite(p))] *)
Definition finiteCloses (close : list (option num)) : list num :=
  flat_map (fun p => match p with
                     | Some n => if isFinite n then [n] else []
                     | None => []
                     end) close.

(** `${performance >= 0 ? '+' : ''}${performance.toFixed(2)}%` *)
Definition performanceText (firstClose lastClose : num) : string :=
  let performance :=
    num_mul (num_div (num_sub lastClose firstClose) firstClose) num_hundred in
  (if num_ge performance num_zero then "+" else "")
  ++ toFixed2 performance ++ "%".

(** What [calculate3MonthPerformance] does with the array of closes. *)
Definition performanceOf (close : list (option num)) : option string :=
  let closePrices := finiteCloses close in
  if (length closePrices <? 2)%nat then None
  else
    let firstClose := hd num_zero closePrices in
    let lastClose := last closePrices num_zero in
    Some (performanceText firstClose lastClose).

Definition calculate3MonthPerformance (data : Body) : Result (option string) :=
  match firstResult data with
  | None => Ok None
  | Some result =>
      andThen (firstQuote result) (fun q =>
        match q_close q with
        | None => Ok None
        | Some close => Ok (performanceOf close)
        end)
  end.

End Performance.

(** ** App.tsx: the live price poller *)

(** The two refs and the two pieces of React state of the poller, with what
    the host holds for it: the intervals registered and not cleared, and the
    tick callbacks suspended at [await fetchLivePrice].  The last two fields
    count, for the statements below, the calls of [fetchLivePrice] and of
    [setIsPollingHalted(true)]. *)
Record App : Type := mkApp {
  priceUpdateInterval : option nat;
  pollingFailureCount : nat;
  livePrice : option string;
  isPollingHalted : bool;
  timers : list nat;
  inFlight : nat;
  fetches : nat;
  haltedEmitted : nat
}.

(** The component as mounted. *)
Definition mounted : App := mkApp None 0 None false [] 0 0 0.

Definition clearInterval (id : nat) (ts : list nat) : list nat :=
  filter (fun t => negb (t =? id)%nat) ts.

(** A timer id is truthy unless it is 0. *)
Definition currentInterval (a : App) : option nat :=
  match priceUpdateInterval a with
  | Some id => if (id =? 0)%nat then None else Some id
  | None => None
  end.

Definition stopPolling (halted : bool) (a : App) : App :=
  match currentInterval a with
  | Some id =>
      mkApp None 0 (livePrice a)
            (if halted then true else isPollingHalted a)
            (clearInterval id (timers a)) (inFlight a) (fetches a)
            (if halted then S (haltedEmitted a) else haltedEmitted a)
  | None => a
  end.

(** The callback of setInterval up to its await: the quote is requested. *)
Definition tick (a : App) : App :=
  mkApp (priceUpdateInterval a) (pollingFailureCount a) (livePrice a)
        (isPollingHalted a) (timers a) (S (inFlight a)) (S (fetches a))
        (haltedEmitted a).

(** The callback after its await, with what [fetchLivePrice] gave. *)
Definition resume (newPrice : option string) (a : App) : App :=
  let truthy := match newPrice with Some p => negb (p =? "") | None => false end in
  if truthy then
    mkApp (priceUpdateInterval a) 0 newPrice (isPollingHalted a) (timers a)
          (inFlight a) (fetches a) (haltedEmitted a)
  else
    let a' := mkApp (priceUpdateInterval a) (S (pollingFailureCount a))
                    (livePrice a) (isPollingHalted a) (timers a) (inFlight a)
                    (fetches a) (haltedEmitted a) in
    if (5 <=? pollingFailureCount a')%nat then stopPolling true a' else a'.

(** What the host can do between two runs of the component's code. *)
Inductive Occurrence : Type :=
| RequestStart                               (* handleAnalysisRequest is called *)
| RequestDone (assetSymbol : option string) (id : nat)
      (* getTechnicalAnalysis has settled; the symbol of the report, if it
         gave one, and the id that setInterval returns *)
| TimerFired (id : nat)                      (* the interval [id] elapses *)
| QuoteSettled (r : Result (option string)). (* a pending fetchLivePrice settles *)

Definition step (o : Occurrence) (a : App) : App :=
  match o with
  | RequestStart =>
      (* setLivePrice(null); setIsPollingHalted(false); stopPolling() *)
      stopPolling false
        (mkApp (priceUpdateInterval a) (pollingFailureCount a) None false
               (timers a) (inFlight a) (fetches a) 0)
  | RequestDone (Some sym) id =>
      if sym =? "" then a
      else mkApp (Some id) (pollingFailureCount a) (livePrice a)
                 (isPollingHalted a) (id :: timers a) (inFlight a) (fetches a)
                 (haltedEmitted a)
  | RequestDone None _ => a
  | TimerFired id =>
      if existsb (Nat.eqb id) (timers a) then tick a else a
  | QuoteSettled r =>
      match inFlight a with
      | O => a
      | S n =>
          let a' := mkApp (priceUpdateInterval a) (pollingFailureCount a)
                          (livePrice a) (isPollingHalted a) (timers a) n
                          (fetches a) (haltedEmitted a) in
          match r with
          | Ok newPrice => resume newPrice a'
          | Throw _ => a'                  (* the callback's promise rejects *)
          end
      end
  end.

Definition run (os : list Occurrence) (a : App) : App :=
  fold_left (fun a o => step o a) os a.

(** A session as the first request starts it on the mounted component. *)
Definition started : App :=
  run [RequestStart; RequestDone (Some "ABC") 1] mounted.

(** One tick of the interval [id] whose quote, fetched from the network,
    settles before anything else happens. *)
Definition pollWith `{Host} (net : World) (apiKey assetSymbol : string)
    (id : nat) (st : App * list Event) : App * list Event :=
  let r := fetchLivePrice net apiKey assetSymbol (snd st) in
  (run [TimerFired id; QuoteSettled (fst r)] (fst st), (snd st ++ snd r)%list).

(** ** App.tsx: what the page shows *)
Module Page.

Section Page.

(** The report and the chart data that [getTechnicalAnalysis] resolves to. *)
Variables Report Chart : Type.

(** The pieces of React state that decide what is rendered. *)
Record State : Type := mkState {
  analysisReport : option Report;
  chartData : option Chart;
  isLoading : bool;
  error : option string
}.

Definition initial : State := mkState None None false None.

(** How [await getTechnicalAnalysis(...)] settles: with a report and chart
    data (or null), or by throwing; [message] is [err.message] when what is
    thrown is an Error. *)
Inductive Outcome : Type :=
| Analysed (report : Report) (newChartData : option Chart)
| Thrown (message : option string).

Inductive Occurrence : Type :=
| Requested                       (* handleAnalysisRequest is called *)
| Settled (o : Outcome).          (* its await settles *)

Definition step (o : Occurrence) (s : State) : State :=
  match o with
  | Requested => mkState None None true None
  | Settled (Analysed report newChartData) =>
      mkState (Some report) newChartData false (error s)
  | Settled (Thrown message) =>
      mkState (analysisReport s) (chartData s) false
        (Some (match message with
               | Some m => m
               | None => "An unexpected error occurred. Please try again."
               end))
  end.

Definition run (os : list Occurrence) (s : State) : State :=
  fold_left (fun s o => step o s) os s.

Inductive View : Type := Loader | ErrorMessage | AnalysisDisplay | Intro.

Definition truthy (message : option string) : bool :=
  match message with Some m => negb (m =? "") | None => false end.

Definition present {A} (o : option A) : bool :=
  match o with Some _ => true | None => false end.

(** The children of the main area, in the order of the JSX. *)
Definition render (s : State) : list View :=
  ((if isLoading s then [Loader] else [])
   ++ (if truthy (error s) then [ErrorMessage] else [])
   ++ (if present (analysisReport s) then [AnalysisDisplay] else [])
   ++ (if negb (isLoading s) && negb (truthy (error s))
          && negb (present (analysisReport s))
       then [Intro] else []))%list.

End Page.

Arguments mkState {_ _} _ _ _ _.
Arguments analysisReport {_ _} _.
Arguments chartData {_ _} _.
Arguments isLoading {_ _} _.
Arguments error {_ _} _.
Arguments initial {_ _}.
Arguments Analysed {_ _} _ _.
Arguments Thrown {_ _} _.
Arguments Requested {_ _}.
Arguments Settled {_ _} _.
Arguments step {_ _} _ _.
Arguments run {_ _} _ _.
Arguments render {_ _} _.

End Page.

(** ** A host for the examples

    Integers as numbers (and NaN), the proleptic Gregorian calendar for the
    dates, a fixed clock. *)
Module IntegerHost.

Inductive intNum : Type := Int (z : Z) | NaN.

Definition pad (width : nat) (z : Z) : string :=
  let s := showZ z in
  let fix zeros (n : nat) : string :=
    match n with O => "" | S n' => "0" ++ zeros n' end in
  zeros (width - String.length s) ++ s.

(** The civil date of a day counted from 1970-01-01. *)
Definition civilFromDays (days : Z) : string :=
  let z := (days + 719468)%Z in
  let era := (z / 146097)%Z in
  let doe := (z - era * 146097)%Z in
  let yoe := ((doe - doe / 1460 + doe / 36524 - doe / 146096) / 365)%Z in
  let doy := (doe - (365 * yoe + yoe / 4 - yoe / 100))%Z in
  let mp := ((5 * doy + 2) / 153)%Z in
  let d := (doy - (153 * mp + 2) / 5 + 1)%Z in
  let m := (if mp <? 10 then mp + 3 else mp - 9)%Z in
  let y := (yoe + era * 400 + (if m <=? 2 then 1 else 0))%Z in
  let year :=
    if ((0 <=? y) && (y <=? 9999))%Z then pad 4 y
    else (if (y <? 0)%Z then "-" else "+") ++ pad 6 (Z.abs y) in
  year ++ "-" ++ pad 2 m ++ "-" ++ pad 2 d.

Definition isoDateInt (ts : intNum) : option string :=
  match ts with
  | Int z =>
      if (Z.abs (z * 1000) <=? 8640000000000000)%Z
      then Some (civilFromDays (z / 86400)) else None
  | NaN => None
  end.

Definition isDigit (c : ascii) : bool :=
  ((48 <=? nat_of_ascii c) && (nat_of_ascii c <=? 57))%nat.

Fixpoint digits (s : string) (seen : option Z) : option Z :=
  match s with
  | String c rest =>
      if isDigit c then
        digits rest
          (Some (10 * match seen with Some z => z | None => 0 end
                 + Z.of_nat (nat_of_ascii c - 48))%Z)
      else seen
  | EmptyString => seen
  end.

Definition parseInt (s : string) : intNum :=
  match s with
  | String "-" rest =>
      match digits rest None with Some z => Int (- z) | None => NaN end
  | _ => match digits s None with Some z => Int z | None => NaN end
  end.

(** The properties of Object.prototype, with the text of each value. *)
Definition native (name : string) : string :=
  "function " ++ name ++ "() { [native code] }".

Definition objectPrototype : list (string * string) :=
  [ ("constructor", native "Object");
    ("hasOwnProperty", native "hasOwnProperty");
    ("isPrototypeOf", native "isPrototypeOf");
    ("propertyIsEnumerable", native "propertyIsEnumerable");
    ("toLocaleString", native "toLocaleString");
    ("toString", native "toString");
    ("valueOf", native "valueOf");
    ("__defineGetter__", native "__defineGetter__");
    ("__defineSetter__", native "__defineSetter__");
    ("__lookupGetter__", native "__lookupGetter__");
    ("__lookupSetter__", native "__lookupSetter__");
    ("__proto__", "[object Object]") ].

#[export] Instance host : Host := {|
  num := intNum;
  num_zero := Int 0;
  toFixed2 := fun n => match n with Int z => showZ z ++ ".00" | NaN => "NaN" end;
  numToString := fun n => match n with Int z => showZ z | NaN => "NaN" end;
  num_ge := fun a b =>
    match a, b with Int x, Int y => (y <=? x)%Z | _, _ => false end;
  num_truthy := fun n => match n with Int z => negb (z =? 0)%Z | NaN => false end;
  num_is_zero := fun n => match n with Int z => (z =? 0)%Z | NaN => false end;
  isFinite := fun n => match n with Int _ => true | NaN => false end;
  parseFloat := parseInt;
  isoDate := isoDateInt;
  clock_now := 1700000000000;
  minusDays := fun now n => (now - n * 86400000)%Z;
  minusYears := fun now n => (now - n * 31556952000)%Z;
  inherited := fun name => lookup name objectPrototype
|}.

Definition cells (l : list Z) : list (option num) := map (fun z => Some (Int z)) l.

(** [x < y] *)
Definition lt (x y : intNum) : Prop :=
  match x, y with Int a, Int b => (a < b)%Z | _, _ => False end.

End IntegerHost.

(** ** Networks for the examples *)
Module Examples.

Import IntegerHost.

Definition answer (data : Body) : Response := mkResponse true 200 (Some data).

Definition respond (latency : Z) (data : Body) : Attempt :=
  mkAttempt latency (FetchResolved (answer data)).

Definition unreachable : Attempt :=
  mkAttempt 120 (FetchRejected (TypeError "Failed to fetch")).

(** Four daily bars; the third has a null close, the second a null volume. *)
Definition fourBars : YResult :=
  mkYResult
    (Some (cells [1704153600; 1704240000; 1704326400; 1704412800]%Z))
    (Some (Some [mkQuoteArrays
                   (Some (cells [10; 11; 12; 13]%Z))
                   (Some (cells [15; 16; 17; 18]%Z))
                   (Some (cells [9; 10; 11; 12]%Z))
                   (Some [Some (Int 12); Some (Int 10); None; Some (Int 14)])
                   (Some [Some (Int 100); None; Some (Int 300); Some (Int 400)])]))
    (PNum (Int 14)).

Definition yahooBody : Body := BodyYahoo (Some (mkChart None (Some [fourBars]))).

(** Two bars of the fallback source, and two with a null close. *)
Definition twoBars : FinnhubCandles :=
  mkFinnhubCandles (Some "ok")
    (Some (cells [1704153600; 1704240000]%Z))
    (Some (cells [10; 11]%Z)) (Some (cells [15; 16]%Z))
    (Some (cells [9; 10]%Z)) (Some (cells [12; 10]%Z))
    (Some [Some (Int 100); None]).

Definition twoBarsNullClose : FinnhubCandles :=
  mkFinnhubCandles (Some "ok")
    (Some (cells [1704153600; 1704240000]%Z))
    (Some (cells [10; 11]%Z)) (Some (cells [15; 16]%Z))
    (Some (cells [9; 10]%Z)) (Some [Some (Int 12); None])
    (Some (cells [100; 200]%Z)).

Definition isFinnhub (url : string) : bool :=
  String.prefix "https://finnhub.io/" url.

(** Nothing answers. *)
Definition downWorld : World := fun _ _ => unreachable.

(** The primary source answers through the first proxy. *)
Definition goodWorld : World := fun _ _ => respond 200 yahooBody.

(** Every proxy lets the timer run out; the fallback source answers. *)
Definition slowWorld : World := fun _ url =>
  if isFinnhub url then respond 300 (BodyCandles twoBars)
  else respond 45000 yahooBody.

(** As [slowWorld], with a null close in the fallback's payload. *)
Definition slowWorldNullClose : World := fun _ url =>
  if isFinnhub url then respond 300 (BodyCandles twoBarsNullClose)
  else respond 45000 yahooBody.

(** The first two proxies fail, the third answers. *)
Definition thirdProxyWorld : World := fun _ url =>
  if String.prefix "https://thingproxy.freeboard.io/" url
  then respond 200 yahooBody
  else mkAttempt 80 (FetchResolved (mkResponse false 502 None)).

End Examples.

(** ** Networks for the edge cases *)
Module EdgeCases.

Import IntegerHost.
Import Examples.

(** A chart whose timestamp array is empty, with an open column only. *)
Definition emptyChart : YResult :=
  mkYResult (Some [])
    (Some (Some [mkQuoteArrays (Some []) None None None None]))
    PUndef.

Definition emptyBody : Body := BodyYahoo (Some (mkChart None (Some [emptyChart]))).

(** The primary source answers with the empty chart. *)
Definition emptyWorld : World := fun _ _ => respond 200 emptyBody.

(** The status sentinel of the fallback source, beside two full bars. *)
Definition noDataBars : FinnhubCandles :=
  mkFinnhubCandles (Some "no_data")
    (Some (cells [1704153600; 1704240000]%Z))
    (Some (cells [10; 11]%Z)) (Some (cells [15; 16]%Z))
    (Some (cells [9; 10]%Z)) (Some (cells [12; 10]%Z))
    (Some (cells [100; 200]%Z)).

(** Every proxy lets the timer run out; the fallback source has no data. *)
Definition noDataWorld : World := fun _ url =>
  if isFinnhub url then respond 300 (BodyCandles noDataBars)
  else respond 45000 yahooBody.

(** One bar, with its four prices and its volume, whose timestamp is past
    the range of Date. *)
Definition lateBar : YResult :=
  mkYResult
    (Some (cells [9000000000000]%Z))
    (Some (Some [mkQuoteArrays
                   (Some (cells [10]%Z)) (Some (cells [15]%Z))
                   (Some (cells [9]%Z)) (Some (cells [12]%Z))
                   (Some (cells [100]%Z))]))
    (PNum (Int 12)).

Definition lateWorld : World := fun _ _ =>
  respond 200 (BodyYahoo (Some (mkChart None (Some [lateBar])))).

(** The primary source sends a price that is no number. *)
Definition garbledPrice : YResult := mkYResult None None (PStr "n/a").

Definition garbledWorld : World := fun _ _ =>
  respond 200 (BodyYahoo (Some (mkChart None (Some [garbledPrice])))).

End EdgeCases.

(** ** The arithmetic of the integer host

    Integers are closed under difference and product.  A quotient is a
    number of this host only when it is an integer: any other quotient, and
    a division by zero, is NaN here. *)
Module IntegerArith.

Import IntegerHost.

Definition lift2 (f : Z -> Z -> intNum) (x y : intNum) : intNum :=
  match x, y with Int a, Int b => f a b | _, _ => NaN end.

Definition exactQuotient (a b : Z) : intNum :=
  if (b =? 0)%Z then NaN
  else if (a mod b =? 0)%Z then Int (a / b) else NaN.

#[export] Instance arith : Arith := {|
  num_sub := lift2 (fun a b => Int (a - b));
  num_div := lift2 exactQuotient;
  num_mul := lift2 (fun a b => Int (a * b));
  num_hundred := Int 100
|}.

(** Closes with gaps: nulls at both ends and inside, and a NaN. *)
Definition gappyCloses : YResult :=
  mkYResult None
    (Some (Some [mkQuoteArrays None None None
                   (Some [None; Some (Int 50); None; Some (Int 75); Some NaN;
                          Some (Int 100); None])
                   None]))
    PUndef.

Definition gappyBody : Body := BodyYahoo (Some (mkChart None (Some [gappyCloses]))).

End IntegerArith.

(** * The vocabulary of the statements *)

Open Scope list_scope.

Section Vocabulary.

Context `{Host}.

(** ** The relay *)

Section RelayVocabulary.

Variable net : World.

(** The payload that ends the loop: the response came before the abort timer,
    with a 2xx status, a JSON body, no error field and a result envelope. *)
Definition validPayload (a : Attempt) (data : Body) : Prop :=
  (latency_ms a < timeoutMs)%Z /\
  exists r chart,
    outcome a = FetchResolved r /\ resp_ok r = true /\
    resp_json r = Some data /\ chartOf data = Ok chart /\
    chartError chart = None /\ chartResult chart <> None.

(** The request of one attempt. *)
Definition request (p : Proxy) (url : string) : Event :=
  EvFetch (proxyUrl p url) (Some timeoutMs).

(** The network gave no valid payload for the request. *)
Definition noValidPayload (a : Attempt) : Prop :=
  forall data, ~ validPayload a data.

(** [FailedAttempts url h ps evs last]: from the history [h], the attempts
    through the proxies [ps], in this order, have all failed: the network
    gave none of them a valid payload, and each one threw.  They produced
    the events [evs] and left [last] in [lastError]. *)
Inductive FailedAttempts (url : string) (h : list Event)
  : list Proxy -> list Event -> option JsError -> Prop :=
| failed_none : FailedAttempts url h [] [] None
| failed_next ps p evs last e :
    FailedAttempts url h ps evs last ->
    noValidPayload (net (h ++ evs) (proxyUrl p url)) ->
    attemptVia net p url (h ++ evs) = (Throw e, [request p url]) ->
    FailedAttempts url h (ps ++ [p])
      (evs ++ [request p url; warnFailed p e]) (Some (recordFailure e)).

End RelayVocabulary.

(** ** The rows of a series *)

(** The cell of a column at an index, as [index] reads it. *)
Definition cellAt (col : list (option num)) (i : nat) : jsval :=
  match nth_error col i with Some c => cellVal c | None => VUndef end.

Definition isNum (v : jsval) : bool :=
  match v with VNum _ => true | _ => false end.

Section Rows.

(** The parallel arrays of a payload. *)
Variables ts o h l c v : list (option num).

(** The index holds a timestamp and four prices. *)
Definition retained (i : nat) : bool :=
  isNum (cellAt ts i) && isNum (cellAt o i) && isNum (cellAt h i)
  && isNum (cellAt l i) && isNum (cellAt c i).

Definition candleAt (i : nat) : CandlestickData :=
  mkCandle (cellAt ts i) (cellAt o i) (cellAt h i) (cellAt l i) (cellAt c i).

Definition volumeAt (i : nat) : VolumeData :=
  mkVolume (cellAt ts i) (orElse (cellAt v i) VNum (VNum num_zero))
           (colour (cellAt c i) (cellAt o i)).

Definition text (r : Result string) : string :=
  match r with Ok s => s | Throw _ => "" end.

Definition rowAt (i : nat) : string :=
  (text (dateOf (cellAt ts i)) ++ "," ++ text (toFixed (cellAt o i)) ++ ","
   ++ text (toFixed (cellAt h i)) ++ "," ++ text (toFixed (cellAt l i)) ++ ","
   ++ text (toFixed (cellAt c i)) ++ ","
   ++ orElse (cellAt v i) numToString "0")%string.

(** The date of every retained row can be written. *)
Definition datesValid : Prop :=
  forall i, retained i = true -> exists d, dateOf (cellAt ts i) = Ok d.

End Rows.

Definition colOf (col : column) : list (option num) :=
  match col with Some cells => cells | None => [] end.

(** The four prices of an index of the fallback payload are numbers. *)
Definition priced (d : FinnhubCandles) (i : nat) : Prop :=
  isNum (cellAt (colOf (f_o d)) i) = true /\
  isNum (cellAt (colOf (f_h d)) i) = true /\
  isNum (cellAt (colOf (f_l d)) i) = true /\
  isNum (cellAt (colOf (f_c d)) i) = true.

(** ** The times of a series *)

Section Order.

(** The order of the times. *)
Variable R : num -> num -> Prop.

(** The non-null cells of a column. *)
Definition somes (cells : list (option num)) : list num :=
  flat_map (fun cell => match cell with Some n => [n] | None => [] end) cells.

(** The times are numbers, each less than the next. *)
Definition ascending (times : list jsval) : Prop :=
  exists ns, times = map VNum ns /\ Sorted R ns.

(** What the upstream sources are expected to send: the timestamps of the
    primary source ascend, nulls apart; those of the fallback source are
    numbers and ascend. *)
Definition bodyAscending (data : Body) : Prop :=
  (forall result ts,
      firstResult data = Some result -> y_timestamp result = Some ts ->
      Sorted R (somes ts)) /\
  (forall d t,
      data = BodyCandles d -> f_t d = Some t -> ascending (map cellVal t)).

Definition upstreamAscending (net : World) : Prop :=
  forall h url r data,
    outcome (net h url) = FetchResolved r -> resp_json r = Some data ->
    bodyAscending data.

End Order.

End Vocabulary.

(** The lines of a text. *)
Fixpoint splitLines (s : string) : list string :=
  match s with
  | EmptyString => [""]
  | String ch rest =>
      match splitLines rest with
      | line :: more =>
          if Ascii.eqb ch (ascii_of_nat 10) then "" :: line :: more
          else String ch line :: more
      | [] => [String ch ""]
      end
  end.

(** ** The sessions of the poller *)

(** A session that has just been started: its interval is registered, no
    failure is counted, nothing is in flight and nothing was signalled. *)
Definition freshSession (a : App) (id : nat) : Prop :=
  priceUpdateInterval a = Some id /\ id <> 0 /\ timers a = [id] /\
  pollingFailureCount a = 0 /\ inFlight a = 0 /\
  isPollingHalted a = false /\ haltedEmitted a = 0.

(** Ticks and settled quotes only: no new request. *)
Definition polling (os : list Occurrence) : Prop :=
  Forall (fun o => match o with
                   | TimerFired _ | QuoteSettled _ => True
                   | RequestStart | RequestDone _ _ => False
                   end) os.

(** The states of a session: polling, with fewer than five failures counted
    and no halt signalled; or halted, with no interval left and the halt
    signalled once. *)
Definition isRunning (a : App) (id : nat) : Prop :=
  priceUpdateInterval a = Some id /\ id <> 0 /\ timers a = [id] /\
  pollingFailureCount a < 5 /\ isPollingHalted a = false /\ haltedEmitted a = 0.

Definition isHalted (a : App) : Prop :=
  priceUpdateInterval a = None /\ timers a = [] /\
  isPollingHalted a = true /\ haltedEmitted a = 1.

(** A tick and its quote, settled before anything else happens. *)
Definition pollOnce (id : nat) (r : Result (option string)) : list Occurrence :=
  [TimerFired id; QuoteSettled r].

Fixpoint failures (id : nat) (k : nat) : list Occurrence :=
  match k with
  | O => []
  | S k' => pollOnce id (Ok None) ++ failures id k'
  end.

(** * The vocabulary of the further statements *)

(** ** The traffic of a call *)

(** The network requests among the events; those made outside the relay
    (no abort timer); the warnings written to the console. *)
Definition requests (tr : list Event) : nat := length (filter isFetch tr).

Definition isDirect (e : Event) : bool :=
  match e with EvFetch _ None => true | _ => false end.

Definition directRequests (tr : list Event) : nat := length (filter isDirect tr).

Definition isWarning (e : Event) : bool :=
  match e with EvConsole LWarn _ => true | _ => false end.

Definition warnings (tr : list Event) : nat := length (filter isWarning tr).

(** ** The points of a series *)

Section Points.

Context `{Host}.

(** The four prices of a candle are numbers. *)
Definition pricedCandle (cd : CandlestickData) : Prop :=
  isNum (c_open cd) = true /\ isNum (c_high cd) = true /\
  isNum (c_low cd) = true /\ isNum (c_close cd) = true.

(** The colour of a volume point tells the direction of its candle: green
    when the close is at least the open, red otherwise. *)
Definition direction (cd : CandlestickData) (vd : VolumeData) : Prop :=
  exists o c,
    c_open cd = VNum o /\ c_close cd = VNum c /\
    v_color vd = if num_ge c o then green else red.

Definition numericVolume (vd : VolumeData) : Prop := isNum (v_value vd) = true.

End Points.

(** ** The number of a price *)

(** The number that [formatPrice] takes from a price: the price itself, or
    what [parseFloat] reads in it when it is a string; none for any other
    value. *)
Definition priceNumber `{Host} (value : PriceVal) : option num :=
  match value with
  | PNum n => Some n
  | PStr s => Some (parseFloat s)
  | PNull | PUndef | PObj => None
  end.

(** ** A network that is down *)

(** Every request is rejected. *)
Definition unreachableNet `{Host} (net : World) : Prop :=
  forall h url, exists e, outcome (net h url) = FetchRejected e.

(** ** The names of the symbol table *)

(** No ticker of the table is a name that the table inherits. *)
Definition tickersOwn `{Host} : Prop :=
  forall key mapped, In (key, mapped) mappings -> inherited mapped = None.

(** ** Requests that do not overlap *)

(** The requests of the user come one at a time: a request settles before
    the next one starts, and the host hands out interval ids that are not 0.
    [pending] tells whether a request is waiting for its analysis. *)
Fixpoint sequential (pending : bool) (os : list Occurrence) : Prop :=
  match os with
  | [] => True
  | RequestStart :: os' => pending = false /\ sequential true os'
  | RequestDone (Some _) id :: os' =>
      pending = true /\ id <> 0 /\ sequential false os'
  | RequestDone None _ :: os' => pending = true /\ sequential false os'
  | (TimerFired _ | QuoteSettled _) :: os' => sequential pending os'
  end.

(** The intervals that the host holds are the one that the ref holds. *)
Definition oneInterval (a : App) : Prop :=
  timers a = match currentInterval a with Some id => [id] | None => [] end.

(** No later request is given the interval id [id]. *)
Definition neverReuses (id : nat) (os : list Occurrence) : Prop :=
  Forall (fun o => match o with RequestDone _ id' => id' <> id | _ => True end) os.

(** A session that is replaced while four of its quotes are outstanding: the
    first request starts a session, four ticks request a quote each, the
    user makes a new request, the four quotes settle without a price while
    the new analysis runs, and the interval of the new session is
    registered. *)
Definition replacedSession : list Occurrence :=
  [RequestStart; RequestDone (Some "ABC") 1] ++ repeat (TimerFired 1) 4
  ++ [RequestStart] ++ repeat (QuoteSettled (Ok None)) 4
  ++ [RequestDone (Some "XYZ") 2].

(** A session in which a quote arrives after fewer than five failures, again
    and again: each round is a number of failed ticks and the quote that
    ends them. *)
Definition rounds (id : nat) (quotes : list (nat * string)) : list Occurrence :=
  flat_map (fun round => failures id (fst round)
                         ++ pollOnce id (Ok (Some (snd round)))) quotes.

(** With [count] failures counted already, no run of failures brings the
    counter to five: the first run is shorter than five less [count], the
    later ones are shorter than five, and each ends with a quote that is a
    price. *)
Fixpoint survivable (count : nat) (quotes : list (nat * string)) : Prop :=
  match quotes with
  | [] => True
  | (k, p) :: rest => count + k < 5 /\ p <> "" /\ survivable 0 rest
  end.

(** A point of a session between two ticks: the interval of the ref is
    registered, no quote is in flight, fewer than five failures are counted
    and no halt was signalled. *)
Definition betweenTicks (a : App) (id : nat) : Prop :=
  isRunning a id /\ inFlight a = 0.

(** A new session that has inherited one failure: a quote of the session
    before it was outstanding when that one was replaced, and was missing. *)
Definition inheritedFailure : list Occurrence :=
  [RequestStart; RequestDone (Some "ABC") 1; TimerFired 1; RequestStart;
   QuoteSettled (Ok None); RequestDone (Some "XYZ") 2].

Definition isErrorLog (e : Event) : bool :=
  match e with EvConsole LError _ => true | _ => false end.

(** The errors written to the console. *)
Definition errorsLogged (tr : list Event) : nat := length (filter isErrorLog tr).

(** ** The requests of the page *)

(** The requests come one at a time, and an error that is thrown has a
    message.  [pending] tells whether a request is waiting. *)
Fixpoint oneAtATime {Report Chart} (pending : bool)
    (os : list (Page.Occurrence Report Chart)) : Prop :=
  match os with
  | [] => True
  | Page.Requested :: os' => pending = false /\ oneAtATime true os'
  | Page.Settled (Page.Thrown (Some m)) :: os' =>
      pending = true /\ m <> "" /\ oneAtATime false os'
  | Page.Settled _ :: os' => pending = true /\ oneAtATime false os'
  end.

(** * Properties *)

(** Split the conjunctions that are written in the goal. *)
Ltac splits := repeat match goal with |- _ /\ _ => split end.

Ltac list_norm :=
  rewrite ?app_nil_r; repeat (progress (rewrite <- ?app_assoc; cbn [app])).

Ltac run_monad :=
  unfold bind, tryCatch, emit, console, ret, throw, lift, json in *.

(** ** The relay *)

Section Relay.

Context `{Host}.
Variable net : World.

Lemma attemptVia_events p url h :
  snd (attemptVia net p url h) = [request p url].
Proof.
  unfold attemptVia, bind, fetch, json, lift, throw, ret, request.
  destruct (net h (proxyUrl p url)) as [lat out]; cbn.
  destruct (timeoutMs <=? lat)%Z; [reflexivity|].
  destruct out as [e|r]; [reflexivity|].
  destruct (resp_ok r); cbn; [|reflexivity].
  destruct (resp_json r) as [data|]; cbn; [|reflexivity].
  destruct (chartOf data) as [chart|e]; cbn; [|reflexivity].
  destruct (chartError chart); cbn; [reflexivity|].
  destruct (chartResult chart); reflexivity.
Qed.

Lemma attemptVia_Ok p url h data :
  fst (attemptVia net p url h) = Ok data <->
  validPayload (net h (proxyUrl p url)) data.
Proof.
  unfold attemptVia, bind, fetch, json, lift, throw, ret, validPayload.
  destruct (net h (proxyUrl p url)) as [lat out]; cbn.
  destruct (Z.leb_spec timeoutMs lat) as [Hlat|Hlat]; cbn.
  { split; [discriminate|]. intros [Hlt _]. lia. }
  destruct out as [e|r]; cbn.
  { split; [discriminate|]. intros (_ & r & c & Hr & _). discriminate. }
  destruct (resp_ok r) eqn:Hok; cbn.
  2:{ split; [discriminate|]. intros (_ & r' & c & Hr & Hok' & _).
      injection Hr as <-. congruence. }
  destruct (resp_json r) as [d|] eqn:Hjson; cbn.
  2:{ split; [discriminate|]. intros (_ & r' & c & Hr & _ & Hj & _).
      injection Hr as <-. congruence. }
  destruct (chartOf d) as [chart|e] eqn:Hchart; cbn.
  2:{ split; [discriminate|]. intros (_ & r' & c & Hr & _ & Hj & Hc & _).
      injection Hr as <-. rewrite Hjson in Hj. injection Hj as <-. congruence. }
  destruct (chartError chart) as [desc|] eqn:Herr; cbn.
  { split; [discriminate|]. intros (_ & r' & c & Hr & _ & Hj & Hc & He & _).
    injection Hr as <-. rewrite Hjson in Hj. injection Hj as <-.
    rewrite Hchart in Hc. injection Hc as <-. congruence. }
  destruct (chartResult chart) as [res|] eqn:Hres; cbn.
  - split.
    + intros Heq. injection Heq as <-. split; [exact Hlat|].
      exists r, chart. rewrite Hres. repeat split; auto; discriminate.
    + intros (_ & r' & c & Hr & _ & Hj & _).
      injection Hr as <-. rewrite Hjson in Hj. injection Hj as <-. reflexivity.
  - split; [discriminate|].
    intros (_ & r' & c & Hr & _ & Hj & Hc & _ & Hres').
    injection Hr as <-. rewrite Hjson in Hj. injection Hj as <-.
    rewrite Hchart in Hc. injection Hc as <-. congruence.
Qed.

(** An attempt that has not settled when the timer fires is aborted. *)
Lemma attemptVia_timeout p url h :
  (timeoutMs <= latency_ms (net h (proxyUrl p url)))%Z ->
  attemptVia net p url h = (Throw AbortError, [request p url]).
Proof.
  intros Hlat. unfold attemptVia, bind, fetch, request.
  destruct (Z.leb_spec timeoutMs (latency_ms (net h (proxyUrl p url))));
    [reflexivity|lia].
Qed.

Lemma recordFailure_abort e :
  err_name e = "AbortError" -> recordFailure e = Error timedOutMessage.
Proof. intros He. unfold recordFailure. rewrite He. reflexivity. Qed.

Lemma recordFailure_other e :
  err_name e <> "AbortError" -> recordFailure e = e.
Proof.
  intros He. unfold recordFailure.
  destruct (String.eqb_spec (err_name e) "AbortError"); congruence.
Qed.

Lemma FailedAttempts_urls url h ps evs last :
  FailedAttempts net url h ps evs last ->
  filter isFetch evs = map (fun p => request p url) ps.
Proof.
  induction 1 as [|ps p evs last e _ IH _ _]; [reflexivity|].
  rewrite filter_app, map_app, IH. reflexivity.
Qed.

(** The loop, from any point of it. *)
Lemma relayLoop_run url h : forall rest tried evs0 last,
  FailedAttempts net url h tried evs0 last ->
  let r := relayLoop net rest url last (h ++ evs0)%list in
  (exists ps p rest' data evs,
      (tried ++ rest = ps ++ p :: rest')%list /\
      (exists last', FailedAttempts net url h ps evs last') /\
      validPayload (net (h ++ evs)%list (proxyUrl p url)) data /\
      fst r = Ok data /\ (evs0 ++ snd r = evs ++ [request p url])%list)
  \/ (exists evs last',
      FailedAttempts net url h (tried ++ rest) evs last' /\
      fst r = Throw (match last' with
                     | Some e => e
                     | None => Error "All Yahoo Finance fetch attempts failed."
                     end) /\
      (evs0 ++ snd r)%list = evs).
Proof.
  induction rest as [|p rest IH]; intros tried evs0 last Hfailed; cbn zeta.
  - right. exists evs0, last. rewrite !app_nil_r. cbn.
    rewrite ?app_nil_r. auto.
  - cbn [relayLoop]. unfold tryCatch.
    pose proof (attemptVia_events p url (h ++ evs0)) as Hev.
    pose proof (attemptVia_Ok p url (h ++ evs0)) as Hok.
    destruct (attemptVia net p url (h ++ evs0)) as [[data|e] e1] eqn:Hatt;
      cbn [fst snd] in Hev, Hok; subst e1.
    + left. exists tried, p, rest, data, evs0.
      split; [reflexivity|]. split; [eauto|].
      split; [apply Hok; reflexivity|]. split; reflexivity.
    + assert (Hinvalid : noValidPayload (net (h ++ evs0) (proxyUrl p url))).
      { intros data Hvalid. apply Hok in Hvalid. discriminate Hvalid. }
      pose proof (failed_next net url h tried p evs0 last e Hfailed Hinvalid Hatt)
        as Hnext.
      specialize (IH _ _ _ Hnext). cbn zeta in IH.
      unfold bind, emit.
      rewrite <- !app_assoc in IH |- *. cbn [app] in IH |- *.
      destruct (relayLoop net rest url (Some (recordFailure e))
                  (h ++ evs0 ++ [request p url; warnFailed p e]))
        as [r e2] eqn:Hloop.
      cbn [fst snd app] in IH |- *.
      destruct IH as [(ps & q & rest' & data & evs & Hsplit & Hf & Hv & Hr & Hevs)
                     |(evs & last' & Hf & Hr & Hevs)].
      * left. exists ps, q, rest', data, evs. splits; auto.
      * right. exists evs, last'. splits; auto.
Qed.


End Relay.

(** ** The providers and the orchestrators *)

Lemma calls_app op (a b : list Event) :
  calls op (a ++ b) = calls op a + calls op b.
Proof. unfold calls. rewrite filter_app, length_app. reflexivity. Qed.

Lemma length_append (a b : string) :
  String.length (a ++ b)%string = String.length a + String.length b.
Proof. induction a as [|c a IH]; cbn; [reflexivity|now rewrite IH]. Qed.

Lemma endsWith_suffix (p suffix : string) :
  endsWith (p ++ suffix)%string suffix = true.
Proof.
  unfold endsWith. rewrite length_append.
  replace (String.length p + String.length suffix - String.length suffix)
    with (String.length p) by lia.
  assert (Hsub : forall p, substring (String.length p) (String.length suffix)
                             (p ++ suffix)%string = suffix).
  { clear p. induction p as [|c p IH]; cbn [String.length append substring].
    - clear. induction suffix as [|c s IH]; cbn; [reflexivity|].
      now rewrite IH.
    - exact IH. }
  rewrite Hsub, String.eqb_refl, andb_true_r.
  apply Nat.leb_le. lia.
Qed.

Section Providers.

Context `{Host}.
Variable net : World.
Variable apiKey : string.

Lemma relayLoop_calls op url : forall ps last h,
  calls op (snd (relayLoop net ps url last h)) = 0.
Proof.
  induction ps as [|p ps IH]; intros last h; cbn [relayLoop].
  - reflexivity.
  - unfold tryCatch.
    pose proof (attemptVia_events net p url h) as Hev.
    destruct (attemptVia net p url h) as [[data|e] e1]; cbn [snd] in Hev; subst e1.
    + destruct op; reflexivity.
    + run_monad.
      specialize (IH (Some (recordFailure e))
                     ((h ++ [request p url]) ++ [warnFailed p e])).
      destruct (relayLoop net ps url (Some (recordFailure e))
                  ((h ++ [request p url]) ++ [warnFailed p e])) as [r e2].
      cbn [snd] in *. rewrite !calls_app, IH.
      destruct op; reflexivity.
Qed.

(** The primary series provider: one call, then the relay, then the
    normalisation of what the relay returned. *)
Lemma fetchMarketDataFromYahoo_eq symbol timeframe h :
  fetchMarketDataFromYahoo net symbol timeframe h =
  let r := yahooFinanceFetch net
             (chartUrl symbol (fst (yahooSpan timeframe)) (snd (yahooSpan timeframe)))
             (h ++ [EvCall OpYahooSeries]) in
  (andThen (fst r) yahooSeries, EvCall OpYahooSeries :: snd r).
Proof.
  unfold fetchMarketDataFromYahoo. run_monad. cbn zeta.
  destruct (yahooFinanceFetch net _ (h ++ [EvCall OpYahooSeries])) as [[data|e] evs];
    cbn; [|reflexivity].
  rewrite app_nil_r. reflexivity.
Qed.

Lemma fetchLivePriceFromYahoo_calls op symbol h :
  calls op (snd (fetchLivePriceFromYahoo net symbol h)) =
  match op with OpYahooQuote => 1 | _ => 0 end.
Proof.
  unfold fetchLivePriceFromYahoo. run_monad. cbn zeta.
  pose proof (relayLoop_calls op (chartUrl symbol "1d" "1m") PROXIES None
                (h ++ [EvCall OpYahooQuote])) as Hrelay.
  fold (yahooFinanceFetch net (chartUrl symbol "1d" "1m")) in Hrelay.
  destruct (yahooFinanceFetch net _ (h ++ [EvCall OpYahooQuote])) as [[data|e] evs];
    cbn [snd] in *.
  - destruct (negb (price_truthy _)); cbn [snd]; rewrite app_nil_r;
      change (EvCall OpYahooQuote :: evs) with ([EvCall OpYahooQuote] ++ evs);
      rewrite calls_app, Hrelay; destruct op; reflexivity.
  - change (EvCall OpYahooQuote :: evs) with ([EvCall OpYahooQuote] ++ evs);
      rewrite calls_app, Hrelay; destruct op; reflexivity.
Qed.

Lemma fetchMarketDataFromYahoo_calls op symbol timeframe h :
  calls op (snd (fetchMarketDataFromYahoo net symbol timeframe h)) =
  match op with OpYahooSeries => 1 | _ => 0 end.
Proof.
  rewrite fetchMarketDataFromYahoo_eq. cbn zeta. cbn [snd].
  change (EvCall OpYahooSeries :: ?l) with ([EvCall OpYahooSeries] ++ l).
  rewrite calls_app. unfold yahooFinanceFetch. rewrite relayLoop_calls.
  destruct op; reflexivity.
Qed.

(** The events of the fallback providers: the call and, unless the
    credential is missing or the symbol is refused, one request. *)
Lemma fetchMarketDataFromFinnhub_events symbol timeframe h :
  snd (fetchMarketDataFromFinnhub net apiKey symbol timeframe h) =
  EvCall OpFinnhubSeries ::
  (if (apiKey =? "") || endsWith symbol ".NS" then []
   else [EvFetch (candleUrl apiKey (mapSymbolForFinnhub symbol) timeframe) None]).
Proof.
  unfold fetchMarketDataFromFinnhub, fetch. run_monad.
  destruct (apiKey =? ""); [reflexivity|].
  destruct (endsWith symbol ".NS"); [reflexivity|]. cbn.
  destruct (outcome _) as [e|r]; [reflexivity|].
  destruct (resp_ok r); cbn; [|reflexivity].
  destruct (resp_json r) as [data|]; cbn; [|reflexivity].
  destruct (finnhubSeries (mapSymbolForFinnhub symbol) data); reflexivity.
Qed.

Lemma fetchLivePriceFromFinnhub_calls op symbol h :
  calls op (snd (fetchLivePriceFromFinnhub net apiKey symbol h)) =
  match op with OpFinnhubQuote => 1 | _ => 0 end.
Proof.
  unfold fetchLivePriceFromFinnhub, fetch. run_monad.
  destruct (apiKey =? ""); [destruct op; reflexivity|].
  destruct (endsWith symbol ".NS"); [destruct op; reflexivity|]. cbn.
  destruct (outcome _) as [e|r]; [destruct op; reflexivity|].
  destruct (resp_ok r); cbn; [|destruct op; reflexivity].
  destruct (resp_json r) as [data|]; cbn; [|destruct op; reflexivity].
  destruct (negb (price_truthy (quotePriceOf data)) || _);
    destruct op; reflexivity.
Qed.

(** The series orchestrator, case by case. *)
Lemma fetchMarketData_eq symbol timeframe h :
  fetchMarketData net apiKey symbol timeframe h =
  let y := fetchMarketDataFromYahoo net symbol timeframe (h ++ [logAttempt symbol]) in
  match fst y with
  | Ok payload => (Ok payload, logAttempt symbol :: snd y)
  | Throw yahooError =>
      let pre := logAttempt symbol :: snd y in
      if apiKey =? "" then
        (Throw (Error (unavailableMessage symbol)),
         pre ++ [warnYahoo symbol yahooError; errorNoKey])
      else
        let f := fetchMarketDataFromFinnhub net apiKey symbol timeframe
                   (h ++ pre ++ [warnYahoo symbol yahooError; logFallback symbol]) in
        match fst f with
        | Ok payload =>
            (Ok payload,
             pre ++ [warnYahoo symbol yahooError; logFallback symbol] ++ snd f)
        | Throw finnhubError =>
            (Throw (Error (allFailedMessage symbol)),
             pre ++ [warnYahoo symbol yahooError; logFallback symbol] ++ snd f
                 ++ [errorFinnhub symbol finnhubError])
        end
  end.
Proof.
  unfold fetchMarketData. run_monad. cbn zeta.
  destruct (fetchMarketDataFromYahoo net symbol timeframe (h ++ [logAttempt symbol]))
    as [[payload|yahooError] evs]; cbn [fst snd app]; [reflexivity|].
  destruct (apiKey =? ""); cbn [fst snd app].
  - reflexivity.
  - replace (((h ++ logAttempt symbol :: evs) ++ [warnYahoo symbol yahooError])
               ++ [logFallback symbol])
      with (h ++ logAttempt symbol :: evs
              ++ [warnYahoo symbol yahooError; logFallback symbol]).
    2:{ list_norm. reflexivity. }
    destruct (fetchMarketDataFromFinnhub net apiKey symbol timeframe _)
      as [[payload|finnhubError] evs']; cbn [fst snd app].
    + list_norm. reflexivity.
    + list_norm. reflexivity.
Qed.

(** The quote orchestrator, case by case. *)
Lemma fetchLivePrice_eq symbol h :
  fetchLivePrice net apiKey symbol h =
  if symbol =? "" then (Ok None, [])
  else
    let y := fetchLivePriceFromYahoo net symbol h in
    match fst y with
    | Ok quote => (Ok quote, snd y)
    | Throw yahooError =>
        let f := fetchLivePriceFromFinnhub net apiKey symbol
                   (h ++ snd y ++ [warnLiveYahoo symbol yahooError]) in
        match fst f with
        | Ok quote => (Ok quote, snd y ++ [warnLiveYahoo symbol yahooError] ++ snd f)
        | Throw finnhubError =>
            (Ok None,
             snd y ++ [warnLiveYahoo symbol yahooError] ++ snd f
                   ++ [errorLiveFinnhub symbol finnhubError])
        end
    end.
Proof.
  unfold fetchLivePrice. run_monad.
  destruct (symbol =? ""); [reflexivity|]. cbn zeta.
  destruct (fetchLivePriceFromYahoo net symbol h) as [[quote|yahooError] evs];
    cbn [fst snd app]; [reflexivity|].
  rewrite <- app_assoc.
  destruct (fetchLivePriceFromFinnhub net apiKey symbol _)
    as [[quote|finnhubError] evs']; cbn [fst snd app].
  - reflexivity.
  - rewrite ?app_nil_r. reflexivity.
Qed.

(** C2.  The quote orchestrator never throws.  With an empty symbol it
    gives null at once.  Otherwise it gives the quote of the primary source
    when that one succeeds; when it throws, the fallback is called exactly
    once, its quote is the result, and null when it throws too. *)
Theorem fetchLivePrice_never_throws (symbol : string) (h : list Event) :
  let r := fetchLivePrice net apiKey symbol h in
  let y := fetchLivePriceFromYahoo net symbol h in
  (exists quote, fst r = Ok quote) /\
  (symbol = "" -> r = (Ok None, [])) /\
  (symbol <> "" -> forall quote, fst y = Ok quote ->
     r = (Ok quote, snd y) /\ calls OpFinnhubQuote (snd r) = 0) /\
  (symbol <> "" -> forall yahooError, fst y = Throw yahooError ->
     let f := fetchLivePriceFromFinnhub net apiKey symbol
                (h ++ snd y ++ [warnLiveYahoo symbol yahooError]) in
     calls OpFinnhubQuote (snd r) = 1 /\
     (forall quote, fst f = Ok quote -> fst r = Ok quote) /\
     (forall finnhubError, fst f = Throw finnhubError -> fst r = Ok None)).
Proof.
  cbn zeta. rewrite fetchLivePrice_eq. cbn zeta.
  pose proof (fetchLivePriceFromYahoo_calls OpFinnhubQuote symbol h) as Hy.
  destruct (String.eqb_spec symbol "") as [Hempty|Hsym].
  { splits; [eexists; reflexivity|reflexivity|contradiction|contradiction]. }
  destruct (fetchLivePriceFromYahoo net symbol h) as [[quote|yahooError] evs];
    cbn [fst snd] in *.
  { splits; [eexists; reflexivity|contradiction| |intros _ e He; discriminate He].
    intros _ q Hq. injection Hq as <-. split; [reflexivity|exact Hy]. }
  pose proof (fetchLivePriceFromFinnhub_calls OpFinnhubQuote symbol
                (h ++ evs ++ [warnLiveYahoo symbol yahooError])) as Hf.
  destruct (fetchLivePriceFromFinnhub net apiKey symbol
              (h ++ evs ++ [warnLiveYahoo symbol yahooError]))
    as [[quote|finnhubError] evs'] eqn:Hfeq; cbn [fst snd] in *.
  - splits; [eexists; reflexivity|contradiction|intros _ q Hq; discriminate Hq|].
    intros _ e He. injection He as <-. rewrite Hfeq. cbn [fst snd]. splits.
    + rewrite !calls_app, Hy, Hf. reflexivity.
    + intros q Hq. exact Hq.
    + intros e' He'. discriminate He'.
  - splits; [eexists; reflexivity|contradiction|intros _ q Hq; discriminate Hq|].
    intros _ e He. injection He as <-. rewrite Hfeq. cbn [fst snd]. splits.
    + rewrite !calls_app, Hy, Hf. reflexivity.
    + intros q Hq. discriminate Hq.
    + intros e' He'. reflexivity.
Qed.

Lemma fetchMarketDataFromFinnhub_calls op symbol timeframe h :
  calls op (snd (fetchMarketDataFromFinnhub net apiKey symbol timeframe h)) =
  match op with OpFinnhubSeries => 1 | _ => 0 end.
Proof.
  rewrite fetchMarketDataFromFinnhub_events.
  destruct ((apiKey =? "") || endsWith symbol ".NS"); destruct op; reflexivity.
Qed.

(** C3.  The series orchestrator calls the primary provider first, and once.
    When that call succeeds its payload is the result and the fallback is
    not called.  When it throws and the credential is set, the fallback is
    called exactly once: its payload is the result, and when it throws too
    the all-providers-failed error is thrown.  Without the credential the
    fallback is not called and the terminal error is thrown.  The
    orchestrator throws in no other case. *)
Theorem fetchMarketData_fallback (symbol timeframe : string) (h : list Event) :
  let r := fetchMarketData net apiKey symbol timeframe h in
  let y := fetchMarketDataFromYahoo net symbol timeframe (h ++ [logAttempt symbol]) in
  let f yahooError :=
    fetchMarketDataFromFinnhub net apiKey symbol timeframe
      (h ++ logAttempt symbol :: snd y
         ++ [warnYahoo symbol yahooError; logFallback symbol]) in
  (exists rest, snd r = logAttempt symbol :: EvCall OpYahooSeries :: rest) /\
  calls OpYahooSeries (snd r) = 1 /\
  (forall payload, fst y = Ok payload ->
     fst r = Ok payload /\ calls OpFinnhubSeries (snd r) = 0) /\
  (forall yahooError, fst y = Throw yahooError ->
     (apiKey = "" ->
        calls OpFinnhubSeries (snd r) = 0 /\
        fst r = Throw (Error (unavailableMessage symbol))) /\
     (apiKey <> "" ->
        calls OpFinnhubSeries (snd r) = 1 /\
        (forall payload, fst (f yahooError) = Ok payload -> fst r = Ok payload) /\
        (forall finnhubError, fst (f yahooError) = Throw finnhubError ->
           fst r = Throw (Error (allFailedMessage symbol))))) /\
  (forall e, fst r = Throw e ->
     exists yahooError, fst y = Throw yahooError /\
       ((apiKey = "" /\ e = Error (unavailableMessage symbol)) \/
        (apiKey <> "" /\ e = Error (allFailedMessage symbol) /\
         exists finnhubError, fst (f yahooError) = Throw finnhubError))).
Proof.
  cbn zeta. rewrite fetchMarketData_eq. cbn zeta.
  pose proof (fetchMarketDataFromYahoo_calls OpYahooSeries symbol timeframe
                (h ++ [logAttempt symbol])) as HyY.
  pose proof (fetchMarketDataFromYahoo_calls OpFinnhubSeries symbol timeframe
                (h ++ [logAttempt symbol])) as HyF.
  assert (Hhead : exists rest,
    snd (fetchMarketDataFromYahoo net symbol timeframe (h ++ [logAttempt symbol]))
    = EvCall OpYahooSeries :: rest).
  { rewrite fetchMarketDataFromYahoo_eq. cbn zeta. eexists. reflexivity. }
  destruct (fetchMarketDataFromYahoo net symbol timeframe (h ++ [logAttempt symbol]))
    as [[payload|yahooError] evs]; cbn [fst snd] in *;
    destruct Hhead as [rest0 ->].
  { splits.
    - eexists. reflexivity.
    - change (logAttempt symbol :: ?l) with ([logAttempt symbol] ++ l).
      rewrite calls_app, HyY. reflexivity.
    - intros p Hp. injection Hp as <-. split; [reflexivity|].
      change (logAttempt symbol :: ?l) with ([logAttempt symbol] ++ l).
      rewrite calls_app, HyF. reflexivity.
    - intros e He. discriminate He.
    - intros e He. discriminate He. }
  destruct (String.eqb_spec apiKey "") as [Hkey|Hkey].
  { cbn [fst snd app]. splits.
    - eexists. reflexivity.
    - change (logAttempt symbol :: ?l) with ([logAttempt symbol] ++ l).
      rewrite calls_app.
      change (EvCall OpYahooSeries :: rest0 ++ ?l)
        with ((EvCall OpYahooSeries :: rest0) ++ l).
      rewrite calls_app, HyY. reflexivity.
    - intros p Hp. discriminate Hp.
    - intros e He. split; [|contradiction]. intros _. split; [|reflexivity].
      change (logAttempt symbol :: ?l) with ([logAttempt symbol] ++ l).
      rewrite calls_app.
      change (EvCall OpYahooSeries :: rest0 ++ ?l)
        with ((EvCall OpYahooSeries :: rest0) ++ l).
      rewrite calls_app, HyF. reflexivity.
    - intros e He. injection He as <-. exists yahooError. split; [reflexivity|].
      left. split; [exact Hkey|reflexivity]. }
  pose proof (fetchMarketDataFromFinnhub_calls OpYahooSeries symbol timeframe
     (h ++ (logAttempt symbol :: EvCall OpYahooSeries :: rest0)
        ++ [warnYahoo symbol yahooError; logFallback symbol])) as HfY.
  pose proof (fetchMarketDataFromFinnhub_calls OpFinnhubSeries symbol timeframe
     (h ++ (logAttempt symbol :: EvCall OpYahooSeries :: rest0)
        ++ [warnYahoo symbol yahooError; logFallback symbol])) as HfF.
  destruct (fetchMarketDataFromFinnhub net apiKey symbol timeframe
     (h ++ (logAttempt symbol :: EvCall OpYahooSeries :: rest0)
        ++ [warnYahoo symbol yahooError; logFallback symbol]))
    as [[payload|finnhubError] evs'] eqn:Hfeq; cbn [fst snd] in *.
  - assert (HcY : calls OpYahooSeries
      ((logAttempt symbol :: EvCall OpYahooSeries :: rest0)
         ++ [warnYahoo symbol yahooError; logFallback symbol] ++ evs') = 1).
    { change (logAttempt symbol :: ?l) with ([logAttempt symbol] ++ l).
      rewrite !calls_app, HyY, HfY. reflexivity. }
    assert (HcF : calls OpFinnhubSeries
      ((logAttempt symbol :: EvCall OpYahooSeries :: rest0)
         ++ [warnYahoo symbol yahooError; logFallback symbol] ++ evs') = 1).
    { change (logAttempt symbol :: ?l) with ([logAttempt symbol] ++ l).
      rewrite !calls_app, HyF, HfF. reflexivity. }
    splits.
    + eexists. reflexivity.
    + exact HcY.
    + intros p Hp. discriminate Hp.
    + intros e He. injection He as <-. split; [contradiction|]. intros _.
      cbn [app] in Hfeq |- *. rewrite Hfeq. cbn [fst]. splits.
      * exact HcF.
      * intros p Hp. exact Hp.
      * intros e' He'. discriminate He'.
    + intros e He. discriminate He.
  - assert (HcY : calls OpYahooSeries
      ((logAttempt symbol :: EvCall OpYahooSeries :: rest0)
         ++ [warnYahoo symbol yahooError; logFallback symbol] ++ evs'
         ++ [errorFinnhub symbol finnhubError]) = 1).
    { change (logAttempt symbol :: ?l) with ([logAttempt symbol] ++ l).
      rewrite !calls_app, HyY, HfY. reflexivity. }
    assert (HcF : calls OpFinnhubSeries
      ((logAttempt symbol :: EvCall OpYahooSeries :: rest0)
         ++ [warnYahoo symbol yahooError; logFallback symbol] ++ evs'
         ++ [errorFinnhub symbol finnhubError]) = 1).
    { change (logAttempt symbol :: ?l) with ([logAttempt symbol] ++ l).
      rewrite !calls_app, HyF, HfF. reflexivity. }
    splits.
    + eexists. reflexivity.
    + exact HcY.
    + intros p Hp. discriminate Hp.
    + intros e He. injection He as <-. split; [contradiction|]. intros _.
      cbn [app] in Hfeq |- *. rewrite Hfeq. cbn [fst]. splits.
      * exact HcF.
      * intros p Hp. discriminate Hp.
      * intros e' He'. reflexivity.
    + intros e He. injection He as <-. exists yahooError. split; [reflexivity|].
      right. splits; [exact Hkey|reflexivity|].
      cbn [app] in Hfeq |- *. rewrite Hfeq. eexists. reflexivity.
Qed.

End Providers.

(** The two terminal messages differ in their last letters, whatever the
    symbols. *)
Lemma messages_differ (symbol symbol' : string) :
  unavailableMessage symbol <> allFailedMessage symbol'.
Proof.
  unfold unavailableMessage, allFailedMessage. intros Heq.
  set (A := "Failed to fetch market data for '") in *.
  set (B1 := "'. The symbol may be invalid or not supported by the data provider.") in *.
  set (B2 := "' from all providers. The symbol may be invalid or providers are down.") in *.
  pose proof (f_equal String.length Heq) as Hlen.
  rewrite !length_append in Hlen.
  pose proof (append_correct2 A (symbol ++ B1)%string
                (String.length B1 - 2 + String.length symbol)) as H1.
  rewrite <- (append_correct2 symbol B1 (String.length B1 - 2)) in H1.
  pose proof (append_correct2 A (symbol' ++ B2)%string
                (String.length B2 - 2 + String.length symbol')) as H2.
  rewrite <- (append_correct2 symbol' B2 (String.length B2 - 2)) in H2.
  rewrite Heq in H1.
  replace (String.length B1 - 2 + String.length symbol + String.length A)
    with (String.length B2 - 2 + String.length symbol' + String.length A) in H1.
  2:{ subst A B1 B2. cbn [String.length] in *. lia. }
  rewrite <- H2 in H1. subst B1 B2. vm_compute in H1. discriminate H1.
Qed.

(** C4, as the code has it.  With the credential set and a symbol that ends
    in ".NS", the series operation of the fallback provider throws the
    unsupported-asset error and its quote operation returns null; neither
    issues a network request. *)
Theorem finnhub_refuses_NS `{Host} (net : World) (apiKey stem timeframe : string)
    (h : list Event) :
  apiKey <> "" ->
  let symbol := (stem ++ ".NS")%string in
  fetchMarketDataFromFinnhub net apiKey symbol timeframe h
    = (Throw (Error unsupportedMessage), [EvCall OpFinnhubSeries]) /\
  fetchLivePriceFromFinnhub net apiKey symbol h
    = (Ok None, [EvCall OpFinnhubQuote]) /\
  filter isFetch (snd (fetchMarketDataFromFinnhub net apiKey symbol timeframe h)) = [] /\
  filter isFetch (snd (fetchLivePriceFromFinnhub net apiKey symbol h)) = [].
Proof.
  intros Hkey symbol.
  assert (Hns : endsWith symbol ".NS" = true) by apply endsWith_suffix.
  assert (Hk : (apiKey =? "") = false) by (apply String.eqb_neq; exact Hkey).
  unfold fetchMarketDataFromFinnhub, fetchLivePriceFromFinnhub. run_monad.
  rewrite Hk, Hns. cbn. splits; reflexivity.
Qed.

Lemma FINNHUB_API_KEY_set : FINNHUB_API_KEY <> "".
Proof. discriminate. Qed.

Lemma finnhub_refuses_NS_witness :
  fetchMarketDataFromFinnhub Examples.downWorld FINNHUB_API_KEY "RELIANCE.NS" "Daily" []
    = (Throw (Error unsupportedMessage), [EvCall OpFinnhubSeries]) /\
  fetchLivePriceFromFinnhub Examples.downWorld FINNHUB_API_KEY "RELIANCE.NS" []
    = (Ok None, [EvCall OpFinnhubQuote]).
Proof.
  pose proof (finnhub_refuses_NS Examples.downWorld FINNHUB_API_KEY "RELIANCE"
                "Daily" [] FINNHUB_API_KEY_set) as Hw.
  cbn zeta in Hw. destruct Hw as (Hseries & Hquote & _).
  split; [exact Hseries|exact Hquote].
Defined.

(** C4 as stated fails for the quote operation: on a ".NS" symbol it does not
    throw, it returns null. *)
Lemma fetchLivePriceFromFinnhub_NS_returns_null :
  fetchLivePriceFromFinnhub Examples.downWorld FINNHUB_API_KEY "RELIANCE.NS" []
    = (Ok None, [EvCall OpFinnhubQuote]) /\
  ~ (exists e, fst (fetchLivePriceFromFinnhub Examples.downWorld FINNHUB_API_KEY
                      "RELIANCE.NS" []) = Throw e).
Proof.
  split; [reflexivity|]. intros [e He]. vm_compute in He. discriminate He.
Qed.

(** ** The series *)

Section Series.

Context `{Host}.

Lemma index_Some col i : index (Some col) i = Ok (cellAt col i).
Proof. reflexivity. Qed.

Lemma rowAt_nonempty ts o h l c v i : (rowAt ts o h l c v i =? "") = false.
Proof.
  unfold rowAt. destruct (text (dateOf (cellAt ts i))); reflexivity.
Qed.

Lemma cellAt_in_range col i :
  i < length col -> cellAt col i = VNull \/ exists n, cellAt col i = VNum n.
Proof.
  intros Hi. unfold cellAt.
  destruct (nth_error col i) as [[n|]|] eqn:Hnth; cbn; eauto.
  apply nth_error_None in Hnth. lia.
Qed.

Section PrimaryRows.

Variable q : QuoteArrays.
Variables ts o h l c v : list (option num).
Hypothesis Hopen : q_open q = Some o.
Hypothesis Hhigh : q_high q = Some h.
Hypothesis Hlow : q_low q = Some l.
Hypothesis Hclose : q_close q = Some c.
Hypothesis Hvolume : q_volume q = Some v.
Hypothesis Ho : length o = length ts.
Hypothesis Hh : length h = length ts.
Hypothesis Hl : length l = length ts.
Hypothesis Hc : length c = length ts.
Hypothesis Hdates : datesValid ts o h l c.

(** One row of the primary source. *)
Lemma yahooRow_spec i acc :
  i < length ts ->
  yahooRow q acc (cellAt ts i) i =
  Ok (if retained ts o h l c i
      then (Some (rowAt ts o h l c v i),
            push acc (candleAt ts o h l c i) (volumeAt ts o c v i))
      else (None, acc)).
Proof.
  intros Hi. pose proof (Hdates i) as Hdate.
  unfold yahooRow, retained, rowAt, candleAt, volumeAt in *.
  rewrite Hopen, Hhigh, Hlow, Hclose, Hvolume, !index_Some. cbn [andThen].
  destruct (cellAt_in_range ts i Hi) as [E|[n0 E]]; rewrite E in *;
    [reflexivity|clear E].
  destruct (cellAt_in_range o i ltac:(lia)) as [E|[n1 E]]; rewrite E in *;
    [reflexivity|clear E].
  destruct (cellAt_in_range h i ltac:(lia)) as [E|[n2 E]]; rewrite E in *;
    [reflexivity|clear E].
  destruct (cellAt_in_range l i ltac:(lia)) as [E|[n3 E]]; rewrite E in *;
    [reflexivity|clear E].
  destruct (cellAt_in_range c i ltac:(lia)) as [E|[n4 E]]; rewrite E in *;
    [reflexivity|clear E].
  cbn [isNull isNum andb andThen toFixed text] in *.
  destruct (Hdate eq_refl) as [d ->]. reflexivity.
Qed.

(** The rows of the primary source, from any index on. *)
Lemma mapRows_yahooRow : forall rest i acc,
  (forall k, k < length rest -> nth_error rest k = nth_error ts (i + k)) ->
  mapRows (yahooRow q) rest i acc =
  Ok (map (fun k => if retained ts o h l c k
                    then Some (rowAt ts o h l c v k) else None)
          (seq i (length rest)),
      (fst acc ++ map (candleAt ts o h l c)
                      (filter (retained ts o h l c) (seq i (length rest))),
       snd acc ++ map (volumeAt ts o c v)
                      (filter (retained ts o h l c) (seq i (length rest))))).
Proof.
  induction rest as [|x rest IH]; intros i acc Hnth.
  - cbn. rewrite !app_nil_r. destruct acc; reflexivity.
  - cbn [mapRows length seq map filter].
    assert (Hx : nth_error ts i = Some x).
    { specialize (Hnth 0 ltac:(cbn; lia)). cbn in Hnth.
      rewrite Nat.add_0_r in Hnth. auto. }
    assert (Hi : i < length ts).
    { apply nth_error_Some. rewrite Hx. discriminate. }
    replace (cellVal x) with (cellAt ts i) by (unfold cellAt; now rewrite Hx).
    rewrite (yahooRow_spec i acc Hi). cbn [andThen].
    rewrite IH.
    2:{ intros k Hk. specialize (Hnth (S k) ltac:(cbn; lia)). cbn in Hnth.
        rewrite Hnth. f_equal. lia. }
    cbn [andThen]. destruct (retained ts o h l c i); cbn [fst snd map push].
    + rewrite <- !app_assoc. reflexivity.
    + reflexivity.
Qed.

Lemma filterBoolean_rows idx :
  filterBoolean (map (fun k => if retained ts o h l c k
                               then Some (rowAt ts o h l c v k) else None) idx)
  = map (rowAt ts o h l c v) (filter (retained ts o h l c) idx).
Proof.
  induction idx as [|k idx IH]; [reflexivity|]. cbn [map filter filterBoolean].
  destruct (retained ts o h l c k); cbn [map filterBoolean].
  - rewrite rowAt_nonempty, IH. reflexivity.
  - exact IH.
Qed.

End PrimaryRows.

(** With parallel arrays, an index is retained exactly when it is in range
    and none of its five cells is null. *)
Lemma retained_iff ts o h l c i :
  length o = length ts -> length h = length ts ->
  length l = length ts -> length c = length ts ->
  retained ts o h l c i = true <->
  i < length ts /\
  nth_error ts i <> Some None /\ nth_error o i <> Some None /\
  nth_error h i <> Some None /\ nth_error l i <> Some None /\
  nth_error c i <> Some None.
Proof.
  intros Ho Hh Hl Hc. unfold retained, cellAt.
  destruct (Nat.lt_ge_cases i (length ts)) as [Hi|Hi].
  - destruct (nth_error ts i) as [[?|]|] eqn:E0;
      [| |apply nth_error_None in E0; lia];
    (destruct (nth_error o i) as [[?|]|] eqn:E1;
      [| |apply nth_error_None in E1; lia]);
    (destruct (nth_error h i) as [[?|]|] eqn:E2;
      [| |apply nth_error_None in E2; lia]);
    (destruct (nth_error l i) as [[?|]|] eqn:E3;
      [| |apply nth_error_None in E3; lia]);
    (destruct (nth_error c i) as [[?|]|] eqn:E4;
      [| |apply nth_error_None in E4; lia]);
    cbn; split; try discriminate; try tauto;
    intros; splits; try assumption; discriminate.
  - assert (E : nth_error ts i = None) by (apply nth_error_None; lia).
    rewrite E. cbn. split; [discriminate|]. intros [Hlt _]. lia.
Qed.

(** The normalisation of the payload of the relay, on parallel arrays. *)
Lemma yahooSeries_rows data result q qs ts o h l c v :
  firstResult data = Some result ->
  y_timestamp result = Some ts ->
  y_indicators_quote result = Some (Some (q :: qs)) ->
  q_open q = Some o -> q_high q = Some h -> q_low q = Some l ->
  q_close q = Some c -> q_volume q = Some v ->
  length o = length ts -> length h = length ts ->
  length l = length ts -> length c = length ts ->
  datesValid ts o h l c ->
  let kept := filter (retained ts o h l c) (seq 0 (length ts)) in
  yahooSeries data =
  Ok (mkPayload (header ++ join nl (map (rowAt ts o h l c v) kept))
        (mkChartData (map (candleAt ts o h l c) kept)
                     (map (volumeAt ts o c v) kept))).
Proof.
  intros Hres Hts Hq Hopen Hhigh Hlow Hclose Hvol Ho Hh Hl Hc Hdates kept.
  unfold yahooSeries, firstQuote. rewrite Hres, Hts, Hq. cbn [andThen].
  rewrite Hopen.
  rewrite (mapRows_yahooRow q ts o h l c v Hopen Hhigh Hlow Hclose Hvol
             Ho Hh Hl Hc Hdates ts 0 ([], [])) by (intros; reflexivity).
  cbn [andThen fst snd app]. rewrite filterBoolean_rows. reflexivity.
Qed.

End Series.

(** C5, as the code has it.  When the relay has returned a payload of
    parallel arrays (nulls allowed anywhere) in which the timestamp of every
    row to retain is within the range of Date, the primary provider
    returns one candle, one volume point and one CSV row for each index whose
    timestamp and four prices are all non-null, in the order of the payload,
    and for no other index; the volume of a retained index is 0 when its cell
    is null; the CSV text is the header followed by these rows. *)
Theorem fetchMarketDataFromYahoo_rows `{Host} (net : World)
    (symbol timeframe : string) (hist : list Event) (data : Body)
    (result : YResult) (q : QuoteArrays) (qs : list QuoteArrays)
    (ts o h l c v : list (option num)) :
  fst (yahooFinanceFetch net
         (chartUrl symbol (fst (yahooSpan timeframe)) (snd (yahooSpan timeframe)))
         (hist ++ [EvCall OpYahooSeries])) = Ok data ->
  firstResult data = Some result ->
  y_timestamp result = Some ts ->
  y_indicators_quote result = Some (Some (q :: qs)) ->
  q_open q = Some o -> q_high q = Some h -> q_low q = Some l ->
  q_close q = Some c -> q_volume q = Some v ->
  length o = length ts -> length h = length ts ->
  length l = length ts -> length c = length ts ->
  datesValid ts o h l c ->
  exists kept,
    fst (fetchMarketDataFromYahoo net symbol timeframe hist) =
      Ok (mkPayload (header ++ join nl (map (rowAt ts o h l c v) kept))
            (mkChartData (map (candleAt ts o h l c) kept)
                         (map (volumeAt ts o c v) kept))) /\
    kept = filter (retained ts o h l c) (seq 0 (length ts)) /\
    (forall i, In i kept <->
       i < length ts /\
       nth_error ts i <> Some None /\ nth_error o i <> Some None /\
       nth_error h i <> Some None /\ nth_error l i <> Some None /\
       nth_error c i <> Some None) /\
    (forall i, In i kept -> nth_error v i = Some None ->
       v_value (volumeAt ts o c v i) = VNum num_zero) /\
    length (map (rowAt ts o h l c v) kept)
      = length (map (candleAt ts o h l c) kept).
Proof.
  intros Hrelay Hres Hts Hq Hopen Hhigh Hlow Hclose Hvol Ho Hh Hl Hc Hdates.
  exists (filter (retained ts o h l c) (seq 0 (length ts))). splits.
  - rewrite fetchMarketDataFromYahoo_eq. cbn zeta. cbn [fst].
    rewrite Hrelay. cbn [andThen].
    exact (yahooSeries_rows data result q qs ts o h l c v Hres Hts Hq Hopen
             Hhigh Hlow Hclose Hvol Ho Hh Hl Hc Hdates).
  - reflexivity.
  - intros i. rewrite filter_In, in_seq, (retained_iff ts o h l c i Ho Hh Hl Hc).
    split; [tauto|]. intros Hi. split; [lia|exact Hi].
  - intros i _ Hv. unfold volumeAt, cellAt. cbn. rewrite Hv. reflexivity.
  - rewrite !length_map. reflexivity.
Qed.

Lemma fourBars_datesValid :
  datesValid
    (IntegerHost.cells [1704153600; 1704240000; 1704326400; 1704412800]%Z)
    (IntegerHost.cells [10; 11; 12; 13]%Z) (IntegerHost.cells [15; 16; 17; 18]%Z)
    (IntegerHost.cells [9; 10; 11; 12]%Z)
    [Some (IntegerHost.Int 12); Some (IntegerHost.Int 10); None;
     Some (IntegerHost.Int 14)].
Proof.
  intros i Hi.
  destruct i as [|[|[|[|i]]]]; try (eexists; reflexivity); try discriminate Hi.
  destruct i; discriminate Hi.
Qed.

(** The scenario of the specification: three valid rows and one with a null
    close give three candles, three volume points, and a text of four lines,
    the header and three rows. *)
Lemma fetchMarketDataFromYahoo_rows_witness :
  exists p,
    fst (fetchMarketDataFromYahoo Examples.goodWorld "ABC" "Daily" []) = Ok p /\
    length (candlestickData (chartData p)) = 3 /\
    length (volumeData (chartData p)) = 3 /\
    length (splitLines (csv p)) = 4.
Proof.
  destruct (fetchMarketDataFromYahoo_rows Examples.goodWorld "ABC" "Daily" []
              Examples.yahooBody Examples.fourBars _ [] _ _ _ _ _ _
              eq_refl eq_refl eq_refl eq_refl eq_refl eq_refl eq_refl eq_refl
              eq_refl eq_refl eq_refl eq_refl eq_refl fourBars_datesValid)
    as (kept & Hp & Hkept & _).
  subst kept. eexists. split; [exact Hp|]. vm_compute. auto.
Defined.

(** C5 as stated fails where a row to retain has a timestamp that is no
    date: on a payload of one row with its timestamp and four prices
    present, [toISOString] throws a RangeError and the call returns no
    series, so the row does not appear in the output. *)
Lemma fetchMarketDataFromYahoo_late_timestamp_throws :
  retained (IntegerHost.cells [9000000000000]%Z) (IntegerHost.cells [10]%Z)
    (IntegerHost.cells [15]%Z) (IntegerHost.cells [9]%Z)
    (IntegerHost.cells [12]%Z) 0 = true /\
  fst (fetchMarketDataFromYahoo EdgeCases.lateWorld "ABC" "Daily" [])
    = Throw (RangeError "Invalid time value") /\
  ~ (exists p,
       fst (fetchMarketDataFromYahoo EdgeCases.lateWorld "ABC" "Daily" []) = Ok p /\
       length (candlestickData (chartData p)) = 1).
Proof.
  assert (Hthrow :
    fst (fetchMarketDataFromYahoo EdgeCases.lateWorld "ABC" "Daily" [])
    = Throw (RangeError "Invalid time value")) by reflexivity.
  splits; [reflexivity|exact Hthrow|].
  intros (p & Hp & _). rewrite Hthrow in Hp. discriminate Hp.
Qed.

Section FallbackRows.

Context `{Host}.

Variable d : FinnhubCandles.

Let t := colOf (f_t d).
Let o := colOf (f_o d).
Let h := colOf (f_h d).
Let l := colOf (f_l d).
Let c := colOf (f_c d).
Let v := colOf (f_v d).

(** One row of the fallback source, when its callback returns. *)
Lemma finnhubRow_Ok acc i row acc' :
  finnhubRow d acc (cellAt t i) i = Ok (row, acc') ->
  acc' = push acc (candleAt t o h l c i) (volumeAt t o c v i) /\ priced d i.
Proof.
  unfold finnhubRow, priced, candleAt, volumeAt, index, t, o, h, l, c, v, cellAt.
  destruct (dateOf _) as [date|e]; cbn [andThen]; [|discriminate].
  destruct (f_o d) as [oc|]; cbn [andThen colOf]; [|discriminate].
  destruct (f_h d) as [hc|]; cbn [andThen colOf]; [|discriminate].
  destruct (f_l d) as [lc|]; cbn [andThen colOf]; [|discriminate].
  destruct (f_c d) as [cc|]; cbn [andThen colOf]; [|discriminate].
  destruct (f_v d) as [vc|]; cbn [andThen colOf]; [|discriminate].
  destruct (nth_error oc i) as [[?|]|]; cbn; try discriminate;
  destruct (nth_error hc i) as [[?|]|]; cbn; try discriminate;
  destruct (nth_error lc i) as [[?|]|]; cbn; try discriminate;
  destruct (nth_error cc i) as [[?|]|]; cbn; try discriminate;
  intros Heq; injection Heq as _ <-; auto.
Qed.

(** The rows of the fallback source, from any index on, when the map
    returns: one candle and one volume point for each index. *)
Lemma mapRows_finnhubRow : forall rest i acc rows acc',
  (forall k, k < length rest -> nth_error rest k = nth_error t (i + k)) ->
  mapRows (finnhubRow d) rest i acc = Ok (rows, acc') ->
  acc' = (fst acc ++ map (candleAt t o h l c) (seq i (length rest)),
          snd acc ++ map (volumeAt t o c v) (seq i (length rest))) /\
  length rows = length rest /\
  (forall k, i <= k < i + length rest -> priced d k).
Proof.
  induction rest as [|x rest IH]; intros i acc rows acc' Hnth Hmap.
  - cbn in Hmap. injection Hmap as <- <-. cbn. rewrite !app_nil_r.
    splits; [destruct acc; reflexivity|reflexivity|intros k Hk; lia].
  - cbn [mapRows] in Hmap.
    assert (Hx : nth_error t i = Some x).
    { specialize (Hnth 0 ltac:(cbn; lia)). cbn in Hnth.
      rewrite Nat.add_0_r in Hnth. auto. }
    replace (cellVal x) with (cellAt t i) in Hmap
      by (unfold cellAt; now rewrite Hx).
    destruct (finnhubRow d acc (cellAt t i) i) as [[row acc1]|e] eqn:Hrow;
      cbn [andThen] in Hmap; [|discriminate].
    apply finnhubRow_Ok in Hrow. destruct Hrow as [-> Hpriced].
    cbn [fst snd] in Hmap.
    destruct (mapRows (finnhubRow d) rest (S i) _) as [[rows1 acc2]|e] eqn:Hrest;
      cbn [andThen] in Hmap; [|discriminate].
    injection Hmap as <- <-.
    apply IH in Hrest.
    2:{ intros k Hk. specialize (Hnth (S k) ltac:(cbn; lia)). cbn in Hnth.
        rewrite Hnth. f_equal. lia. }
    destruct Hrest as (-> & Hlen & Hall). cbn [fst snd push length seq map].
    splits.
    + rewrite <- !app_assoc. reflexivity.
    + cbn. lia.
    + intros k Hk. destruct (Nat.eq_dec k i) as [->|Hne]; [exact Hpriced|].
      apply Hall. lia.
Qed.

End FallbackRows.

(** ** The times of a series *)

Section Times.

Context `{Host}.

(** The order of the times. *)
Variable R : num -> num -> Prop.
Hypothesis R_trans : forall x y z, R x y -> R y z -> R x z.

Lemma StronglySorted_remove (a : list num) (n : num) (b : list num) :
  StronglySorted R (a ++ n :: b) -> StronglySorted R (a ++ b).
Proof.
  induction a as [|x a IH]; cbn; intros Hs.
  - inversion Hs; assumption.
  - inversion Hs as [|? ? Hrest Hall]; subst. constructor; [auto|].
    rewrite Forall_app in *. destruct Hall as [Ha Hb].
    split; [exact Ha|]. inversion Hb; assumption.
Qed.

Lemma yahooRow_Ok q acc ts i row acc' :
  yahooRow q acc ts i = Ok (row, acc') ->
  acc' = acc \/
  exists n cd vd, ts = VNum n /\ acc' = push acc cd vd /\
                  c_time cd = ts /\ v_time vd = ts.
Proof.
  unfold yahooRow, dateOf. intros Hrow.
  destruct ts as [n| |]; cbn [isNull toNumber andThen] in Hrow.
  - repeat match type of Hrow with
           | context [isNull ?x] =>
               destruct x; cbn [isNull andThen] in Hrow
           | context [index ?col i] =>
               destruct (index col i); cbn [andThen] in Hrow
           | context [isoDate ?x] =>
               destruct (isoDate x); cbn [andThen] in Hrow
           | context [toFixed ?x] =>
               destruct (toFixed x); cbn [andThen] in Hrow
           | Ok _ = Ok _ => injection Hrow as _ <-
           | Throw _ = Ok _ => discriminate Hrow
           end; auto;
    right; do 3 eexists; splits; reflexivity.
  - injection Hrow as _ <-. auto.
  - repeat match type of Hrow with
           | context [isNull ?x] =>
               destruct x; cbn [isNull andThen] in Hrow
           | context [index ?col i] =>
               destruct (index col i); cbn [andThen] in Hrow
           | Ok _ = Ok _ => injection Hrow as _ <-
           | Throw _ = Ok _ => discriminate Hrow
           end; auto.
Qed.

(** The candle times stay ascending, and the volume times stay equal to
    them, along the rows of the primary source. *)
Lemma mapRows_yahooRow_times q : forall cells i acc rows acc' ns,
  mapRows (yahooRow q) cells i acc = Ok (rows, acc') ->
  map c_time (fst acc) = map VNum ns ->
  map v_time (snd acc) = map c_time (fst acc) ->
  StronglySorted R (ns ++ somes cells) ->
  exists ns',
    map c_time (fst acc') = map VNum ns' /\
    map v_time (snd acc') = map c_time (fst acc') /\
    StronglySorted R ns'.
Proof.
  induction cells as [|x cells IH]; intros i acc rows acc' ns Hmap Hc Hv Hs.
  - cbn in Hmap. injection Hmap as _ <-. exists ns.
    cbn in Hs. rewrite app_nil_r in Hs. auto.
  - cbn [mapRows] in Hmap.
    destruct (yahooRow q acc (cellVal x) i) as [[row acc1]|e] eqn:Hrow;
      cbn [andThen fst snd] in Hmap; [|discriminate].
    destruct (mapRows (yahooRow q) cells (S i) acc1) as [[rows1 acc2]|e] eqn:Hrest;
      cbn [andThen fst snd] in Hmap; [|discriminate].
    injection Hmap as _ <-.
    apply yahooRow_Ok in Hrow.
    destruct Hrow as [->|(n & cd & vd & Hx & -> & Hcd & Hvd)].
    + apply (IH _ _ _ _ ns Hrest Hc Hv).
      destruct x as [n|]; cbn in Hs; [|exact Hs].
      apply (StronglySorted_remove ns n). exact Hs.
    + destruct x as [n'|]; cbn in Hx; [injection Hx as ->|discriminate Hx].
      apply (IH _ _ _ _ (ns ++ [n]) Hrest).
      * cbn [push fst]. rewrite !map_app. cbn [map]. rewrite Hc, Hcd. reflexivity.
      * cbn [push fst snd]. rewrite !map_app. cbn [map].
        rewrite Hv, Hcd, Hvd. reflexivity.
      * rewrite <- app_assoc. exact Hs.
Qed.

Lemma cellAt_seq (cells : list (option num)) :
  map (cellAt cells) (seq 0 (length cells)) = map cellVal cells.
Proof.
  apply nth_error_ext. intros n.
  rewrite !nth_error_map.
  destruct (Nat.lt_ge_cases n (length cells)) as [Hn|Hn].
  - rewrite nth_error_seq. destruct (Nat.ltb_spec n (length cells)); [|lia].
    cbn. unfold cellAt.
    destruct (nth_error cells n) eqn:E; [reflexivity|].
    apply nth_error_None in E. lia.
  - assert (E1 : nth_error (seq 0 (length cells)) n = None)
      by (apply nth_error_None; rewrite length_seq; lia).
    assert (E2 : nth_error cells n = None) by (apply nth_error_None; lia).
    rewrite E1, E2. reflexivity.
Qed.

End Times.

Section Sources.

Context `{Host}.
Variable net : World.

(** A payload returned by the relay was sent by the network. *)
Lemma yahooFinanceFetch_Ok url h data :
  fst (yahooFinanceFetch net url h) = Ok data ->
  exists h' url', validPayload (net h' url') data.
Proof.
  intros Hok.
  pose proof (relayLoop_run net url h PROXIES [] [] None (failed_none net url h))
    as Hrun.
  cbn zeta in Hrun. rewrite app_nil_r in Hrun.
  fold (yahooFinanceFetch net url) in Hrun.
  destruct Hrun as [(ps & p & rest & data' & evs & _ & _ & Hv & Hres & _)
                   |(evs & last & _ & Hres & _)].
  - rewrite Hok in Hres. injection Hres as ->. eauto.
  - rewrite Hok in Hres. discriminate Hres.
Qed.

(** A payload returned by the fallback provider is the normalisation of a
    body that the network sent for its one request. *)
Lemma fetchMarketDataFromFinnhub_Ok apiKey symbol timeframe h payload :
  fst (fetchMarketDataFromFinnhub net apiKey symbol timeframe h) = Ok payload ->
  exists r data,
    outcome (net (h ++ [EvCall OpFinnhubSeries])
                 (candleUrl apiKey (mapSymbolForFinnhub symbol) timeframe))
      = FetchResolved r /\
    resp_ok r = true /\ resp_json r = Some data /\
    finnhubSeries (mapSymbolForFinnhub symbol) data = Ok payload.
Proof.
  unfold fetchMarketDataFromFinnhub, fetch. run_monad.
  destruct (apiKey =? ""); [discriminate|].
  destruct (endsWith symbol ".NS"); [discriminate|]. cbn.
  destruct (outcome _) as [e|r]; [discriminate|].
  destruct (resp_ok r) eqn:Hok; cbn; [|discriminate].
  destruct (resp_json r) as [data|] eqn:Hjson; cbn; [|discriminate].
  destruct (finnhubSeries (mapSymbolForFinnhub symbol) data) as [p|e] eqn:Hs;
    cbn; [|discriminate].
  intros Heq. injection Heq as <-. exists r, data. auto.
Qed.

(** The normalisation of the fallback source, when it returns. *)
Lemma finnhubSeries_Ok finnhubSymbol data payload :
  finnhubSeries finnhubSymbol data = Ok payload ->
  exists d t rows,
    data = BodyCandles d /\ f_t d = Some t /\ t <> [] /\
    length rows = length t /\
    payload =
      mkPayload (header ++ join nl rows)
        (mkChartData
           (map (candleAt t (colOf (f_o d)) (colOf (f_h d)) (colOf (f_l d))
                          (colOf (f_c d)))
                (seq 0 (length t)))
           (map (volumeAt t (colOf (f_o d)) (colOf (f_c d)) (colOf (f_v d)))
                (seq 0 (length t)))) /\
    (forall i, i < length t -> priced d i).
Proof.
  unfold finnhubSeries, candlesOf, noData.
  destruct data as [|chart|d|price]; cbn [andThen]; try discriminate.
  destruct (match f_s d with Some s => s =? "no_data" | None => false end);
    cbn [orb]; [discriminate|].
  destruct (f_t d) as [t|] eqn:Ht; [|discriminate].
  destruct t as [|x t]; [discriminate|]. cbn [length Nat.eqb].
  destruct (mapRows (finnhubRow d) (x :: t) 0 ([], [])) as [[rows acc]|e] eqn:Hrows;
    cbn [andThen]; [|discriminate].
  intros Heq. injection Heq as <-.
  apply mapRows_finnhubRow in Hrows.
  2:{ rewrite Ht. intros k _. reflexivity. }
  rewrite Ht in Hrows. cbn [colOf] in Hrows.
  destruct Hrows as (-> & Hlen & Hpriced).
  exists d, (x :: t), rows. splits; auto; try discriminate.
  intros i Hi. apply Hpriced. lia.
Qed.

(** The fallback path filters no row: whenever it returns a series, the
    series has one candle and one volume point for each element of the
    timestamp array of the body the network sent, in order, and the four
    prices of every index are numbers. *)
Theorem fetchMarketDataFromFinnhub_rows (apiKey symbol timeframe : string)
    (hist : list Event) (payload : MarketDataPayload) :
  fst (fetchMarketDataFromFinnhub net apiKey symbol timeframe hist) = Ok payload ->
  exists r d t rows,
    outcome (net (hist ++ [EvCall OpFinnhubSeries])
                 (candleUrl apiKey (mapSymbolForFinnhub symbol) timeframe))
      = FetchResolved r /\
    resp_json r = Some (BodyCandles d) /\ f_t d = Some t /\
    candlestickData (chartData payload) =
      map (candleAt t (colOf (f_o d)) (colOf (f_h d)) (colOf (f_l d))
                    (colOf (f_c d)))
          (seq 0 (length t)) /\
    volumeData (chartData payload) =
      map (volumeAt t (colOf (f_o d)) (colOf (f_c d)) (colOf (f_v d)))
          (seq 0 (length t)) /\
    length (candlestickData (chartData payload)) = length t /\
    length (volumeData (chartData payload)) = length t /\
    map c_time (candlestickData (chartData payload)) = map cellVal t /\
    csv payload = (header ++ join nl rows)%string /\ length rows = length t /\
    (forall i, i < length t -> priced d i).
Proof.
  intros Hok.
  apply fetchMarketDataFromFinnhub_Ok in Hok.
  destruct Hok as (r & data & Hout & _ & Hjson & Hseries).
  apply finnhubSeries_Ok in Hseries.
  destruct Hseries as (d & t & rows & -> & Ht & _ & Hlen & -> & Hpriced).
  exists r, d, t, rows. cbn [candlestickData volumeData chartData csv].
  splits; auto.
  - rewrite length_map, length_seq. reflexivity.
  - rewrite length_map, length_seq. reflexivity.
  - rewrite map_map. cbn [c_time candleAt]. apply cellAt_seq.
Qed.

End Sources.

Lemma fetchMarketDataFromFinnhub_rows_witness :
  exists p,
    fst (fetchMarketDataFromFinnhub Examples.slowWorld FINNHUB_API_KEY "^GSPC"
           "Weekly" []) = Ok p /\
    length (candlestickData (chartData p)) = 2 /\
    length (volumeData (chartData p)) = 2.
Proof.
  let x := eval vm_compute in
    (fst (fetchMarketDataFromFinnhub Examples.slowWorld FINNHUB_API_KEY
            "^GSPC" "Weekly" [])) in
  match x with Ok ?p => exists p end.
  match goal with
  | |- _ = Ok ?p /\ _ =>
      assert (Hrun : fst (fetchMarketDataFromFinnhub Examples.slowWorld
                            FINNHUB_API_KEY "^GSPC" "Weekly" []) = Ok p)
        by reflexivity
  end.
  split; [exact Hrun|].
  destruct (fetchMarketDataFromFinnhub_rows Examples.slowWorld FINNHUB_API_KEY
              "^GSPC" "Weekly" [] _ Hrun)
    as (r & d & t & rows & Hout & Hjson & Ht & _ & _ & Hc & Hv & _).
  assert (Hsent :
    outcome (Examples.slowWorld ([] ++ [EvCall OpFinnhubSeries])
               (candleUrl (H:=IntegerHost.host) FINNHUB_API_KEY
                  (mapSymbolForFinnhub (H:=IntegerHost.host) "^GSPC") "Weekly"))
    = FetchResolved (Examples.answer (BodyCandles Examples.twoBars)))
    by reflexivity.
  rewrite Hsent in Hout. injection Hout as <-.
  change (Some (BodyCandles Examples.twoBars) = Some (BodyCandles d)) in Hjson.
  injection Hjson as <-.
  change (Some (IntegerHost.cells [1704153600; 1704240000]%Z) = Some t) in Ht.
  injection Ht as <-.
  split; [exact Hc|exact Hv].
Defined.

(** C10.  The fallback path does not pass a row with a null price through.
    On a payload of two rows whose second close is null, [c[i].toFixed(2)]
    throws a TypeError: the call returns no series at all, where the primary
    path skips such a row. *)
Lemma fetchMarketDataFromFinnhub_null_close_throws :
  fst (fetchMarketDataFromFinnhub Examples.slowWorldNullClose FINNHUB_API_KEY
         "ABC" "Daily" [])
    = Throw (TypeError "Cannot read properties of null") /\
  ~ (exists p,
       fst (fetchMarketDataFromFinnhub Examples.slowWorldNullClose
              FINNHUB_API_KEY "ABC" "Daily" []) = Ok p /\
       length (candlestickData (chartData p)) = 2).
Proof.
  assert (Hthrow :
    fst (fetchMarketDataFromFinnhub Examples.slowWorldNullClose FINNHUB_API_KEY
           "ABC" "Daily" [])
    = Throw (TypeError "Cannot read properties of null")) by reflexivity.
  split; [exact Hthrow|].
  intros (p & Hp & _). rewrite Hthrow in Hp. discriminate Hp.
Qed.

Section SeriesTimes.

Context `{Host}.
Variable net : World.
Variable R : num -> num -> Prop.
Hypothesis R_trans : forall x y z, R x y -> R y z -> R x z.
Hypothesis Hnet : upstreamAscending R net.

Lemma yahooSeries_times data payload :
  bodyAscending R data ->
  yahooSeries data = Ok payload ->
  ascending R (map c_time (candlestickData (chartData payload))) /\
  map v_time (volumeData (chartData payload))
    = map c_time (candlestickData (chartData payload)).
Proof.
  intros [Hasc _]. unfold yahooSeries.
  destruct (firstResult data) as [result|] eqn:Hres; [|discriminate].
  destruct (y_timestamp result) as [ts|] eqn:Hts; [|discriminate].
  destruct (firstQuote result) as [q|e]; cbn [andThen]; [|discriminate].
  destruct (q_open q); [|discriminate].
  destruct (mapRows (yahooRow q) ts 0 ([], [])) as [[rows acc]|e] eqn:Hrows;
    cbn [andThen]; [|discriminate].
  intros Heq. injection Heq as <-. cbn [candlestickData volumeData chartData snd].
  destruct (mapRows_yahooRow_times R q ts 0 ([], []) rows acc [] Hrows
              eq_refl eq_refl) as (ns & Hc & Hv & Hs).
  { cbn [app]. apply Sorted_StronglySorted; [exact R_trans|].
    exact (Hasc result ts eq_refl Hts). }
  split; [|exact Hv].
  exists ns. split; [exact Hc|]. apply StronglySorted_Sorted. exact Hs.
Qed.

Lemma fetchMarketDataFromYahoo_times symbol timeframe h payload :
  fst (fetchMarketDataFromYahoo net symbol timeframe h) = Ok payload ->
  ascending R (map c_time (candlestickData (chartData payload))) /\
  map v_time (volumeData (chartData payload))
    = map c_time (candlestickData (chartData payload)).
Proof.
  rewrite fetchMarketDataFromYahoo_eq. cbn zeta. cbn [fst].
  destruct (fst (yahooFinanceFetch net _ (h ++ [EvCall OpYahooSeries])))
    as [data|e] eqn:Hrelay; cbn [andThen]; [|discriminate].
  intros Hseries. apply yahooFinanceFetch_Ok in Hrelay.
  destruct Hrelay as (h' & url' & _ & r & chart & Hout & _ & Hjson & _).
  exact (yahooSeries_times data payload (Hnet h' url' r data Hout Hjson) Hseries).
Qed.

Lemma fetchMarketDataFromFinnhub_times apiKey symbol timeframe h payload :
  fst (fetchMarketDataFromFinnhub net apiKey symbol timeframe h) = Ok payload ->
  ascending R (map c_time (candlestickData (chartData payload))) /\
  map v_time (volumeData (chartData payload))
    = map c_time (candlestickData (chartData payload)).
Proof.
  intros Hok. apply fetchMarketDataFromFinnhub_Ok in Hok.
  destruct Hok as (r & data & Hout & _ & Hjson & Hseries).
  apply finnhubSeries_Ok in Hseries.
  destruct Hseries as (d & t & rows & -> & Ht & _ & _ & -> & _).
  cbn [candlestickData volumeData chartData]. rewrite !map_map.
  cbn [c_time v_time candleAt volumeAt]. split; [|reflexivity].
  rewrite cellAt_seq.
  destruct (Hnet _ _ r (BodyCandles d) Hout Hjson) as [_ Hasc].
  exact (Hasc d t eq_refl Ht).
Qed.

End SeriesTimes.

(** C6.  When what the sources send is ascending in time, every series that
    the orchestrator returns, from either provider, has candle times that
    are numbers in strictly ascending order; its volume points are as many
    as its candles and carry the same times, element for element. *)
Theorem fetchMarketData_times `{Host} (net : World) (R : num -> num -> Prop)
    (apiKey symbol timeframe : string) (h : list Event)
    (payload : MarketDataPayload) :
  (forall x y z, R x y -> R y z -> R x z) ->
  upstreamAscending R net ->
  fst (fetchMarketData net apiKey symbol timeframe h) = Ok payload ->
  ascending R (map c_time (candlestickData (chartData payload))) /\
  length (volumeData (chartData payload))
    = length (candlestickData (chartData payload)) /\
  map v_time (volumeData (chartData payload))
    = map c_time (candlestickData (chartData payload)).
Proof.
  intros R_trans Hnet. rewrite fetchMarketData_eq. cbn zeta.
  assert (Hgoal : forall p : MarketDataPayload,
    ascending R (map c_time (candlestickData (chartData p))) /\
    map v_time (volumeData (chartData p))
      = map c_time (candlestickData (chartData p)) ->
    ascending R (map c_time (candlestickData (chartData p))) /\
    length (volumeData (chartData p)) = length (candlestickData (chartData p)) /\
    map v_time (volumeData (chartData p))
      = map c_time (candlestickData (chartData p))).
  { intros p [Ha Ht]. splits; auto.
    rewrite <- (length_map v_time), Ht, length_map. reflexivity. }
  destruct (fst (fetchMarketDataFromYahoo net symbol timeframe
                   (h ++ [logAttempt symbol]))) as [p|yahooError] eqn:Hy.
  - cbn [fst]. intros Heq. injection Heq as <-. apply Hgoal.
    exact (fetchMarketDataFromYahoo_times net R R_trans Hnet _ _ _ _ Hy).
  - destruct (apiKey =? ""); [discriminate|].
    destruct (fst (fetchMarketDataFromFinnhub net apiKey symbol timeframe _))
      as [p|finnhubError] eqn:Hf; cbn [fst]; [|discriminate].
    intros Heq. injection Heq as <-. apply Hgoal.
    exact (fetchMarketDataFromFinnhub_times net R Hnet _ _ _ _ _ Hf).
Qed.

Lemma IntegerHost_lt_trans (x y z : IntegerHost.intNum) :
  IntegerHost.lt x y -> IntegerHost.lt y z -> IntegerHost.lt x z.
Proof. destruct x, y, z; cbn; try tauto. lia. Qed.

Lemma slowWorld_ascending :
  upstreamAscending (H:=IntegerHost.host) IntegerHost.lt Examples.slowWorld.
Proof.
  intros h url r data Hout Hjson. unfold Examples.slowWorld in Hout.
  destruct (Examples.isFinnhub url); cbn in Hout; injection Hout as <-;
    cbn in Hjson; injection Hjson as <-; split.
  - intros result ts Hres. discriminate Hres.
  - intros d t Hd Ht. injection Hd as <-. cbn in Ht. injection Ht as <-.
    exists [IntegerHost.Int 1704153600; IntegerHost.Int 1704240000].
    split; [reflexivity|]. repeat constructor.
  - intros result ts Hres Hts. cbn in Hres. injection Hres as <-.
    cbn in Hts. injection Hts as <-. cbn. repeat constructor.
  - intros d t Hd. discriminate Hd.
Qed.

Lemma fetchMarketData_times_witness :
  exists p,
    fst (fetchMarketData Examples.slowWorld FINNHUB_API_KEY "^GSPC" "Weekly" [])
      = Ok p /\
    ascending (H:=IntegerHost.host) IntegerHost.lt
      (map c_time (candlestickData (chartData p))) /\
    length (volumeData (chartData p)) = length (candlestickData (chartData p)) /\
    map v_time (volumeData (chartData p))
      = map c_time (candlestickData (chartData p)).
Proof.
  let x := eval vm_compute in
    (fst (fetchMarketData Examples.slowWorld FINNHUB_API_KEY "^GSPC" "Weekly" []))
  in match x with Ok ?p => exists p end.
  match goal with
  | |- _ = Ok ?p /\ _ =>
      assert (Hrun : fst (fetchMarketData Examples.slowWorld FINNHUB_API_KEY
                            "^GSPC" "Weekly" []) = Ok p) by reflexivity
  end.
  split; [exact Hrun|].
  exact (fetchMarketData_times (H:=IntegerHost.host) Examples.slowWorld
           IntegerHost.lt FINNHUB_API_KEY
           "^GSPC" "Weekly" [] _ IntegerHost_lt_trans slowWorld_ascending Hrun).
Defined.

(** ** The live price poller *)

Lemma run_app os1 os2 a : run (os1 ++ os2) a = run os2 (run os1 a).
Proof. unfold run. apply fold_left_app. Qed.

Lemma step_isHalted o a :
  polling [o] -> isHalted a ->
  isHalted (step o a) /\ fetches (step o a) = fetches a.
Proof.
  intros Hpoll (Hp & Ht & Hh & He). inversion Hpoll as [|o' os' Ho _]; subst.
  destruct a as [pi cnt lp hlt tms infl fet hem]. cbn in Hp, Ht, Hh, He. subst.
  destruct o as [|sym id|id|r]; try contradiction; cbn [step].
  - cbn. unfold isHalted. auto.
  - cbn [inFlight]. destruct infl as [|n]; [unfold isHalted; auto|].
    destruct r as [newPrice|e]; [|unfold isHalted; cbn; auto].
    unfold resume. cbn -[Nat.leb].
    destruct (match newPrice with Some p => negb (p =? "") | None => false end).
    + unfold isHalted. cbn. auto.
    + destruct (5 <=? S cnt)%nat; unfold isHalted; cbn; auto.
Qed.

Lemma step_isRunning o a id :
  polling [o] -> isRunning a id ->
  isRunning (step o a) id \/ isHalted (step o a).
Proof.
  intros Hpoll (Hp & Hid & Ht & Hc & Hh & He).
  inversion Hpoll as [|o' os' Ho _]; subst.
  destruct a as [pi cnt lp hlt tms infl fet hem]. cbn in Hp, Ht, Hc, Hh, He. subst.
  destruct o as [|sym id'|id'|r]; try contradiction; cbn [step].
  - left. cbn [timers]. destruct (existsb (Nat.eqb id') [id]);
      unfold isRunning, tick; cbn; auto 10.
  - cbn [inFlight]. destruct infl as [|n]; [left; unfold isRunning; auto 10|].
    destruct r as [newPrice|e]; [|left; unfold isRunning; cbn; auto 10].
    unfold resume. cbn -[Nat.leb].
    destruct (match newPrice with Some p => negb (p =? "") | None => false end).
    + left. unfold isRunning. cbn. splits; auto. lia.
    + destruct (Nat.leb_spec 5 (S cnt)).
      * right. unfold stopPolling, currentInterval. cbn.
        destruct (Nat.eqb_spec id 0); [contradiction|].
        unfold isHalted. cbn. rewrite Nat.eqb_refl. auto.
      * left. unfold isRunning. cbn. auto 10.
Qed.

Lemma run_isHalted os : forall a,
  polling os -> isHalted a ->
  isHalted (run os a) /\ fetches (run os a) = fetches a.
Proof.
  induction os as [|o os IH]; intros a Hpoll Hhalted; [cbn; auto|].
  inversion Hpoll as [|o' os' Ho Hos]; subst.
  destruct (step_isHalted o a ltac:(constructor; auto) Hhalted) as [Hh Hf].
  destruct (IH (step o a) Hos Hh) as [Hh' Hf'].
  cbn. split; [exact Hh'|]. unfold run in Hf'. rewrite Hf'. exact Hf.
Qed.

Lemma run_isRunning os : forall a id,
  polling os -> isRunning a id ->
  isRunning (run os a) id \/ isHalted (run os a).
Proof.
  induction os as [|o os IH]; intros a id Hpoll Hrun; [left; exact Hrun|].
  inversion Hpoll as [|o' os' Ho Hos]; subst.
  destruct (step_isRunning o a id ltac:(constructor; auto) Hrun) as [Hr|Hh].
  - exact (IH (step o a) id Hos Hr).
  - right. exact (proj1 (run_isHalted os (step o a) Hos Hh)).
Qed.

Lemma pollOnce_failure id cnt lp fet :
  id <> 0 ->
  run (pollOnce id (Ok None)) (mkApp (Some id) cnt lp false [id] 0 fet 0) =
  if (5 <=? S cnt)%nat then mkApp None 0 lp true [] 0 (S fet) 1
  else mkApp (Some id) (S cnt) lp false [id] 0 (S fet) 0.
Proof.
  intros Hid. unfold run, pollOnce. cbn [fold_left step timers existsb].
  rewrite Nat.eqb_refl. cbn [orb tick inFlight priceUpdateInterval
    pollingFailureCount livePrice isPollingHalted timers fetches haltedEmitted].
  unfold resume. cbn [pollingFailureCount priceUpdateInterval livePrice
    isPollingHalted timers inFlight fetches haltedEmitted].
  destruct (5 <=? S cnt)%nat; [|reflexivity].
  unfold stopPolling, currentInterval. cbn [priceUpdateInterval].
  destruct (Nat.eqb_spec id 0); [contradiction|].
  cbn. rewrite Nat.eqb_refl. reflexivity.
Qed.

Lemma pollOnce_success id cnt lp fet p :
  p <> "" ->
  run (pollOnce id (Ok (Some p))) (mkApp (Some id) cnt lp false [id] 0 fet 0) =
  mkApp (Some id) 0 (Some p) false [id] 0 (S fet) 0.
Proof.
  intros Hp. unfold run, pollOnce. cbn [fold_left step timers existsb].
  rewrite Nat.eqb_refl. cbn [orb tick inFlight priceUpdateInterval
    pollingFailureCount livePrice isPollingHalted timers fetches haltedEmitted].
  unfold resume. destruct (String.eqb_spec p ""); [contradiction|]. reflexivity.
Qed.

Lemma failures_below id lp fet k :
  id <> 0 -> k < 5 ->
  run (failures id k) (mkApp (Some id) 0 lp false [id] 0 fet 0) =
  mkApp (Some id) k lp false [id] 0 (fet + k) 0.
Proof.
  intros Hid Hk.
  assert (Hgen : forall k cnt fet, cnt + k < 5 ->
    run (failures id k) (mkApp (Some id) cnt lp false [id] 0 fet 0) =
    mkApp (Some id) (cnt + k) lp false [id] 0 (fet + k) 0).
  { clear k fet Hk. induction k as [|k IH]; intros cnt fet Hlt.
    - cbn. rewrite !Nat.add_0_r. reflexivity.
    - cbn [failures]. rewrite run_app, (pollOnce_failure id cnt lp fet Hid).
      destruct (Nat.leb_spec 5 (S cnt)); [lia|].
      rewrite IH by lia. f_equal; lia. }
  exact (Hgen k 0 fet Hk).
Qed.

Lemma failures_five id lp fet :
  id <> 0 ->
  run (failures id 5) (mkApp (Some id) 0 lp false [id] 0 fet 0) =
  mkApp None 0 lp true [] 0 (fet + 5) 1.
Proof.
  intros Hid.
  change (failures id 5) with (failures id 4 ++ pollOnce id (Ok None)).
  rewrite run_app, (failures_below id lp fet 4 Hid) by lia.
  rewrite (pollOnce_failure id 4 lp (fet + 4) Hid). cbn [Nat.leb].
  f_equal. lia.
Qed.

Lemma freshSession_isRunning a id : freshSession a id -> isRunning a id.
Proof.
  intros (Hp & Hid & Ht & Hc & _ & Hh & He). unfold isRunning.
  rewrite Hc. splits; auto. lia.
Qed.

Lemma freshSession_eq a id :
  freshSession a id ->
  a = mkApp (Some id) 0 (livePrice a) false [id] 0 (fetches a) 0.
Proof.
  intros (Hp & Hid & Ht & Hc & Hi & Hh & He).
  destruct a; cbn in *; subst; reflexivity.
Qed.

(** From a session that has just started, with no failure counted and no
    quote in flight: a tick of the registered interval requests a quote; a
    quote that arrives resets the failure counter to 0 and becomes the last
    price; a missing quote adds one to the counter; the failure that brings the counter to 5 cancels the interval
    and signals the halt.  Whatever the order of ticks and settled quotes,
    the halt is signalled at most once, and once it is, no interval is left
    and no tick requests a quote any more.  Five failures in a row halt the
    session, with five requests made and the halt signalled once, however
    many failures follow; a quote that arrives after fewer than five
    failures resets the counter. *)
Theorem poller_halts_after_five (a : App) (id : nat) :
  freshSession a id ->
  (forall b, In id (timers b) ->
     step (TimerFired id) b = tick b /\ fetches (tick b) = S (fetches b) /\
     inFlight (tick b) = S (inFlight b)) /\
  (forall b p, p <> "" ->
     pollingFailureCount (resume (Some p) b) = 0 /\
     livePrice (resume (Some p) b) = Some p /\
     timers (resume (Some p) b) = timers b /\
     haltedEmitted (resume (Some p) b) = haltedEmitted b) /\
  (forall b, S (pollingFailureCount b) < 5 ->
     pollingFailureCount (resume None b) = S (pollingFailureCount b) /\
     livePrice (resume None b) = livePrice b /\
     timers (resume None b) = timers b /\
     haltedEmitted (resume None b) = haltedEmitted b) /\
  (forall b, isRunning b id -> pollingFailureCount b = 4 ->
     isHalted (resume None b)) /\
  (forall os, polling os ->
     let b := run os a in
     haltedEmitted b <= 1 /\
     (isPollingHalted b = true ->
        haltedEmitted b = 1 /\ timers b = [] /\
        forall os', polling os' ->
          haltedEmitted (run os' b) = 1 /\ fetches (run os' b) = fetches b)) /\
  (let b := run (failures id 5) a in
   isHalted b /\ fetches b = fetches a + 5 /\
   forall os', polling os' ->
     haltedEmitted (run os' b) = 1 /\ fetches (run os' b) = fetches b) /\
  (forall k, k < 5 ->
     let b := run (failures id k) a in
     pollingFailureCount b = k /\ isRunning b id) /\
  (forall k p, k < 5 -> p <> "" ->
     let b := run (failures id k ++ pollOnce id (Ok (Some p))) a in
     pollingFailureCount b = 0 /\ livePrice b = Some p /\ isRunning b id).
Proof.
  intros Hfresh.
  pose proof (freshSession_isRunning a id Hfresh) as Hrunning.
  pose proof (freshSession_eq a id Hfresh) as Ha.
  destruct Hfresh as (_ & Hid & _).
  assert (Hafter : forall b, isHalted b -> forall os', polling os' ->
            haltedEmitted (run os' b) = 1 /\ fetches (run os' b) = fetches b).
  { intros b Hb os' Hos'. destruct (run_isHalted os' b Hos' Hb) as [Hh Hf].
    split; [apply Hh|exact Hf]. }
  splits.
  - intros b Hin. cbn [step].
    assert (Hex : existsb (Nat.eqb id) (timers b) = true).
    { apply existsb_exists. exists id. split; [exact Hin|apply Nat.eqb_refl]. }
    rewrite Hex. splits; reflexivity.
  - intros b p Hp. unfold resume.
    destruct (String.eqb_spec p ""); [contradiction|]. cbn. splits; reflexivity.
  - intros b Hlt. unfold resume. cbn -[Nat.leb].
    destruct (Nat.leb_spec 5 (S (pollingFailureCount b))); [lia|].
    cbn. splits; reflexivity.
  - intros b (Hp & _ & Ht & _ & Hh & He) Hc.
    destruct b as [pi cnt lp hlt tms infl fet hem]. cbn in Hp, Ht, Hh, He, Hc.
    subst. unfold resume, stopPolling, currentInterval. cbn.
    destruct (Nat.eqb_spec id 0); [contradiction|].
    unfold isHalted. cbn. rewrite Nat.eqb_refl. auto.
  - intros os Hos. cbn zeta.
    destruct (run_isRunning os a id Hos Hrunning)
      as [(_ & _ & _ & _ & Hh & He)|Hhalted].
    + rewrite He. split; [lia|]. intros Hh'. congruence.
    + pose proof Hhalted as (_ & Ht & _ & He). rewrite He.
      split; [lia|]. intros _. splits; auto.
  - cbn zeta. rewrite Ha, (failures_five id _ _ Hid). cbn [fetches].
    assert (Hh : isHalted (mkApp None 0 (livePrice a) true [] 0 (fetches a + 5) 1))
      by (unfold isHalted; cbn; auto).
    splits; [exact Hh|reflexivity|apply (Hafter _ Hh)].
  - intros k Hk. cbn zeta. rewrite Ha, (failures_below id _ _ k Hid Hk).
    unfold isRunning. cbn. auto 10.
  - intros k p Hk Hp. cbn zeta.
    rewrite run_app, Ha, (failures_below id _ _ k Hid Hk),
      (pollOnce_success id k _ _ p Hp).
    unfold isRunning. cbn. splits; auto. lia.
Qed.

Lemma started_fresh : freshSession started 1.
Proof. unfold freshSession. cbn. splits; auto. Qed.

Lemma poller_halts_after_five_witness :
  isHalted (run (failures 1 5) started) /\
  fetches (run (failures 1 5) started) = 5 /\
  haltedEmitted (run (failures 1 5 ++ failures 1 3) started) = 1.
Proof.
  destruct (poller_halts_after_five started 1 started_fresh)
    as (_ & _ & _ & _ & _ & (Hhalted & Hfetches & Hafter) & _).
  splits; [exact Hhalted|exact Hfetches|].
  rewrite run_app. apply Hafter. repeat constructor.
Defined.


(** ** Requests in flight *)

(** C9, as the code has it.  Nothing limits the quote requests in flight:
    every tick of the registered interval requests a quote, also while
    earlier requests are outstanding.  From a session that has just started,
    n ticks with no quote settled leave n requests in flight; and at any
    point of a session the requests in flight are among those made. *)
Theorem ticks_overlap (a : App) (id : nat) :
  freshSession a id ->
  (forall n,
     inFlight (run (repeat (TimerFired id) n) a) = n /\
     fetches (run (repeat (TimerFired id) n) a) = fetches a + n) /\
  (forall b, In id (timers b) ->
     inFlight (step (TimerFired id) b) = S (inFlight b)).
Proof.
  intros Hfresh. pose proof (freshSession_eq a id Hfresh) as Ha.
  split.
  - intros n. rewrite Ha. cbn [fetches].
    assert (Hgen : forall n infl fet,
      run (repeat (TimerFired id) n)
          (mkApp (Some id) 0 (livePrice a) false [id] infl fet 0)
      = mkApp (Some id) 0 (livePrice a) false [id] (infl + n) (fet + n) 0).
    { clear. induction n as [|n IH]; intros infl fet.
      - cbn. rewrite !Nat.add_0_r. reflexivity.
      - cbn [repeat]. unfold run in *. cbn [fold_left step timers existsb].
        rewrite Nat.eqb_refl. cbn [orb]. unfold tick. cbn.
        rewrite IH. f_equal; lia. }
    rewrite Hgen. cbn. auto.
  - intros b Hin. cbn [step].
    assert (Hex : existsb (Nat.eqb id) (timers b) = true).
    { apply existsb_exists. exists id. split; [exact Hin|apply Nat.eqb_refl]. }
    rewrite Hex. reflexivity.
Qed.

Lemma ticks_overlap_witness :
  inFlight (run (repeat (TimerFired 1) 3) started) = 3.
Proof.
  destruct (ticks_overlap started 1 started_fresh) as [Hn _].
  exact (proj1 (Hn 3)).
Defined.

(** C9 as stated fails: two ticks with no quote settled in between leave two
    requests in flight. *)
Lemma two_requests_in_flight :
  inFlight (run [TimerFired 1; TimerFired 1] started) = 2 /\
  ~ (forall os, polling os -> inFlight (run os started) <= 1).
Proof.
  split; [reflexivity|]. intros Hone.
  specialize (Hone [TimerFired 1; TimerFired 1] ltac:(repeat constructor)).
  cbn in Hone. lia.
Qed.

(** * Further properties *)

(** ** The traffic of the relay and of the orchestrators *)

Lemma requests_app (a b : list Event) : requests (a ++ b) = requests a + requests b.
Proof. unfold requests. rewrite filter_app, length_app. reflexivity. Qed.

Lemma directRequests_app (a b : list Event) :
  directRequests (a ++ b) = directRequests a + directRequests b.
Proof. unfold directRequests. rewrite filter_app, length_app. reflexivity. Qed.

Lemma warnings_app (a b : list Event) : warnings (a ++ b) = warnings a + warnings b.
Proof. unfold warnings. rewrite filter_app, length_app. reflexivity. Qed.

Section Traffic.

Context `{Host}.
Variable net : World.

Lemma FailedAttempts_counts url h ps evs last :
  FailedAttempts net url h ps evs last ->
  requests evs = length ps /\ warnings evs = length ps /\ directRequests evs = 0.
Proof.
  induction 1 as [|ps p evs last e _ (IHr & IHw & IHd) _ _]; [auto|].
  rewrite requests_app, warnings_app, directRequests_app, length_app, IHr, IHw, IHd.
  cbn. auto.
Qed.

(** X1.  The relay warns on the console once for every attempt that fails,
    and for nothing else.  It makes between one and four requests: one more
    than the warnings when it returns a payload, and four requests with four
    warnings when it throws. *)
Theorem yahooFinanceFetch_warns (url : string) (h : list Event) :
  let r := yahooFinanceFetch net url h in
  1 <= requests (snd r) <= 4 /\
  match fst r with
  | Ok _ => requests (snd r) = S (warnings (snd r))
  | Throw _ => requests (snd r) = 4 /\ warnings (snd r) = 4
  end.
Proof.
  cbn zeta.
  pose proof (relayLoop_run net url h PROXIES [] [] None (failed_none net url h))
    as Hrun.
  cbn zeta in Hrun. rewrite app_nil_r in Hrun.
  fold (yahooFinanceFetch net url) in Hrun. cbn [app] in Hrun.
  destruct Hrun as [(ps & p & rest & data & evs & Hsplit & [last Hf] & _ & Hres & Hev)
                   |(evs & last & Hf & Hres & Hev)].
  - rewrite Hres, Hev.
    destruct (FailedAttempts_counts _ _ _ _ _ Hf) as (Hr & Hw & _).
    rewrite requests_app, warnings_app, Hr, Hw.
    apply (f_equal (@length Proxy)) in Hsplit. rewrite length_app in Hsplit.
    cbn in Hsplit |- *. lia.
  - rewrite Hres, Hev.
    destruct (FailedAttempts_counts _ _ _ _ _ Hf) as (Hr & Hw & _).
    rewrite Hr, Hw. cbn. lia.
Qed.

(** The requests of the relay: at least one, at most four, all of them under
    the abort timer. *)
Lemma yahooFinanceFetch_requests url h :
  1 <= requests (snd (yahooFinanceFetch net url h)) <= 4 /\
  directRequests (snd (yahooFinanceFetch net url h)) = 0.
Proof.
  pose proof (relayLoop_run net url h PROXIES [] [] None (failed_none net url h))
    as Hrun.
  cbn zeta in Hrun. rewrite app_nil_r in Hrun.
  fold (yahooFinanceFetch net url) in Hrun. cbn [app] in Hrun.
  destruct Hrun as [(ps & p & rest & data & evs & Hsplit & [last Hf] & _ & _ & Hev)
                   |(evs & last & Hf & _ & Hev)];
    rewrite Hev; destruct (FailedAttempts_counts _ _ _ _ _ Hf) as (Hr & _ & Hd).
  - rewrite requests_app, directRequests_app, Hr, Hd.
    apply (f_equal (@length Proxy)) in Hsplit. rewrite length_app in Hsplit.
    cbn in Hsplit |- *. lia.
  - rewrite Hr, Hd. cbn. lia.
Qed.

Variable apiKey : string.

Lemma fetchMarketDataFromYahoo_requests symbol timeframe h :
  1 <= requests (snd (fetchMarketDataFromYahoo net symbol timeframe h)) <= 4 /\
  directRequests (snd (fetchMarketDataFromYahoo net symbol timeframe h)) = 0.
Proof.
  rewrite fetchMarketDataFromYahoo_eq. cbn zeta. cbn [snd].
  change (EvCall OpYahooSeries :: ?l) with ([EvCall OpYahooSeries] ++ l).
  rewrite requests_app, directRequests_app.
  apply yahooFinanceFetch_requests.
Qed.

(** The quote provider of the primary source: the call, then the relay. *)
Lemma fetchLivePriceFromYahoo_events symbol h :
  snd (fetchLivePriceFromYahoo net symbol h) =
  EvCall OpYahooQuote ::
  snd (yahooFinanceFetch net (chartUrl symbol "1d" "1m") (h ++ [EvCall OpYahooQuote])).
Proof.
  unfold fetchLivePriceFromYahoo. run_monad. cbn zeta.
  destruct (yahooFinanceFetch net _ (h ++ [EvCall OpYahooQuote])) as [[data|e] evs];
    cbn [snd app]; [|reflexivity].
  destruct (negb (price_truthy _)); cbn [snd]; rewrite app_nil_r; reflexivity.
Qed.

Lemma fetchLivePriceFromYahoo_requests symbol h :
  1 <= requests (snd (fetchLivePriceFromYahoo net symbol h)) <= 4 /\
  directRequests (snd (fetchLivePriceFromYahoo net symbol h)) = 0.
Proof.
  rewrite fetchLivePriceFromYahoo_events.
  change (EvCall OpYahooQuote :: ?l) with ([EvCall OpYahooQuote] ++ l).
  rewrite requests_app, directRequests_app.
  apply yahooFinanceFetch_requests.
Qed.

(** The events of the fallback quote provider: the call; a warning when the
    credential is missing; otherwise, unless the symbol is refused, one
    request with no abort timer. *)
Lemma fetchLivePriceFromFinnhub_events symbol h :
  snd (fetchLivePriceFromFinnhub net apiKey symbol h) =
  EvCall OpFinnhubQuote ::
  (if apiKey =? "" then
     [EvConsole LWarn "FINNHUB_API_KEY not set, cannot fetch live price from Finnhub."]
   else if endsWith symbol ".NS" then []
   else [EvFetch (quoteUrl apiKey (mapSymbolForFinnhub symbol)) None]).
Proof.
  unfold fetchLivePriceFromFinnhub, fetch. run_monad.
  destruct (apiKey =? ""); [reflexivity|].
  destruct (endsWith symbol ".NS"); [reflexivity|]. cbn.
  destruct (outcome _) as [e|r]; [reflexivity|].
  destruct (resp_ok r); cbn; [|reflexivity].
  destruct (resp_json r) as [data|]; cbn; [|reflexivity].
  destruct (negb (price_truthy (quotePriceOf data)) || _); reflexivity.
Qed.

(** X2.  One call of the series orchestrator makes at least one and at most
    five network requests: at most four through the relay, under the abort
    timer, and at most one to the fallback source. *)
Theorem fetchMarketData_requests (symbol timeframe : string) (h : list Event) :
  let r := fetchMarketData net apiKey symbol timeframe h in
  1 <= requests (snd r) <= 5 /\
  directRequests (snd r) <= 1 /\
  requests (snd r) <= 4 + directRequests (snd r).
Proof.
  cbn zeta. rewrite fetchMarketData_eq. cbn zeta.
  pose proof (fetchMarketDataFromYahoo_requests symbol timeframe
                (h ++ [logAttempt symbol])) as [Hy Hd].
  destruct (fetchMarketDataFromYahoo net symbol timeframe (h ++ [logAttempt symbol]))
    as [[payload|yahooError] evs]; cbn [fst snd] in *.
  - change (logAttempt symbol :: evs) with ([logAttempt symbol] ++ evs).
    rewrite requests_app, directRequests_app, Hd. cbn. lia.
  - destruct (apiKey =? "") eqn:Hkey; cbn [fst snd].
    + change (logAttempt symbol :: evs) with ([logAttempt symbol] ++ evs).
      rewrite !requests_app, !directRequests_app, Hd. cbn. lia.
    + pose proof (fetchMarketDataFromFinnhub_events net apiKey symbol timeframe
                    (h ++ (logAttempt symbol :: evs)
                       ++ [warnYahoo symbol yahooError; logFallback symbol])) as Hf.
      destruct (fetchMarketDataFromFinnhub net apiKey symbol timeframe _)
        as [[payload|finnhubError] evs']; cbn [fst snd] in *; subst evs';
        change (logAttempt symbol :: evs) with ([logAttempt symbol] ++ evs);
        rewrite !requests_app, !directRequests_app, Hd;
        destruct ((apiKey =? "") || endsWith symbol ".NS"); cbn; lia.
Qed.

Lemma fetchLivePrice_traffic symbol h :
  directRequests (snd (fetchLivePrice net apiKey symbol h)) <= 1 /\
  requests (snd (fetchLivePrice net apiKey symbol h))
    <= 4 + directRequests (snd (fetchLivePrice net apiKey symbol h)).
Proof.
  rewrite fetchLivePrice_eq. cbn zeta.
  destruct (symbol =? ""); [cbn; lia|].
  pose proof (fetchLivePriceFromYahoo_requests symbol h) as [Hy Hd].
  destruct (fetchLivePriceFromYahoo net symbol h) as [[quote|yahooError] evs];
    cbn [fst snd] in *; [lia|].
  pose proof (fetchLivePriceFromFinnhub_events symbol
                (h ++ evs ++ [warnLiveYahoo symbol yahooError])) as Hf.
  destruct (fetchLivePriceFromFinnhub net apiKey symbol _)
    as [[quote|finnhubError] evs']; cbn [fst snd] in *; subst evs';
    rewrite !requests_app, !directRequests_app, Hd;
    destruct (apiKey =? ""); try destruct (endsWith symbol ".NS");
    cbn; lia.
Qed.

(** X3.  One call of the quote orchestrator makes no request for an empty
    symbol, and otherwise at least one and at most five: at most four
    through the relay and at most one to the fallback source. *)
Theorem fetchLivePrice_requests (symbol : string) (h : list Event) :
  let r := fetchLivePrice net apiKey symbol h in
  (symbol = "" -> requests (snd r) = 0) /\
  (symbol <> "" -> 1 <= requests (snd r)) /\
  requests (snd r) <= 5 /\
  directRequests (snd r) <= 1 /\
  requests (snd r) <= 4 + directRequests (snd r).
Proof.
  cbn zeta. pose proof (fetchLivePrice_traffic symbol h) as [Hd Hr].
  splits; [| |lia|exact Hd|exact Hr].
  - intros ->. reflexivity.
  - intros Hsym. rewrite fetchLivePrice_eq. cbn zeta.
    destruct (String.eqb_spec symbol ""); [contradiction|].
    pose proof (fetchLivePriceFromYahoo_requests symbol h) as [Hy _].
    destruct (fetchLivePriceFromYahoo net symbol h) as [[quote|yahooError] evs];
      cbn [fst snd] in *; [lia|].
    destruct (fst (fetchLivePriceFromFinnhub net apiKey symbol _));
      cbn [snd]; rewrite requests_app; lia.
Qed.

End Traffic.

(** ** The points of every series *)

Section SeriesPoints.

Context `{Host}.

(** What the two arrays hold while the rows are mapped. *)
Let goodAcc (acc : Acc) : Prop :=
  Forall pricedCandle (fst acc) /\ Forall numericVolume (snd acc) /\
  Forall2 direction (fst acc) (snd acc).

Lemma push_good acc ts o h l c vi :
  goodAcc acc ->
  goodAcc (push acc (mkCandle ts (VNum o) (VNum h) (VNum l) (VNum c))
             (mkVolume ts (orElse vi VNum (VNum num_zero))
                (colour (VNum c) (VNum o)))).
Proof.
  intros (Hp & Hv & Hd). unfold goodAcc, push. cbn [fst snd]. splits.
  - apply Forall_app. split; [exact Hp|]. repeat constructor.
  - apply Forall_app. split; [exact Hv|]. constructor; [|constructor].
    destruct vi; reflexivity.
  - apply Forall2_app; [exact Hd|]. constructor; [|constructor].
    exists o, c. splits; reflexivity.
Qed.

Lemma yahooRow_good q acc ts i row acc' :
  yahooRow q acc ts i = Ok (row, acc') -> goodAcc acc -> goodAcc acc'.
Proof.
  unfold yahooRow. intros Hrow Hacc.
  repeat match type of Hrow with
         | context [isNull ?x] =>
             destruct x; cbn [isNull andThen toFixed] in Hrow
         | context [index ?col i] =>
             destruct (index col i); cbn [andThen] in Hrow
         | context [dateOf ?x] =>
             destruct (dateOf x); cbn [andThen] in Hrow
         | Ok _ = Ok _ => injection Hrow as _ <-
         | Throw _ = Ok _ => discriminate Hrow
         end; try exact Hacc; apply push_good; exact Hacc.
Qed.

Lemma finnhubRow_good d acc ts i row acc' :
  finnhubRow d acc ts i = Ok (row, acc') -> goodAcc acc -> goodAcc acc'.
Proof.
  unfold finnhubRow. intros Hrow Hacc.
  repeat match type of Hrow with
         | context [dateOf ?x] =>
             destruct (dateOf x); cbn [andThen] in Hrow
         | context [index ?col i] =>
             destruct (index col i) as [[ | | ]|]; cbn [andThen toFixed] in Hrow
         | Ok _ = Ok _ => injection Hrow as _ <-
         | Throw _ = Ok _ => discriminate Hrow
         end;
    first [ apply push_good
          | apply (fun o h l c n => push_good acc ts o h l c (VNum n))
          | apply (fun o h l c => push_good acc ts o h l c VNull)
          | apply (fun o h l c => push_good acc ts o h l c VUndef) ];
    exact Hacc.
Qed.

Lemma mapRows_good {A} (f : Acc -> jsval -> nat -> Result (A * Acc)) :
  (forall acc ts i a acc', f acc ts i = Ok (a, acc') -> goodAcc acc -> goodAcc acc') ->
  forall cells i acc rows acc',
    mapRows f cells i acc = Ok (rows, acc') -> goodAcc acc -> goodAcc acc'.
Proof.
  intros Hf. induction cells as [|x cells IH]; intros i acc rows acc' Hmap Hacc.
  - cbn in Hmap. injection Hmap as _ <-. exact Hacc.
  - cbn [mapRows] in Hmap.
    destruct (f acc (cellVal x) i) as [[a acc1]|e] eqn:Hrow;
      cbn [andThen fst snd] in Hmap; [|discriminate].
    destruct (mapRows f cells (S i) acc1) as [[rows1 acc2]|e] eqn:Hrest;
      cbn [andThen fst snd] in Hmap; [|discriminate].
    injection Hmap as _ <-.
    exact (IH _ _ _ _ Hrest (Hf _ _ _ _ _ Hrow Hacc)).
Qed.

Let goodPayload (p : MarketDataPayload) : Prop :=
  goodAcc (candlestickData (chartData p), volumeData (chartData p)).

Lemma nil_good : goodAcc ([], []).
Proof. unfold goodAcc. cbn. splits; constructor. Qed.

Lemma yahooSeries_good data p : yahooSeries data = Ok p -> goodPayload p.
Proof.
  unfold yahooSeries.
  destruct (firstResult data) as [result|]; [|discriminate].
  destruct (y_timestamp result) as [timestamp|]; [|discriminate].
  destruct (firstQuote result) as [q|e]; cbn [andThen]; [|discriminate].
  destruct (q_open q); [|discriminate].
  destruct (mapRows (yahooRow q) timestamp 0 ([], [])) as [[rows acc]|e] eqn:Hrows;
    cbn [andThen]; [|discriminate].
  intros Heq. injection Heq as <-. unfold goodPayload. cbn.
  destruct acc as [cs vs].
  exact (mapRows_good _ (yahooRow_good q) _ _ _ _ _ Hrows nil_good).
Qed.

Lemma finnhubSeries_good finnhubSymbol data p :
  finnhubSeries finnhubSymbol data = Ok p -> goodPayload p.
Proof.
  unfold finnhubSeries.
  destruct (candlesOf data) as [d|e]; cbn [andThen]; [|discriminate].
  destruct (noData d); [discriminate|].
  destruct (mapRows (finnhubRow d) _ 0 ([], [])) as [[rows acc]|e] eqn:Hrows;
    cbn [andThen]; [|discriminate].
  intros Heq. injection Heq as <-. unfold goodPayload. cbn.
  destruct acc as [cs vs].
  exact (mapRows_good _ (finnhubRow_good d) _ _ _ _ _ Hrows nil_good).
Qed.

Variable net : World.
Variable apiKey : string.

(** A series that the orchestrator returns was normalised by one of the two
    providers. *)
Lemma fetchMarketData_Ok symbol timeframe h p :
  fst (fetchMarketData net apiKey symbol timeframe h) = Ok p ->
  (exists data, yahooSeries data = Ok p) \/
  (exists finnhubSymbol data, finnhubSeries finnhubSymbol data = Ok p).
Proof.
  rewrite fetchMarketData_eq. cbn zeta.
  rewrite fetchMarketDataFromYahoo_eq. cbn zeta. cbn [fst snd].
  destruct (fst (yahooFinanceFetch net _ _)) as [data|e]; cbn [andThen].
  - destruct (yahooSeries data) as [p'|e] eqn:Hy.
    + cbn. intros Heq. injection Heq as <-. left. eauto.
    + destruct (apiKey =? ""); [discriminate|].
      destruct (fetchMarketDataFromFinnhub net apiKey symbol timeframe _)
        as [[p'|e'] evs] eqn:Hf; cbn; [|discriminate].
      intros Heq. injection Heq as <-.
      apply (f_equal fst) in Hf. cbn [fst] in Hf.
      apply fetchMarketDataFromFinnhub_Ok in Hf.
      destruct Hf as (r & data' & _ & _ & _ & Hs). right. eauto.
  - destruct (apiKey =? ""); [discriminate|].
    destruct (fetchMarketDataFromFinnhub net apiKey symbol timeframe _)
      as [[p'|e'] evs] eqn:Hf; cbn; [|discriminate].
    intros Heq. injection Heq as <-.
    apply (f_equal fst) in Hf. cbn [fst] in Hf.
    apply fetchMarketDataFromFinnhub_Ok in Hf.
    destruct Hf as (r & data' & _ & _ & _ & Hs). right. eauto.
Qed.

(** X4.  Whichever provider it comes from, a series that the orchestrator
    returns has no hole: the open, high, low and close of every candle are
    numbers, and so is the value of every volume point. *)
Theorem fetchMarketData_priced (symbol timeframe : string) (h : list Event)
    (p : MarketDataPayload) :
  fst (fetchMarketData net apiKey symbol timeframe h) = Ok p ->
  Forall pricedCandle (candlestickData (chartData p)) /\
  Forall numericVolume (volumeData (chartData p)).
Proof.
  intros Hp.
  destruct (fetchMarketData_Ok _ _ _ _ Hp) as [[data Hy]|(sym & data & Hf)].
  - destruct (yahooSeries_good _ _ Hy) as (Hc & Hv & _). split; assumption.
  - destruct (finnhubSeries_good _ _ _ Hf) as (Hc & Hv & _). split; assumption.
Qed.

(** X5.  In a series that the orchestrator returns, the volume points pair
    with the candles one to one, and the colour of each volume point tells
    the direction of its candle: green when the close is at least the open,
    red otherwise. *)
Theorem fetchMarketData_colours (symbol timeframe : string) (h : list Event)
    (p : MarketDataPayload) :
  fst (fetchMarketData net apiKey symbol timeframe h) = Ok p ->
  Forall2 direction (candlestickData (chartData p)) (volumeData (chartData p)).
Proof.
  intros Hp.
  destruct (fetchMarketData_Ok _ _ _ _ Hp) as [[data Hy]|(sym & data & Hf)].
  - exact (proj2 (proj2 (yahooSeries_good _ _ Hy))).
  - exact (proj2 (proj2 (finnhubSeries_good _ _ _ Hf))).
Qed.

End SeriesPoints.

Lemma fetchMarketData_priced_witness :
  exists p,
    fst (fetchMarketData Examples.goodWorld FINNHUB_API_KEY "ABC" "Daily" [])
      = Ok p /\
    length (candlestickData (chartData p)) = 3 /\
    Forall pricedCandle (candlestickData (chartData p)) /\
    Forall numericVolume (volumeData (chartData p)).
Proof.
  let x := eval vm_compute in
    (fst (fetchMarketData Examples.goodWorld FINNHUB_API_KEY "ABC" "Daily" []))
  in match x with Ok ?p => exists p end.
  match goal with
  | |- _ = Ok ?p /\ _ =>
      assert (Hrun : fst (fetchMarketData Examples.goodWorld FINNHUB_API_KEY
                            "ABC" "Daily" []) = Ok p) by reflexivity
  end.
  split; [exact Hrun|]. split; [reflexivity|].
  exact (fetchMarketData_priced (H:=IntegerHost.host) Examples.goodWorld
           FINNHUB_API_KEY "ABC" "Daily" [] _ Hrun).
Defined.

Lemma fetchMarketData_colours_witness :
  exists p,
    fst (fetchMarketData Examples.slowWorld FINNHUB_API_KEY "^GSPC" "Weekly" [])
      = Ok p /\
    map v_color (volumeData (chartData p)) = [green; red] /\
    Forall2 direction (candlestickData (chartData p)) (volumeData (chartData p)).
Proof.
  let x := eval vm_compute in
    (fst (fetchMarketData Examples.slowWorld FINNHUB_API_KEY "^GSPC" "Weekly" []))
  in match x with Ok ?p => exists p end.
  match goal with
  | |- _ = Ok ?p /\ _ =>
      assert (Hrun : fst (fetchMarketData Examples.slowWorld FINNHUB_API_KEY
                            "^GSPC" "Weekly" []) = Ok p) by reflexivity
  end.
  split; [exact Hrun|]. split; [reflexivity|].
  exact (fetchMarketData_colours (H:=IntegerHost.host) Examples.slowWorld
           FINNHUB_API_KEY "^GSPC" "Weekly" [] _ Hrun).
Defined.

(** ** Empty series and missing data *)

Section Edges.

Context `{Host}.
Variable net : World.
Variable apiKey : string.

Lemma mapRows_yahooRow_nulls q : forall ts i acc,
  Forall (fun cell => cell = None) ts ->
  mapRows (yahooRow q) ts i acc = Ok (map (fun _ => None) ts, acc).
Proof.
  induction ts as [|x ts IH]; intros i acc Hall; [reflexivity|].
  inversion Hall as [|x' ts' Hx Hts]; subst.
  cbn [mapRows cellVal yahooRow isNull andThen fst snd map].
  rewrite (IH (S i) acc Hts). reflexivity.
Qed.

Lemma filterBoolean_nulls {A} (l : list A) :
  filterBoolean (map (fun _ => None) l) = [].
Proof. induction l as [|x l IH]; [reflexivity|exact IH]. Qed.

(** X6.  An answer of the primary source with no usable row is not a
    failure.  When the relay returns a chart whose timestamps are all null
    (or whose timestamp array is empty) and which has an open column, the
    orchestrator returns the empty series, a text that is the header alone,
    and does not call the fallback; the other columns may even be missing. *)
Theorem fetchMarketData_empty_series (symbol timeframe : string) (h : list Event)
    (data : Body) (result : YResult) (ts : list (option num)) (q : QuoteArrays)
    (o : list (option num)) :
  fst (yahooFinanceFetch net
         (chartUrl symbol (fst (yahooSpan timeframe)) (snd (yahooSpan timeframe)))
         ((h ++ [logAttempt symbol]) ++ [EvCall OpYahooSeries])) = Ok data ->
  firstResult data = Some result ->
  y_timestamp result = Some ts ->
  Forall (fun cell => cell = None) ts ->
  firstQuote result = Ok q ->
  q_open q = Some o ->
  let r := fetchMarketData net apiKey symbol timeframe h in
  fst r = Ok (mkPayload header (mkChartData [] [])) /\
  calls OpFinnhubSeries (snd r) = 0.
Proof.
  intros Hrelay Hres Hts Hnull Hq Ho. cbn zeta.
  assert (Hseries : yahooSeries data = Ok (mkPayload header (mkChartData [] []))).
  { unfold yahooSeries. rewrite Hres, Hts, Hq. cbn [andThen]. rewrite Ho.
    rewrite (mapRows_yahooRow_nulls q ts 0 ([], []) Hnull). cbn [andThen fst snd].
    rewrite filterBoolean_nulls. reflexivity. }
  assert (Hy : fst (fetchMarketDataFromYahoo net symbol timeframe
                      (h ++ [logAttempt symbol]))
               = Ok (mkPayload header (mkChartData [] []))).
  { rewrite fetchMarketDataFromYahoo_eq. cbn zeta. cbn [fst].
    rewrite Hrelay. exact Hseries. }
  rewrite fetchMarketData_eq. cbn zeta. rewrite Hy. cbn [fst snd].
  split; [reflexivity|].
  change (logAttempt symbol :: ?l) with ([logAttempt symbol] ++ l).
  rewrite calls_app, fetchMarketDataFromYahoo_calls. reflexivity.
Qed.

(** X7.  The fallback source has two ways to say that it has no data, and
    the provider treats both as an error: when the body it receives carries
    the status "no_data" (whatever else it carries), or has no timestamp
    array or an empty one, the call throws the error that names the mapped
    symbol, after its one request. *)
Theorem fetchMarketDataFromFinnhub_no_data (symbol timeframe : string)
    (h : list Event) (r : Response) (data : Body) (d : FinnhubCandles) :
  apiKey <> "" ->
  endsWith symbol ".NS" = false ->
  outcome (net (h ++ [EvCall OpFinnhubSeries])
             (candleUrl apiKey (mapSymbolForFinnhub symbol) timeframe))
    = FetchResolved r ->
  resp_ok r = true ->
  resp_json r = Some data ->
  candlesOf data = Ok d ->
  f_s d = Some "no_data" \/ f_t d = None \/ f_t d = Some [] ->
  fetchMarketDataFromFinnhub net apiKey symbol timeframe h =
  (Throw (Error ("Could not find time series data for '"
                 ++ mapSymbolForFinnhub symbol ++ "' in Finnhub response.")),
   [EvCall OpFinnhubSeries;
    EvFetch (candleUrl apiKey (mapSymbolForFinnhub symbol) timeframe) None]).
Proof.
  intros Hkey Hns Hout Hok Hjson Hd Hno.
  assert (HnoData : noData d = true).
  { unfold noData. destruct Hno as [Hs|[Ht|Ht]].
    - rewrite Hs. reflexivity.
    - rewrite Ht. apply orb_true_r.
    - rewrite Ht. apply orb_true_r. }
  unfold fetchMarketDataFromFinnhub, fetch. run_monad.
  destruct (String.eqb_spec apiKey ""); [contradiction|].
  rewrite Hns. cbn [fst snd app]. rewrite Hout, Hok. cbn [negb].
  rewrite Hjson. cbn [fst snd app].
  unfold ret, finnhubSeries. rewrite Hd. cbn [andThen]. rewrite HnoData.
  reflexivity.
Qed.

(** The fallback providers without a credential, or with a symbol of the
    Indian exchange: no request is made; the series provider throws, the
    quote provider gives null. *)
Lemma fetchMarketDataFromFinnhub_unavailable symbol timeframe h :
  apiKey = "" \/ endsWith symbol ".NS" = true ->
  exists e, fetchMarketDataFromFinnhub net apiKey symbol timeframe h
            = (Throw e, [EvCall OpFinnhubSeries]).
Proof.
  intros Hun. unfold fetchMarketDataFromFinnhub. run_monad.
  destruct (String.eqb_spec apiKey "") as [Hkey|Hkey]; [eexists; reflexivity|].
  destruct Hun as [Hk|Hns]; [contradiction|]. rewrite Hns.
  eexists; reflexivity.
Qed.

Lemma fetchLivePriceFromFinnhub_unavailable symbol h :
  apiKey = "" \/ endsWith symbol ".NS" = true ->
  fst (fetchLivePriceFromFinnhub net apiKey symbol h) = Ok None /\
  requests (snd (fetchLivePriceFromFinnhub net apiKey symbol h)) = 0.
Proof.
  intros Hun. unfold fetchLivePriceFromFinnhub. run_monad.
  destruct (String.eqb_spec apiKey "") as [Hkey|Hkey]; [split; reflexivity|].
  destruct Hun as [Hk|Hns]; [contradiction|]. rewrite Hns.
  split; reflexivity.
Qed.

(** X8.  For a symbol of the Indian exchange the fallback is of no use: the
    orchestrator returns what the primary provider returns, throws its own
    error when the primary throws, and every request it makes goes through
    the relay. *)
Theorem fetchMarketData_NS_primary_only (stem timeframe : string) (h : list Event) :
  let symbol := (stem ++ ".NS")%string in
  let r := fetchMarketData net apiKey symbol timeframe h in
  let y := fetchMarketDataFromYahoo net symbol timeframe (h ++ [logAttempt symbol]) in
  directRequests (snd r) = 0 /\
  requests (snd r) = requests (snd y) /\
  match fst y with
  | Ok payload => fst r = Ok payload
  | Throw _ =>
      fst r = Throw (Error (if apiKey =? "" then unavailableMessage symbol
                            else allFailedMessage symbol))
  end.
Proof.
  cbn zeta. rewrite fetchMarketData_eq. cbn zeta.
  pose proof (fetchMarketDataFromYahoo_requests net (stem ++ ".NS")%string
                timeframe (h ++ [logAttempt (stem ++ ".NS")%string])) as [_ Hd].
  destruct (fetchMarketDataFromYahoo net _ timeframe _)
    as [[payload|yahooError] evs]; cbn [fst snd] in *.
  - change (logAttempt ?s :: evs) with ([logAttempt s] ++ evs).
    rewrite requests_app, directRequests_app, Hd. splits; reflexivity.
  - destruct (apiKey =? "") eqn:Hkey; cbn [fst snd].
    + change (logAttempt ?s :: evs) with ([logAttempt s] ++ evs).
      rewrite !requests_app, !directRequests_app, Hd. cbn. splits; auto; lia.
    + match goal with
      | |- context [fetchMarketDataFromFinnhub net apiKey ?s timeframe ?hh] =>
          destruct (fetchMarketDataFromFinnhub_unavailable s timeframe hh
                      (or_intror (endsWith_suffix stem ".NS"))) as [e He];
          rewrite He
      end. cbn [fst snd].
      change (logAttempt ?s :: evs) with ([logAttempt s] ++ evs).
      rewrite !requests_app, !directRequests_app, Hd. cbn. splits; auto; lia.
Qed.

(** X9.  Without a credential, or for a symbol of the Indian exchange, the
    quote orchestrator depends on the primary source alone: its result is
    the quote of the primary provider, or null when that one throws, and
    every request it makes goes through the relay. *)
Theorem fetchLivePrice_primary_only (symbol : string) (h : list Event) :
  symbol <> "" ->
  apiKey = "" \/ endsWith symbol ".NS" = true ->
  let r := fetchLivePrice net apiKey symbol h in
  let y := fetchLivePriceFromYahoo net symbol h in
  directRequests (snd r) = 0 /\
  requests (snd r) = requests (snd y) /\
  fst r = match fst y with Ok quote => Ok quote | Throw _ => Ok None end.
Proof.
  intros Hsym Hun. cbn zeta. rewrite fetchLivePrice_eq. cbn zeta.
  destruct (String.eqb_spec symbol ""); [contradiction|].
  pose proof (fetchLivePriceFromYahoo_requests net symbol h) as [_ Hd].
  destruct (fetchLivePriceFromYahoo net symbol h) as [[quote|yahooError] evs];
    cbn [fst snd] in *.
  - splits; auto.
  - pose proof (fetchLivePriceFromFinnhub_unavailable symbol
                  (h ++ evs ++ [warnLiveYahoo symbol yahooError]) Hun) as [Hf Hr].
    pose proof (fetchLivePriceFromFinnhub_events net apiKey symbol
                  (h ++ evs ++ [warnLiveYahoo symbol yahooError])) as Hev.
    destruct (fetchLivePriceFromFinnhub net apiKey symbol _)
      as [[quote|finnhubError] evs']; cbn [fst snd] in *; [|discriminate Hf].
    injection Hf as ->.
    rewrite !requests_app, !directRequests_app, Hd, Hr. subst evs'.
    splits; auto.
    destruct (apiKey =? ""); [reflexivity|].
    destruct (endsWith symbol ".NS"); [reflexivity|].
    cbn in Hr. discriminate Hr.
Qed.

End Edges.

Lemma fetchMarketData_empty_series_witness :
  fst (fetchMarketData EdgeCases.emptyWorld FINNHUB_API_KEY "ABC" "Daily" [])
    = Ok (mkPayload header (mkChartData [] [])) /\
  calls OpFinnhubSeries
    (snd (fetchMarketData EdgeCases.emptyWorld FINNHUB_API_KEY "ABC" "Daily" []))
    = 0.
Proof.
  exact (fetchMarketData_empty_series (H:=IntegerHost.host) EdgeCases.emptyWorld
           FINNHUB_API_KEY "ABC" "Daily" [] EdgeCases.emptyBody
           EdgeCases.emptyChart [] _ []
           eq_refl eq_refl eq_refl (Forall_nil _) eq_refl eq_refl).
Defined.

Lemma fetchMarketDataFromFinnhub_no_data_witness :
  fst (fetchMarketDataFromFinnhub EdgeCases.noDataWorld FINNHUB_API_KEY "ABC"
         "Daily" [])
  = Throw (Error "Could not find time series data for 'ABC' in Finnhub response.").
Proof.
  exact (f_equal fst
           (fetchMarketDataFromFinnhub_no_data (H:=IntegerHost.host)
              EdgeCases.noDataWorld FINNHUB_API_KEY "ABC" "Daily" []
              (Examples.answer (BodyCandles EdgeCases.noDataBars))
              (BodyCandles EdgeCases.noDataBars) EdgeCases.noDataBars
              FINNHUB_API_KEY_set eq_refl eq_refl eq_refl eq_refl eq_refl
              (or_introl eq_refl))).
Defined.

Lemma fetchLivePrice_primary_only_witness :
  fst (fetchLivePrice Examples.downWorld FINNHUB_API_KEY "RELIANCE.NS" [])
    = Ok None /\
  directRequests
    (snd (fetchLivePrice Examples.downWorld FINNHUB_API_KEY "RELIANCE.NS" []))
    = 0.
Proof.
  destruct (fetchLivePrice_primary_only (H:=IntegerHost.host) Examples.downWorld
              FINNHUB_API_KEY "RELIANCE.NS" [])
    as (Hdirect & _ & Hresult).
  - discriminate.
  - right. reflexivity.
  - split; [|exact Hdirect]. rewrite Hresult. reflexivity.
Defined.

(** ** The quote *)

Section Quote.

Context `{Host}.
Variable net : World.
Variable apiKey : string.

(** The quote provider of the primary source: one call, then the relay, then
    the price of the payload. *)
Lemma fetchLivePriceFromYahoo_eq symbol h :
  fetchLivePriceFromYahoo net symbol h =
  let r := yahooFinanceFetch net (chartUrl symbol "1d" "1m")
             (h ++ [EvCall OpYahooQuote]) in
  (andThen (fst r) (fun data =>
     let price := match firstResult data with
                  | Some result => y_meta_regularMarketPrice result
                  | None => PUndef
                  end in
     if negb (price_truthy price) then
       Throw (Error ("No live price found for " ++ symbol
                     ++ " in Yahoo Finance response."))
     else Ok (Some (formatPrice price))),
   EvCall OpYahooQuote :: snd r).
Proof.
  unfold fetchLivePriceFromYahoo. run_monad. cbn zeta.
  destruct (yahooFinanceFetch net _ (h ++ [EvCall OpYahooQuote])) as [[data|e] evs];
    cbn [fst snd app andThen]; [|reflexivity].
  destruct (negb (price_truthy _)); cbn [snd]; rewrite app_nil_r; reflexivity.
Qed.

Lemma formatPrice_shape (value : PriceVal) :
  match priceNumber value with
  | Some n => formatPrice value = if isFinite n then toFixed2 n else "N/A"
  | None => formatPrice value = "N/A"
  end.
Proof. destruct value; reflexivity. Qed.

Lemma fetchLivePriceFromYahoo_Ok symbol h quote :
  fst (fetchLivePriceFromYahoo net symbol h) = Ok quote ->
  exists price, price_truthy price = true /\ quote = Some (formatPrice price).
Proof.
  rewrite fetchLivePriceFromYahoo_eq. cbn zeta. cbn [fst].
  destruct (fst (yahooFinanceFetch net _ _)) as [data|e]; cbn [andThen];
    [|discriminate].
  destruct (price_truthy _) eqn:Htruthy; cbn [negb]; [|discriminate].
  intros Heq. injection Heq as <-. eauto.
Qed.

Lemma fetchLivePriceFromFinnhub_Ok symbol h quote :
  fst (fetchLivePriceFromFinnhub net apiKey symbol h) = Ok quote ->
  quote = None \/
  exists price, price_truthy price = true /\ quote = Some (formatPrice price).
Proof.
  unfold fetchLivePriceFromFinnhub, fetch. run_monad.
  destruct (apiKey =? ""); [cbn; intros Heq; injection Heq as <-; auto|].
  destruct (endsWith symbol ".NS"); [cbn; intros Heq; injection Heq as <-; auto|].
  cbn.
  destruct (outcome _) as [e|r]; [discriminate|].
  destruct (resp_ok r); cbn; [|discriminate].
  destruct (resp_json r) as [data|]; cbn; [|discriminate].
  destruct (price_truthy (quotePriceOf data)) eqn:Htruthy; cbn [negb orb];
    [|discriminate].
  destruct (price_is_zero (quotePriceOf data)); cbn; [discriminate|].
  intros Heq. injection Heq as <-. eauto.
Qed.


(** On a network that is down the relay throws. *)
Lemma yahooFinanceFetch_unreachable url h :
  unreachableNet net -> exists e, fst (yahooFinanceFetch net url h) = Throw e.
Proof.
  intros Hdown.
  destruct (fst (yahooFinanceFetch net url h)) as [data|e] eqn:Hr; [|eauto].
  apply yahooFinanceFetch_Ok in Hr.
  destruct Hr as (h' & url' & _ & r & chart & Hout & _).
  destruct (Hdown h' url') as [e He]. rewrite He in Hout. discriminate Hout.
Qed.

Lemma fetchLivePrice_unreachable symbol h :
  unreachableNet net -> fst (fetchLivePrice net apiKey symbol h) = Ok None.
Proof.
  intros Hdown. rewrite fetchLivePrice_eq. cbn zeta.
  destruct (symbol =? ""); [reflexivity|].
  rewrite fetchLivePriceFromYahoo_eq. cbn zeta. cbn [fst snd].
  destruct (yahooFinanceFetch_unreachable (chartUrl symbol "1d" "1m")
              (h ++ [EvCall OpYahooQuote]) Hdown) as [e He].
  rewrite He. cbn [andThen].
  match goal with
  | |- context [fetchLivePriceFromFinnhub net apiKey symbol ?hh] =>
      generalize hh
  end.
  intros hh. unfold fetchLivePriceFromFinnhub, fetch. run_monad.
  destruct (apiKey =? ""); [reflexivity|].
  destruct (endsWith symbol ".NS"); [reflexivity|]. cbn.
  match goal with
  | |- context [outcome (net ?hist ?url)] =>
      destruct (Hdown hist url) as [e' He']; rewrite He'
  end.
  reflexivity.
Qed.

Lemma failures_snoc id k :
  failures id k ++ pollOnce id (Ok None) = failures id (S k).
Proof.
  induction k as [|k IH]; [reflexivity|].
  cbn [failures]. rewrite <- app_assoc, IH. reflexivity.
Qed.

Lemma pollWith_unreachable symbol id k : forall a h,
  unreachableNet net ->
  let st := Nat.iter k (pollWith net apiKey symbol id) (a, h) in
  fst st = run (failures id k) a /\ requests (snd st) <= requests h + 5 * k.
Proof.
  intros a h Hdown. induction k as [|k [IHa IHr]]; cbn zeta.
  - split; [reflexivity|]. unfold Nat.iter. cbn [nat_rect snd]. lia.
  - cbn zeta in IHa, IHr.
    change (Nat.iter (S k) (pollWith net apiKey symbol id) (a, h))
      with (pollWith net apiKey symbol id
              (Nat.iter k (pollWith net apiKey symbol id) (a, h))).
    destruct (Nat.iter k (pollWith net apiKey symbol id) (a, h)) as [b hist].
    cbn [fst snd] in IHa, IHr. subst b.
    unfold pollWith. cbn [fst snd].
    rewrite (fetchLivePrice_unreachable symbol hist Hdown).
    split.
    + rewrite <- failures_snoc, run_app. reflexivity.
    + rewrite requests_app.
      pose proof (fetchLivePrice_traffic net apiKey symbol hist). lia.
Qed.

(** X11.  On a network where every request is rejected the quote
    orchestrator gives null, so each tick of a session counts a failure:
    after five ticks, each settled before the next, a session that has just
    started is halted, with five quotes requested and at most twenty-five
    network requests made. *)
Theorem poller_halts_when_unreachable (symbol : string) (a : App) (id : nat)
    (h : list Event) :
  unreachableNet net ->
  freshSession a id ->
  let st := Nat.iter 5 (pollWith net apiKey symbol id) (a, h) in
  fst (fetchLivePrice net apiKey symbol h) = Ok None /\
  isHalted (fst st) /\
  fetches (fst st) = fetches a + 5 /\
  requests (snd st) <= requests h + 25.
Proof.
  intros Hdown Hfresh. cbn zeta.
  split; [exact (fetchLivePrice_unreachable symbol h Hdown)|].
  destruct (pollWith_unreachable symbol id 5 a h Hdown) as [Hst Hreq].
  rewrite Hst. pose proof (freshSession_eq a id Hfresh) as Ha.
  destruct Hfresh as (_ & Hid & _).
  rewrite Ha at 1 2. rewrite (failures_five id _ _ Hid).
  unfold isHalted. cbn [priceUpdateInterval timers isPollingHalted haltedEmitted
                        fetches].
  splits; auto.
Qed.

End Quote.


Lemma downWorld_unreachable : unreachableNet (H:=IntegerHost.host) Examples.downWorld.
Proof. intros h url. eexists. reflexivity. Qed.

Lemma poller_halts_when_unreachable_witness :
  isHalted (fst (Nat.iter 5 (pollWith Examples.downWorld FINNHUB_API_KEY "ABC" 1)
                   (started, []))).
Proof.
  destruct (poller_halts_when_unreachable (H:=IntegerHost.host) Examples.downWorld
              FINNHUB_API_KEY "ABC" started 1 [] downWorld_unreachable
              started_fresh) as (_ & Hhalted & _).
  exact Hhalted.
Defined.

(** ** The intervals of the poller *)

Lemma clearInterval_not_In id ts : ~ In id (clearInterval id ts).
Proof.
  unfold clearInterval. intros Hin. apply filter_In in Hin.
  destruct Hin as [_ Hne]. rewrite Nat.eqb_refl in Hne. discriminate Hne.
Qed.

Lemma clearInterval_In id id' ts :
  id <> id' -> In id ts -> In id (clearInterval id' ts).
Proof.
  intros Hne Hin. unfold clearInterval. apply filter_In. split; [exact Hin|].
  destruct (Nat.eqb_spec id id'); [contradiction|reflexivity].
Qed.

(** X12.  Stopping can be asked at any time and any number of times.  It
    leaves no interval in the ref; when one was there, the host no longer
    holds it and the failure counter is back to 0; when none was there,
    nothing changes at all; and a second stop changes nothing. *)
Theorem stopPolling_idempotent (halted halted' : bool) (a : App) :
  let b := stopPolling halted a in
  stopPolling halted' b = b /\
  currentInterval b = None /\
  (forall id, currentInterval a = Some id ->
     ~ In id (timers b) /\ pollingFailureCount b = 0) /\
  (currentInterval a = None -> b = a).
Proof.
  cbn zeta. unfold stopPolling.
  destruct (currentInterval a) as [id|] eqn:Hcur.
  - splits.
    + reflexivity.
    + reflexivity.
    + intros id' Hid. injection Hid as <-. split; [|reflexivity].
      apply clearInterval_not_In.
    + discriminate.
  - rewrite Hcur. splits; auto.
    intros id Hid. discriminate Hid.
Qed.

Lemma stopPolling_clears halted a :
  oneInterval a ->
  timers (stopPolling halted a) = [] /\ oneInterval (stopPolling halted a).
Proof.
  unfold oneInterval, stopPolling. intros Hone.
  destruct (currentInterval a) as [id|] eqn:Hcur.
  - cbn [timers]. rewrite Hone. cbn. rewrite Nat.eqb_refl. split; reflexivity.
  - rewrite Hcur. auto.
Qed.

(** While the requests do not overlap, the host holds the interval of the
    ref and no other, and none while a request is pending. *)
Lemma run_oneInterval os : forall pending a,
  sequential pending os ->
  oneInterval a -> (pending = true -> timers a = []) ->
  oneInterval (run os a).
Proof.
  induction os as [|o os IH]; intros pending a Hseq Hone Hpend; [exact Hone|].
  cbn [run fold_left]. fold (run os (step o a)).
  destruct o as [|sym id|id|r]; cbn [sequential] in Hseq.
  - destruct Hseq as [-> Hseq].
    destruct (stopPolling_clears false
                (mkApp (priceUpdateInterval a) (pollingFailureCount a) None false
                   (timers a) (inFlight a) (fetches a) 0) Hone) as [Hnil Hone'].
    apply (IH true _ Hseq); [exact Hone'|intros _; exact Hnil].
  - destruct sym as [sym|].
    + destruct Hseq as (-> & Hid & Hseq). specialize (Hpend eq_refl).
      apply (IH false _ Hseq); [|discriminate]. cbn [step].
      destruct (sym =? ""); [exact Hone|].
      unfold oneInterval, currentInterval. cbn. rewrite Hpend.
      destruct (Nat.eqb_spec id 0); [contradiction|reflexivity].
    + destruct Hseq as (-> & Hseq).
      apply (IH false _ Hseq); [exact Hone|discriminate].
  - apply (IH pending _ Hseq); cbn [step];
      destruct (existsb (Nat.eqb id) (timers a)); assumption.
  - assert (Hstep : oneInterval (step (QuoteSettled r) a) /\
                    (pending = true -> timers (step (QuoteSettled r) a) = [])).
    { cbn [step]. destruct (inFlight a) as [|n]; [split; assumption|].
      destruct r as [newPrice|e]; [|split; assumption].
      unfold resume. cbn -[Nat.leb stopPolling].
      destruct (match newPrice with Some p => negb (p =? "") | None => false end);
        [split; assumption|].
      destruct (5 <=? _)%nat; [|split; assumption].
      match goal with
      | |- oneInterval (stopPolling true ?b) /\ _ =>
          destruct (stopPolling_clears true b Hone) as [Hnil Hone']
      end.
      split; [exact Hone'|intros _; exact Hnil]. }
    destruct Hstep as [Hone' Hpend']. exact (IH pending _ Hseq Hone' Hpend').
Qed.

(** X13.  No interval leaks while the requests of the user do not overlap:
    whatever the ticks and the quotes in between, the host holds at most one
    interval of the poller, the one in the ref, so that stopping stops
    everything. *)
Theorem poller_one_interval (os : list Occurrence) :
  sequential false os ->
  let b := run os mounted in
  oneInterval b /\ length (timers b) <= 1 /\ timers (stopPolling false b) = [].
Proof.
  intros Hseq. cbn zeta.
  assert (Hone : oneInterval (run os mounted)).
  { apply (run_oneInterval os false mounted Hseq); [reflexivity|discriminate]. }
  split; [exact Hone|].
  unfold oneInterval in Hone. unfold stopPolling.
  destruct (currentInterval (run os mounted)) as [id|].
  - rewrite Hone. cbn. rewrite Nat.eqb_refl. split; [lia|reflexivity].
  - rewrite Hone. cbn. split; [lia|reflexivity].
Qed.

Lemma poller_one_interval_witness :
  timers (run [RequestStart; RequestDone (Some "ABC") 1; TimerFired 1;
               RequestStart; QuoteSettled (Ok None);
               RequestDone (Some "XYZ") 2] mounted) = [2].
Proof.
  destruct (poller_one_interval
              [RequestStart; RequestDone (Some "ABC") 1; TimerFired 1;
               RequestStart; QuoteSettled (Ok None);
               RequestDone (Some "XYZ") 2]) as [Hone _].
  - cbn. repeat split; discriminate.
  - exact Hone.
Defined.

(** An interval that the ref has lost stays with the host. *)
Lemma run_leaked id os : forall a,
  neverReuses id os ->
  In id (timers a) -> priceUpdateInterval a <> Some id ->
  In id (timers (run os a)) /\ priceUpdateInterval (run os a) <> Some id.
Proof.
  induction os as [|o os IH]; intros a Hnever Hin Href; [split; assumption|].
  inversion Hnever as [|o' os' Ho Hos]; subst.
  cbn [run fold_left]. fold (run os (step o a)).
  assert (Hstop : forall halted b,
            In id (timers b) -> priceUpdateInterval b <> Some id ->
            In id (timers (stopPolling halted b)) /\
            priceUpdateInterval (stopPolling halted b) <> Some id).
  { intros halted b Hb Hrefb. unfold stopPolling, currentInterval.
    destruct (priceUpdateInterval b) as [id'|] eqn:Hp; [|rewrite Hp; auto].
    destruct (id' =? 0)%nat; [rewrite Hp; auto|]. cbn. split; [|discriminate].
    apply clearInterval_In; [|exact Hb]. congruence. }
  apply (IH _ Hos); destruct o as [|sym id'|id'|r]; cbn [step].
  - apply Hstop; assumption.
  - destruct sym as [sym|]; [|exact Hin].
    destruct (sym =? ""); [exact Hin|]. cbn. auto.
  - destruct (existsb (Nat.eqb id') (timers a)); exact Hin.
  - destruct (inFlight a) as [|n]; [exact Hin|].
    destruct r as [newPrice|e]; [|exact Hin].
    unfold resume. cbn -[Nat.leb].
    destruct (match newPrice with Some p => negb (p =? "") | None => false end);
      [exact Hin|].
    destruct (5 <=? _)%nat; [|exact Hin]. apply Hstop; assumption.
  - apply Hstop; assumption.
  - destruct sym as [sym|]; [|exact Href].
    destruct (sym =? ""); [exact Href|]. cbn. congruence.
  - destruct (existsb (Nat.eqb id') (timers a)); exact Href.
  - destruct (inFlight a) as [|n]; [exact Href|].
    destruct r as [newPrice|e]; [|exact Href].
    unfold resume. cbn -[Nat.leb].
    destruct (match newPrice with Some p => negb (p =? "") | None => false end);
      [exact Href|].
    destruct (5 <=? _)%nat; [|exact Href]. apply Hstop; assumption.
Qed.

(** X14.  Requests that overlap leak an interval.  When a second request
    starts before the analysis of the first has settled, the interval that
    the first one registers is overwritten in the ref by the second: from
    then on nothing can clear it, it stays with the host whatever happens
    (new requests, halts), and each of its ticks requests a quote. *)
Theorem overlapping_requests_leak (s1 s2 : string) (id1 id2 : nat)
    (os : list Occurrence) :
  s1 <> "" -> s2 <> "" -> id1 <> id2 ->
  neverReuses id1 os ->
  let b := run ([RequestStart; RequestStart;
                 RequestDone (Some s1) id1; RequestDone (Some s2) id2] ++ os)
             mounted in
  In id1 (timers b) /\ priceUpdateInterval b <> Some id1 /\
  fetches (step (TimerFired id1) b) = S (fetches b).
Proof.
  intros Hs1 Hs2 Hne Hnever. cbn zeta. rewrite run_app.
  assert (Hstart :
    run [RequestStart; RequestStart;
         RequestDone (Some s1) id1; RequestDone (Some s2) id2] mounted
    = mkApp (Some id2) 0 None false [id2; id1] 0 0 0).
  { unfold run. cbn [fold_left step]. unfold stopPolling, currentInterval. cbn.
    destruct (String.eqb_spec s1 ""); [contradiction|].
    destruct (String.eqb_spec s2 ""); [contradiction|]. reflexivity. }
  rewrite Hstart.
  destruct (run_leaked id1 os (mkApp (Some id2) 0 None false [id2; id1] 0 0 0)
              Hnever) as [Hin Href].
  { cbn. auto. }
  { cbn. congruence. }
  splits; [exact Hin|exact Href|].
  cbn [step].
  assert (Hex : existsb (Nat.eqb id1) (timers (run os
                  (mkApp (Some id2) 0 None false [id2; id1] 0 0 0))) = true).
  { apply existsb_exists. exists id1. split; [exact Hin|apply Nat.eqb_refl]. }
  rewrite Hex. reflexivity.
Qed.

Lemma overlapping_requests_leak_witness :
  In 1 (timers (run ([RequestStart; RequestStart;
                      RequestDone (Some "ABC") 1; RequestDone (Some "XYZ") 2]
                     ++ [RequestStart; RequestDone (Some "DEF") 3; RequestStart])
                  mounted)).
Proof.
  destruct (overlapping_requests_leak "ABC" "XYZ" 1 2
              [RequestStart; RequestDone (Some "DEF") 3; RequestStart])
    as [Hin _].
  - discriminate.
  - discriminate.
  - discriminate.
  - repeat constructor. discriminate.
  - exact Hin.
Defined.

(** Ticks of a session that has just started, with no quote settled. *)
Lemma ticks_run id lp : forall n infl fet,
  run (repeat (TimerFired id) n) (mkApp (Some id) 0 lp false [id] infl fet 0)
  = mkApp (Some id) 0 lp false [id] (infl + n) (fet + n) 0.
Proof.
  induction n as [|n IH]; intros infl fet.
  - cbn. rewrite !Nat.add_0_r. reflexivity.
  - cbn [repeat]. unfold run in *. cbn [fold_left step timers existsb].
    rewrite Nat.eqb_refl. cbn [orb]. unfold tick. cbn.
    rewrite IH. f_equal; lia.
Qed.

(** Missing quotes that settle while no interval is registered. *)
Lemma stale_failures_run lp hlt fet hem : forall k cnt infl,
  run (repeat (QuoteSettled (Ok None)) k)
      (mkApp None cnt lp hlt [] (infl + k) fet hem)
  = mkApp None (cnt + k) lp hlt [] infl fet hem.
Proof.
  induction k as [|k IH]; intros cnt infl.
  - cbn. rewrite !Nat.add_0_r. reflexivity.
  - cbn [repeat]. unfold run in *. cbn [fold_left].
    replace (infl + S k) with (S (infl + k)) by lia.
    cbn [step inFlight]. unfold resume. cbn -[Nat.leb stopPolling].
    assert (Hstop : forall b, priceUpdateInterval b = None -> stopPolling true b = b).
    { intros b Hb. unfold stopPolling, currentInterval. rewrite Hb. reflexivity. }
    destruct (5 <=? S cnt)%nat; [rewrite Hstop by reflexivity|];
      rewrite IH; f_equal; lia.
Qed.

(** X15.  What is still in flight when a session is stopped is applied when
    it settles.  From a session that has just started, with k quotes
    requested and a new request made before any of them settled: a quote
    that arrives then is shown as the live price although no interval is
    registered; and k missing quotes are counted, the counter is not reset
    when the next interval is registered, so that the next session starts
    with k failures counted and, from four on, halts at its first failure. *)
Theorem stale_quotes_applied (a : App) (id k : nat) (sym : string) (id' : nat) :
  freshSession a id -> sym <> "" -> id' <> 0 ->
  (forall p, p <> "" ->
     let b := run (repeat (TimerFired id) (S k)
                   ++ [RequestStart; QuoteSettled (Ok (Some p))]) a in
     priceUpdateInterval b = None /\ livePrice b = Some p) /\
  (let b := run (repeat (TimerFired id) k ++ [RequestStart]
                 ++ repeat (QuoteSettled (Ok None)) k
                 ++ [RequestDone (Some sym) id']) a in
   priceUpdateInterval b = Some id' /\ timers b = [id'] /\
   isPollingHalted b = false /\ pollingFailureCount b = k /\
   (4 <= k -> isPollingHalted (run (pollOnce id' (Ok None)) b) = true)).
Proof.
  intros Hfresh Hsym Hid'. pose proof (freshSession_eq a id Hfresh) as Ha.
  destruct Hfresh as (_ & Hid & _).
  assert (Hstart : forall n,
    run (repeat (TimerFired id) n ++ [RequestStart]) a
    = mkApp None 0 None false [] n (fetches a + n) 0).
  { intros n. rewrite run_app, Ha, ticks_run. cbn [fetches].
    unfold run. cbn [fold_left step]. unfold stopPolling, currentInterval. cbn.
    destruct (Nat.eqb_spec id 0); [contradiction|]. cbn.
    rewrite Nat.eqb_refl. reflexivity. }
  split.
  - intros p Hp. cbn zeta.
    change [RequestStart; QuoteSettled (Ok (Some p))]
      with ([RequestStart] ++ [QuoteSettled (Ok (Some p))]).
    rewrite app_assoc, run_app, Hstart.
    unfold run. cbn [fold_left step inFlight]. unfold resume.
    destruct (String.eqb_spec p ""); [contradiction|]. cbn. auto.
  - cbn zeta.
    assert (Hb :
      run (repeat (TimerFired id) k ++ [RequestStart]
           ++ repeat (QuoteSettled (Ok None)) k
           ++ [RequestDone (Some sym) id']) a
      = mkApp (Some id') k None false [id'] 0 (fetches a + k) 0).
    { rewrite app_assoc, run_app, Hstart, run_app.
      pose proof (stale_failures_run None false (fetches a + k) 0 k 0 0) as Hstale.
      cbn [Nat.add] in Hstale. rewrite Hstale.
      unfold run. cbn [fold_left step].
      destruct (String.eqb_spec sym ""); [contradiction|]. reflexivity. }
    rewrite Hb.
    cbn [priceUpdateInterval timers isPollingHalted pollingFailureCount].
    splits; try reflexivity.
    intros Hk. rewrite (pollOnce_failure id' k None (fetches a + k) Hid').
    destruct (Nat.leb_spec 5 (S k)); [reflexivity|lia].
Qed.

Lemma stale_quotes_applied_witness :
  livePrice (run (repeat (TimerFired 1) 1
                  ++ [RequestStart; QuoteSettled (Ok (Some "14.00"))]) started)
    = Some "14.00" /\
  pollingFailureCount
    (run (repeat (TimerFired 1) 4 ++ [RequestStart]
          ++ repeat (QuoteSettled (Ok None)) 4
          ++ [RequestDone (Some "XYZ") 2]) started) = 4.
Proof.
  destruct (stale_quotes_applied started 1 0 "XYZ" 2 started_fresh)
    as [Hprice _]; [discriminate|discriminate|].
  destruct (stale_quotes_applied started 1 4 "XYZ" 2 started_fresh)
    as [_ (_ & _ & _ & Hcount & _)]; [discriminate|discriminate|].
  split; [|exact Hcount].
  apply (Hprice "14.00"). discriminate.
Defined.

Lemma last_cons {A} (l : list A) : forall x d, last (x :: l) d = last l x.
Proof.
  induction l as [|y l IH]; intros x d; [reflexivity|].
  change (last (x :: y :: l) d) with (last (y :: l) d).
  rewrite !IH. reflexivity.
Qed.

(** Failures that do not bring the counter to five. *)
Lemma failures_run id lp : forall k cnt fet,
  id <> 0 -> cnt + k < 5 ->
  run (failures id k) (mkApp (Some id) cnt lp false [id] 0 fet 0) =
  mkApp (Some id) (cnt + k) lp false [id] 0 (fet + k) 0.
Proof.
  induction k as [|k IH]; intros cnt fet Hid Hlt.
  - cbn. rewrite !Nat.add_0_r. reflexivity.
  - cbn [failures]. rewrite run_app, (pollOnce_failure id cnt lp fet Hid).
    destruct (Nat.leb_spec 5 (S cnt)); [lia|].
    rewrite IH by (auto; lia). f_equal; lia.
Qed.

(** X16.  The poller does not halt while the source answers often enough.
    From any point of a session between two ticks, with c failures counted
    (a session need not start at 0: it inherits the failures of quotes that
    were outstanding when the session before it was replaced): when every
    quote settles before the next tick, the first run of failures is
    shorter than five less c, every later run is shorter than five, and
    each run ends with a quote, then, however long the session, the
    interval stays registered, no halt is signalled, the counter is at 0
    after each quote and the last quote is the live price. *)
Theorem poller_keeps_running (a : App) (id : nat) (quotes : list (nat * string)) :
  betweenTicks a id ->
  survivable (pollingFailureCount a) quotes ->
  let b := run (rounds id quotes) a in
  betweenTicks b id /\
  (quotes <> [] -> pollingFailureCount b = 0) /\
  livePrice b = last (map (fun round => Some (snd round)) quotes) (livePrice a).
Proof.
  intros [(Hp & Hid & Ht & Hc & Hh & He) Hi] Hquotes. cbn zeta.
  assert (Hgen : forall quotes cnt lp fet,
    cnt < 5 -> survivable cnt quotes ->
    exists cnt' fet',
      run (rounds id quotes) (mkApp (Some id) cnt lp false [id] 0 fet 0)
      = mkApp (Some id) cnt'
          (last (map (fun round => Some (snd round)) quotes) lp)
          false [id] 0 fet' 0 /\
      cnt' < 5 /\ (quotes <> [] -> cnt' = 0)).
  { clear - Hid. induction quotes as [|[k p] quotes IH]; intros cnt lp fet Hcnt Hs.
    - exists cnt, fet. splits; [reflexivity|exact Hcnt|congruence].
    - cbn [survivable] in Hs. destruct Hs as (Hk & Hprice & Hs).
      cbn [rounds flat_map fst snd]. fold (rounds id quotes).
      rewrite !run_app, (failures_run id lp k cnt fet Hid Hk),
        (pollOnce_success id (cnt + k) lp (fet + k) p Hprice).
      destruct (IH 0 (Some p) (S (fet + k)) ltac:(lia) Hs)
        as (cnt' & fet' & Hrun & Hlt & Hzero).
      exists cnt', fet'. rewrite Hrun. cbn [map snd]. rewrite last_cons.
      splits; [reflexivity|exact Hlt|].
      intros _. destruct quotes as [|round quotes'].
      + cbn in Hrun. injection Hrun as <- _. reflexivity.
      + apply Hzero. discriminate. }
  destruct a as [pi cnt lp hlt tms infl fet hem].
  cbn in Hp, Ht, Hc, Hh, He, Hi, Hquotes |- *. subst.
  destruct (Hgen quotes cnt lp fet Hc Hquotes) as (cnt' & fet' & Hrun & Hlt & Hzero).
  rewrite Hrun. unfold betweenTicks, isRunning. cbn. splits; auto.
Qed.

Lemma poller_keeps_running_witness :
  pollingFailureCount (run inheritedFailure mounted) = 1 /\
  isRunning
    (run (rounds 2 [(3, "14.00"); (0, "14.10"); (4, "13.90")])
       (run inheritedFailure mounted)) 2 /\
  livePrice
    (run (rounds 2 [(3, "14.00"); (0, "14.10"); (4, "13.90")])
       (run inheritedFailure mounted))
    = Some "13.90".
Proof.
  split; [reflexivity|].
  destruct (poller_keeps_running (run inheritedFailure mounted) 2
              [(3, "14.00"); (0, "14.10"); (4, "13.90")])
    as ((Hrunning & _) & _ & Hprice).
  - vm_compute. repeat split; (discriminate || lia).
  - vm_compute. repeat split; (discriminate || lia).
  - split; [exact Hrunning|exact Hprice].
Defined.

(** ** The symbols of the fallback source *)

Lemma lookup_In k v table : lookup k table = Some v -> In (k, v) table.
Proof.
  induction table as [|[k' v'] table IH]; cbn; [discriminate|].
  destruct (String.eqb_spec k k') as [->|Hne].
  - intros Heq. injection Heq as ->. auto.
  - auto.
Qed.

Section Symbols.

Context `{Host}.

(** A symbol is mapped by the table; any other is read from what the table
    inherits, or left as it is. *)
Lemma mapSymbolForFinnhub_cases symbol :
  In (symbol, mapSymbolForFinnhub symbol) mappings \/
  (lookup symbol mappings = None /\
   mapSymbolForFinnhub symbol
   = match inherited symbol with Some text => text | None => symbol end).
Proof.
  unfold mapSymbolForFinnhub.
  destruct (lookup symbol mappings) as [mapped|] eqn:Hl; [left|right; auto].
  apply lookup_In in Hl. pose proof Hl as Hin. cbn in Hl.
  repeat (destruct Hl as [Hl|Hl];
          [injection Hl as <- <-; exact Hin|]).
  contradiction.
Qed.

(** X17.  For a symbol that is not a name inherited from Object.prototype,
    on a host where no ticker of the table is such a name: mapping the
    symbol for the fallback source is idempotent, and it neither makes nor
    unmakes a symbol of the Indian exchange, so that refusing such symbols
    before the mapping, as the providers do, or after it, comes to the same.
    For an inherited name that the table does not declare ('toString',
    'constructor', ...) the result is not the symbol: it is the text of the
    inherited function or object. *)
Theorem mapSymbolForFinnhub_idempotent (symbol : string) :
  inherited symbol = None ->
  tickersOwn ->
  mapSymbolForFinnhub (mapSymbolForFinnhub symbol) = mapSymbolForFinnhub symbol /\
  endsWith (mapSymbolForFinnhub symbol) ".NS" = endsWith symbol ".NS" /\
  (forall name text,
     lookup name mappings = None -> inherited name = Some text ->
     mapSymbolForFinnhub name = text).
Proof.
  intros Hsymbol Hown.
  assert (Hname : forall name text,
            lookup name mappings = None -> inherited name = Some text ->
            mapSymbolForFinnhub name = text).
  { intros name text Hl Hi. unfold mapSymbolForFinnhub. rewrite Hl, Hi.
    reflexivity. }
  destruct (mapSymbolForFinnhub_cases symbol) as [Hin|[Hnone Hsame]].
  - pose proof (Hown _ _ Hin) as Hmapped.
    assert (Htable :
      lookup (mapSymbolForFinnhub symbol) mappings = None /\
      endsWith (mapSymbolForFinnhub symbol) ".NS" = endsWith symbol ".NS").
    { clear Hmapped Hsymbol. cbn in Hin.
      repeat (destruct Hin as [Hin|Hin];
              [injection Hin as <- Hm; rewrite <- Hm; split; reflexivity|]).
      contradiction. }
    destruct Htable as [Hl Hends]. splits; [|exact Hends|exact Hname].
    unfold mapSymbolForFinnhub at 1. rewrite Hl, Hmapped. reflexivity.
  - rewrite Hsymbol in Hsame. rewrite Hsame.
    splits; [exact Hsame|reflexivity|exact Hname].
Qed.

End Symbols.

Lemma IntegerHost_tickersOwn : tickersOwn (H:=IntegerHost.host).
Proof.
  intros key mapped Hin. cbn in Hin.
  repeat (destruct Hin as [Hin|Hin]; [injection Hin as <- <-; reflexivity|]).
  contradiction.
Qed.

Lemma mapSymbolForFinnhub_idempotent_witness :
  mapSymbolForFinnhub (H:=IntegerHost.host)
    (mapSymbolForFinnhub (H:=IntegerHost.host) "^GSPC") = "SPY" /\
  mapSymbolForFinnhub (H:=IntegerHost.host) "toString"
    = "function toString() { [native code] }".
Proof.
  destruct (mapSymbolForFinnhub_idempotent (H:=IntegerHost.host) "^GSPC"
              eq_refl IntegerHost_tickersOwn) as (Hidem & _ & Hname).
  split; [rewrite Hidem; reflexivity|].
  apply Hname; reflexivity.
Defined.

(** ** The performance over three months *)

Section PerformanceProperties.

Context `{Arith}.

Lemma finiteCloses_app a b :
  finiteCloses (a ++ b) = finiteCloses a ++ finiteCloses b.
Proof. unfold finiteCloses. apply flat_map_app. Qed.

(** X18.  The performance is that of the last finite close against the
    first one.  Nulls and values that are not finite count for nothing,
    wherever they are, and neither does any close between the first and the
    last: the text is the change from the first to the last finite close,
    in percent of the first, with a plus sign when it is not negative. *)
Theorem calculate3MonthPerformance_ends (data : Body) (result : YResult)
    (q : QuoteArrays) (before between after : list (option num))
    (firstClose lastClose : num) :
  firstResult data = Some result ->
  firstQuote result = Ok q ->
  q_close q = Some (before ++ Some firstClose :: between
                           ++ Some lastClose :: after) ->
  finiteCloses before = [] -> finiteCloses after = [] ->
  isFinite firstClose = true -> isFinite lastClose = true ->
  calculate3MonthPerformance data
  = Ok (Some (performanceText firstClose lastClose)).
Proof.
  intros Hres Hq Hclose Hbefore Hafter Hfirst Hlast.
  unfold calculate3MonthPerformance. rewrite Hres, Hq. cbn [andThen].
  rewrite Hclose. unfold performanceOf.
  assert (Hfin : finiteCloses (before ++ Some firstClose :: between
                                      ++ Some lastClose :: after)
                 = (firstClose :: finiteCloses between) ++ [lastClose]).
  { rewrite finiteCloses_app, Hbefore.
    change (Some firstClose :: between ++ Some lastClose :: after)
      with ([Some firstClose] ++ between ++ [Some lastClose] ++ after).
    rewrite !finiteCloses_app, Hafter. cbn [finiteCloses flat_map].
    rewrite Hfirst, Hlast. cbn [app]. rewrite ?app_nil_r. reflexivity. }
  rewrite Hfin, last_last.
  assert (Hlen : (length ((firstClose :: finiteCloses between) ++ [lastClose])
                  <? 2)%nat = false).
  { apply Nat.ltb_ge. rewrite length_app. cbn. lia. }
  rewrite Hlen. reflexivity.
Qed.

End PerformanceProperties.

Lemma calculate3MonthPerformance_ends_witness :
  @calculate3MonthPerformance IntegerHost.host IntegerArith.arith
    IntegerArith.gappyBody = Ok (Some "+100.00%").
Proof.
  exact (@calculate3MonthPerformance_ends IntegerHost.host IntegerArith.arith
           IntegerArith.gappyBody
           IntegerArith.gappyCloses _
           [None] [None; Some (IntegerHost.Int 75); Some IntegerHost.NaN] [None]
           (IntegerHost.Int 50) (IntegerHost.Int 100)
           eq_refl eq_refl eq_refl eq_refl eq_refl eq_refl eq_refl).
Defined.

(** ** What the relay throws, and what is logged as an error *)

Lemma errorsLogged_app (a b : list Event) :
  errorsLogged (a ++ b) = errorsLogged a + errorsLogged b.
Proof. unfold errorsLogged. rewrite filter_app, length_app. reflexivity. Qed.

Section Failures.

Context `{Host}.
Variable net : World.

Lemma recordFailure_name e : err_name (recordFailure e) <> "AbortError".
Proof.
  unfold recordFailure.
  destruct (String.eqb_spec (err_name e) "AbortError"); [discriminate|assumption].
Qed.

Lemma FailedAttempts_last url h ps evs last :
  FailedAttempts net url h ps evs last ->
  errorsLogged evs = 0 /\
  match last with Some e => err_name e <> "AbortError" | None => ps = [] end.
Proof.
  induction 1 as [|ps p evs last e _ [IH _] _ _]; [auto|].
  rewrite errorsLogged_app, IH. split; [reflexivity|apply recordFailure_name].
Qed.

(** X19.  The relay never lets an abort through: whatever it throws, after
    four failed attempts, is not an AbortError.  An attempt that ran into
    the timer is reported by the timed-out error, any other by its own
    error. *)
Theorem yahooFinanceFetch_never_aborts (url : string) (h : list Event)
    (e : JsError) :
  fst (yahooFinanceFetch net url h) = Throw e ->
  err_name e <> "AbortError" /\ requests (snd (yahooFinanceFetch net url h)) = 4.
Proof.
  intros Hthrow.
  pose proof (relayLoop_run net url h PROXIES [] [] None (failed_none net url h))
    as Hrun.
  cbn zeta in Hrun. rewrite app_nil_r in Hrun.
  fold (yahooFinanceFetch net url) in Hrun. cbn [app] in Hrun.
  destruct Hrun as [(ps & p & rest & data & evs & _ & _ & _ & Hres & _)
                   |(evs & last & Hf & Hres & Hev)].
  - rewrite Hthrow in Hres. discriminate Hres.
  - rewrite Hthrow in Hres. injection Hres as ->.
    destruct (FailedAttempts_last _ _ _ _ _ Hf) as [_ Hlast].
    destruct (FailedAttempts_counts _ _ _ _ _ _ Hf) as (Hr & _).
    rewrite Hev, Hr. split; [|reflexivity].
    destruct last as [e|]; [exact Hlast|discriminate Hlast].
Qed.

Lemma yahooFinanceFetch_errorsLogged url h :
  errorsLogged (snd (yahooFinanceFetch net url h)) = 0.
Proof.
  pose proof (relayLoop_run net url h PROXIES [] [] None (failed_none net url h))
    as Hrun.
  cbn zeta in Hrun. rewrite app_nil_r in Hrun.
  fold (yahooFinanceFetch net url) in Hrun. cbn [app] in Hrun.
  destruct Hrun as [(ps & p & rest & data & evs & _ & [last Hf] & _ & _ & Hev)
                   |(evs & last & Hf & _ & Hev)];
    rewrite Hev; destruct (FailedAttempts_last _ _ _ _ _ Hf) as [He _].
  - rewrite errorsLogged_app, He. reflexivity.
  - exact He.
Qed.

Variable apiKey : string.

(** X20.  The series orchestrator writes to the console at the error level
    exactly when it gives up: nothing when it returns a series, whichever
    provider gave it; one message when it throws.  The failures along the
    way, of the attempts of the relay and of the primary provider, are
    warnings. *)
Theorem fetchMarketData_errorsLogged (symbol timeframe : string) (h : list Event) :
  let r := fetchMarketData net apiKey symbol timeframe h in
  errorsLogged (snd r) = match fst r with Ok _ => 0 | Throw _ => 1 end.
Proof.
  cbn zeta. rewrite fetchMarketData_eq. cbn zeta.
  assert (Hy : errorsLogged (snd (fetchMarketDataFromYahoo net symbol timeframe
                                    (h ++ [logAttempt symbol]))) = 0).
  { rewrite fetchMarketDataFromYahoo_eq. cbn zeta. cbn [snd].
    change (EvCall OpYahooSeries :: ?l) with ([EvCall OpYahooSeries] ++ l).
    rewrite errorsLogged_app, yahooFinanceFetch_errorsLogged. reflexivity. }
  destruct (fetchMarketDataFromYahoo net symbol timeframe (h ++ [logAttempt symbol]))
    as [[payload|yahooError] evs]; cbn [fst snd] in *.
  - change (logAttempt symbol :: evs) with ([logAttempt symbol] ++ evs).
    rewrite errorsLogged_app, Hy. reflexivity.
  - destruct (apiKey =? "") eqn:Hkey; cbn [fst snd].
    + change (logAttempt symbol :: evs) with ([logAttempt symbol] ++ evs).
      rewrite !errorsLogged_app, Hy. reflexivity.
    + match goal with
      | |- context [fetchMarketDataFromFinnhub net apiKey symbol timeframe ?hh] =>
          pose proof (fetchMarketDataFromFinnhub_events net apiKey symbol
                        timeframe hh) as Hf;
          destruct (fetchMarketDataFromFinnhub net apiKey symbol timeframe hh)
            as [[payload|finnhubError] evs']
      end; cbn [fst snd] in *; subst evs';
      change (logAttempt symbol :: evs) with ([logAttempt symbol] ++ evs);
      rewrite !errorsLogged_app, Hy;
      destruct ((apiKey =? "") || endsWith symbol ".NS"); reflexivity.
Qed.

(** ** The text of a series *)

Lemma filterBoolean_cons row rows :
  filterBoolean (row :: rows) = filterBoolean [row] ++ filterBoolean rows.
Proof.
  destruct row as [s|]; cbn; [|reflexivity]. destruct (s =? ""); reflexivity.
Qed.

Lemma yahooRow_count q acc ts i row acc' :
  yahooRow q acc ts i = Ok (row, acc') ->
  length (fst acc') = length (fst acc) + length (filterBoolean [row]).
Proof.
  unfold yahooRow. intros Hrow.
  repeat match type of Hrow with
         | context [isNull ?x] =>
             destruct x; cbn [isNull andThen toFixed] in Hrow
         | context [index ?col i] =>
             destruct (index col i); cbn [andThen] in Hrow
         | context [dateOf ?x] =>
             destruct (dateOf x) as [date|]; cbn [andThen] in Hrow
         | Ok _ = Ok _ => injection Hrow as <- <-
         | Throw _ = Ok _ => discriminate Hrow
         end; cbn [filterBoolean length]; try lia;
    unfold push; cbn [fst]; rewrite length_app;
    destruct date; reflexivity.
Qed.

Lemma mapRows_yahooRow_count q : forall cells i acc rows acc',
  mapRows (yahooRow q) cells i acc = Ok (rows, acc') ->
  length (fst acc') = length (fst acc) + length (filterBoolean rows).
Proof.
  induction cells as [|x cells IH]; intros i acc rows acc' Hmap.
  - cbn in Hmap. injection Hmap as <- <-. cbn. lia.
  - cbn [mapRows] in Hmap.
    destruct (yahooRow q acc (cellVal x) i) as [[row acc1]|e] eqn:Hrow;
      cbn [andThen fst snd] in Hmap; [|discriminate].
    destruct (mapRows (yahooRow q) cells (S i) acc1) as [[rows1 acc2]|e] eqn:Hrest;
      cbn [andThen fst snd] in Hmap; [|discriminate].
    injection Hmap as <- <-.
    rewrite filterBoolean_cons, length_app.
    rewrite (IH _ _ _ _ Hrest), (yahooRow_count _ _ _ _ _ _ Hrow). lia.
Qed.

(** X21.  The text of a series that the orchestrator returns is the header
    line followed by one row for each candle of the series, whichever
    provider it comes from. *)
Theorem fetchMarketData_text (symbol timeframe : string) (h : list Event)
    (p : MarketDataPayload) :
  fst (fetchMarketData net apiKey symbol timeframe h) = Ok p ->
  exists rows,
    csv p = (header ++ join nl rows)%string /\
    length rows = length (candlestickData (chartData p)) /\
    length rows = length (volumeData (chartData p)).
Proof.
  intros Hp.
  assert (Hvol : length (volumeData (chartData p))
                 = length (candlestickData (chartData p))).
  { destruct (fetchMarketData_Ok net apiKey _ _ _ _ Hp)
      as [[data Hy]|(sym & data & Hf)].
    - destruct (yahooSeries_good _ _ Hy) as (_ & _ & Hd).
      symmetry. exact (Forall2_length Hd).
    - destruct (finnhubSeries_good _ _ _ Hf) as (_ & _ & Hd).
      symmetry. exact (Forall2_length Hd). }
  destruct (fetchMarketData_Ok net apiKey _ _ _ _ Hp)
    as [[data Hy]|(sym & data & Hf)].
  - unfold yahooSeries in Hy.
    destruct (firstResult data) as [result|]; [|discriminate].
    destruct (y_timestamp result) as [timestamp|]; [|discriminate].
    destruct (firstQuote result) as [q|e]; cbn [andThen] in Hy; [|discriminate].
    destruct (q_open q); [|discriminate].
    destruct (mapRows (yahooRow q) timestamp 0 ([], [])) as [[rows acc]|e] eqn:Hrows;
      cbn [andThen] in Hy; [|discriminate].
    injection Hy as <-. cbn [csv chartData candlestickData volumeData fst snd] in *.
    exists (filterBoolean rows).
    apply mapRows_yahooRow_count in Hrows. cbn [fst length] in Hrows.
    splits; [reflexivity|lia|lia].
  - apply finnhubSeries_Ok in Hf.
    destruct Hf as (d & t & rows & _ & _ & _ & Hlen & -> & _).
    cbn [csv chartData candlestickData volumeData] in *.
    exists rows. rewrite !length_map, length_seq. auto.
Qed.

End Failures.

Lemma yahooFinanceFetch_never_aborts_witness :
  fst (yahooFinanceFetch Examples.slowWorld (chartUrl "ABC" "1d" "1m") [])
    = Throw (Error timedOutMessage) /\
  err_name (Error timedOutMessage) <> "AbortError".
Proof.
  assert (Hrun : fst (yahooFinanceFetch Examples.slowWorld
                        (chartUrl "ABC" "1d" "1m") [])
                 = Throw (Error timedOutMessage)) by reflexivity.
  split; [exact Hrun|].
  exact (proj1 (yahooFinanceFetch_never_aborts (H:=IntegerHost.host)
                  Examples.slowWorld (chartUrl "ABC" "1d" "1m") [] _ Hrun)).
Defined.

Lemma fetchMarketData_text_witness :
  exists p rows,
    fst (fetchMarketData Examples.goodWorld FINNHUB_API_KEY "ABC" "Daily" [])
      = Ok p /\
    csv p = (header ++ join nl rows)%string /\
    length rows = 3 /\ length (candlestickData (chartData p)) = 3.
Proof.
  let x := eval vm_compute in
    (fst (fetchMarketData Examples.goodWorld FINNHUB_API_KEY "ABC" "Daily" []))
  in match x with Ok ?p => exists p end.
  match goal with
  | |- exists rows, _ = Ok ?p /\ _ =>
      assert (Hrun : fst (fetchMarketData Examples.goodWorld FINNHUB_API_KEY
                            "ABC" "Daily" []) = Ok p) by reflexivity
  end.
  destruct (fetchMarketData_text (H:=IntegerHost.host) Examples.goodWorld
              FINNHUB_API_KEY "ABC" "Daily" [] _ Hrun)
    as (rows & Hcsv & Hlen & _).
  exists rows. splits; [exact Hrun|exact Hcsv|exact Hlen|reflexivity].
Defined.

(** ** What the page shows *)



(** ** Examples *)

(** The relay, when the first two proxies answer 502 and the third answers:
    three requests, in the order of the list, and the third payload. *)
Example relay_third_proxy :
  let r := yahooFinanceFetch Examples.thirdProxyWorld
             (chartUrl "ABC" "1d" "1m") [] in
  fst r = Ok Examples.yahooBody /\
  fetchedUrls (snd r) =
    [ "https://corsproxy.io/?https://query1.finance.yahoo.com/v8/finance/chart/ABC?range=1d&interval=1m";
      "https://cors.eu.org/https://query1.finance.yahoo.com/v8/finance/chart/ABC?range=1d&interval=1m";
      "https://thingproxy.freeboard.io/fetch/https://query1.finance.yahoo.com/v8/finance/chart/ABC?range=1d&interval=1m" ].
Proof. cbn zeta. split; reflexivity. Qed.

(** The relay, when every proxy lets the timer run out: four requests and
    the timed-out message. *)
Example relay_all_timed_out :
  let r := yahooFinanceFetch Examples.slowWorld (chartUrl "ABC" "1d" "1m") [] in
  fst r = Throw (Error timedOutMessage) /\ length (fetchedUrls (snd r)) = 4.
Proof. cbn zeta. split; reflexivity. Qed.

(** The scenario of the specification: every proxy times out, the fallback
    source answers, and the series is the fallback's. *)
Example fallback_series :
  exists p,
    fst (fetchMarketData Examples.slowWorld FINNHUB_API_KEY "^GSPC" "Weekly" [])
      = Ok p /\
    splitLines (csv p) =
      [ "Date,Open,High,Low,Close,Volume";
        "2024-01-02,10.00,15.00,9.00,12.00,100";
        "2024-01-03,11.00,16.00,10.00,10.00,0" ].
Proof.
  let x := eval vm_compute in
    (fst (fetchMarketData Examples.slowWorld FINNHUB_API_KEY "^GSPC" "Weekly" []))
  in match x with Ok ?p => exists p end.
  split; reflexivity.
Qed.

(** The quote of an index through the primary source, to two decimals. *)
Example live_price :
  fst (fetchLivePrice Examples.goodWorld FINNHUB_API_KEY "^GSPC" [])
    = Ok (Some "14.00").
Proof. reflexivity. Qed.

(** When nothing answers, five ticks halt the poller: twenty-five requests
    were made in all, four through the relay and one to the fallback source
    for each tick. *)
Example poller_halts_when_down :
  let st := Nat.iter 5 (pollWith Examples.downWorld FINNHUB_API_KEY "ABC" 1)
              (started, []) in
  isPollingHalted (fst st) = true /\ timers (fst st) = [] /\
  haltedEmitted (fst st) = 1 /\ fetches (fst st) = 5 /\
  length (fetchedUrls (snd st)) = 25.
Proof. vm_compute. splits; reflexivity. Qed.
